(** * FinDocAI: the upload handler's text normalizer and transaction validator

    A shallow embedding of [cleanText] and of the persistence block of
    [handler] (pages/api upload route), with the properties the
    specification states about them; then of the rest of the route
    ([extractTextFromFile] and [handler] as a whole), of the document
    page ([getServerSideProps]) and of the two upload components
    ([handleSubmit], [handleUpload]), with further properties read from
    the code.

    Strings are JavaScript strings: sequences of UTF-16 code units.  The
    regular expressions of the source carry no [u] flag, so matching is
    done one code unit at a time. *)

From Stdlib Require Import List String Ascii Bool Arith NArith ZArith Lia.
From Stdlib Require Import Floats.
Import ListNotations.

Local Open Scope string_scope.
Local Open Scope list_scope.

Set Implicit Arguments.

(** ** JavaScript strings *)

Module JS.

Definition char := N.
Definition jsstring := list char.

(** A string literal of the source, as code units. *)
Definition str (s : string) : jsstring :=
  map N_of_ascii (list_ascii_of_string s).

Definition char_eqb (a b : char) : bool := N.eqb a b.

Fixpoint jsstring_eqb (a b : jsstring) : bool :=
  match a, b with
  | [], [] => true
  | x :: a', y :: b' => char_eqb x y && jsstring_eqb a' b'
  | _, _ => false
  end.

Fixpoint starts_with (p s : jsstring) : bool :=
  match p, s with
  | [], _ => true
  | x :: p', y :: s' => char_eqb x y && starts_with p' s'
  | _ :: _, [] => false
  end.

(** [String.prototype.includes]. *)
Fixpoint includes (s p : jsstring) : bool :=
  starts_with p s ||
  match s with
  | [] => false
  | _ :: s' => includes s' p
  end.

(** [String.prototype.substring(0, n)]. *)
Definition substring0 (n : nat) (s : jsstring) : jsstring := firstn n s.

End JS.

Import JS.

(** ** The regular expressions of the source

    Every pattern of [cleanText] is a sequence of quantified character
    classes, some of them capturing; the matcher below is the
    backtracking matcher of ECMAScript restricted to that shape. *)

Module Regex.

Inductive charclass : Type :=
| CLit (c : char)          (* a pattern character *)
| CDigit                   (* \d *)
| CSpace                   (* \s *)
| CAlpha                   (* [A-Za-z] *)
| CSet (cs : list char).   (* [...] of listed characters *)

Definition is_digit (c : char) : bool := (48 <=? c)%N && (c <=? 57)%N.

Definition is_upper (c : char) : bool := (65 <=? c)%N && (c <=? 90)%N.
Definition is_lower (c : char) : bool := (97 <=? c)%N && (c <=? 122)%N.
Definition is_alpha (c : char) : bool := is_upper c || is_lower c.

(** [\s]: WhiteSpace and LineTerminator code points. *)
Definition is_space (c : char) : bool :=
  ((9 <=? c)%N && (c <=? 13)%N)
  || (c =? 32)%N || (c =? 160)%N || (c =? 5760)%N
  || ((8192 <=? c)%N && (c <=? 8202)%N)
  || (c =? 8232)%N || (c =? 8233)%N || (c =? 8239)%N
  || (c =? 8287)%N || (c =? 12288)%N || (c =? 65279)%N.

Definition in_class (cl : charclass) (c : char) : bool :=
  match cl with
  | CLit d => char_eqb c d
  | CDigit => is_digit c
  | CSpace => is_space c
  | CAlpha => is_alpha c
  | CSet cs => existsb (char_eqb c) cs
  end.

(** One term of a pattern: a class, its quantifier [{qmin,qmax}]
    ([qmax = None] for an unbounded one) and whether it is wrapped in a
    capturing group. *)
Record atom : Type := Atom {
  cls : charclass;
  qmin : nat;
  qmax : option nat;
  captures : bool
}.

Definition regex := list atom.

Definition one (cl : charclass) : atom := Atom cl 1 (Some 1) false.
Definition plus (cl : charclass) : atom := Atom cl 1 None false.
Definition star (cl : charclass) : atom := Atom cl 0 None false.
Definition exactly (n : nat) (cl : charclass) : atom := Atom cl n (Some n) false.
Definition between (lo hi : nat) (cl : charclass) : atom := Atom cl lo (Some hi) false.
Definition cap (a : atom) : atom := Atom (cls a) (qmin a) (qmax a) true.

Definition may_take (hi : option nat) : bool :=
  match hi with
  | Some O => false
  | _ => true
  end.

Section Greedy.
Variable R : Type.
Variable p : char -> bool.
(** continuation: the piece taken by this term, and the rest of the input *)
Variable k : jsstring -> jsstring -> option R.

(** Greedy quantifier with backtracking: take one more character when
    allowed, and fall back to stopping here when the rest of the
    pattern then fails. [taken] is what this term has consumed so far,
    last character first. *)
Fixpoint greedy (lo : nat) (hi : option nat) (taken : jsstring)
         (s : jsstring) {struct s} : option R :=
  let stop := match lo with
              | O => k (rev taken) s
              | S _ => None
              end in
  match s with
  | c :: s' =>
      if p c && may_take hi then
        match greedy (pred lo) (option_map pred hi) (c :: taken) s' with
        | Some r => Some r
        | None => stop
        end
      else stop
  | [] => stop
  end.
End Greedy.

(** Match the pattern at the start of [s]: the captured groups, in order,
    and the input left after the match. *)
Fixpoint match_here (r : regex) (s : jsstring) : option (list jsstring * jsstring) :=
  match r with
  | [] => Some ([], s)
  | a :: r' =>
      greedy (in_class (cls a))
             (fun piece rest =>
                match match_here r' rest with
                | Some (caps, rest') =>
                    Some (if captures a then piece :: caps else caps, rest')
                | None => None
                end)
             (qmin a) (qmax a) [] s
  end.

(** Replacement templates: [$1]..[$9], [$$], [$&]; anything else stands
    for itself.  (With fewer than ten groups a two-digit reference is
    never taken; the templates of the source use [$1], [$2], [$3].) *)
Inductive titem : Type :=
| TChar (c : char)
| TGroup (n : nat)
| TMatch.

Definition dollar : char := 36%N.

Fixpoint parse_template (t : jsstring) : list titem :=
  match t with
  | [] => []
  | c :: t1 =>
      if char_eqb c dollar then
        match t1 with
        | d :: t2 =>
            if char_eqb d dollar then TChar dollar :: parse_template t2
            else if char_eqb d 38%N then TMatch :: parse_template t2
            else if (49 <=? d)%N && (d <=? 57)%N
                 then TGroup (N.to_nat (d - 48)) :: parse_template t2
                 else TChar c :: parse_template t1
        | [] => [TChar c]
        end
      else TChar c :: parse_template t1
  end.

Definition expand (tpl : list titem) (matched : jsstring)
           (caps : list jsstring) : jsstring :=
  flat_map (fun it =>
              match it with
              | TChar c => [c]
              | TMatch => matched
              | TGroup n =>
                  match nth_error caps (pred n) with
                  | Some g => g
                  | None => [dollar; (48 + N.of_nat n)%N]
                  end
              end) tpl.

(** [String.prototype.replace] with a global pattern: scan left to
    right; at a match emit the expanded template and resume after the
    match (after one more character when the match is empty).  [skip]
    counts the characters of the last match that are still to be
    passed over. *)
Fixpoint replace_from (r : regex) (tpl : list titem) (skip : nat)
         (s : jsstring) {struct s} : jsstring :=
  match skip, s with
  | S k, _ :: s' => replace_from r tpl k s'
  | S _, [] => []
  | O, _ =>
      match match_here r s with
      | Some (caps, rest) =>
          let n := List.length s - List.length rest in
          let out := expand tpl (firstn n s) caps in
          match s, n with
          | [], _ => out
          | c :: s', O => out ++ c :: replace_from r tpl 0 s'
          | _ :: s', S k => out ++ replace_from r tpl k s'
          end
      | None =>
          match s with
          | [] => []
          | c :: s' => c :: replace_from r tpl 0 s'
          end
      end
  end.

Definition replace (r : regex) (template : string) (s : jsstring) : jsstring :=
  replace_from r (parse_template (str template)) 0 s.

(** Syntax characters of a pattern: [^ $ \ . * + ? ( ) [ ] { } |]. *)
Definition syntax_characters : jsstring := str "^$\.*+?()[]{}|".

Definition is_syntax_character (c : char) : bool :=
  existsb (char_eqb c) syntax_characters.

(** [new RegExp(source, 'g')] for a source without syntax characters:
    every character matches itself.  A source with a syntax character is
    outside this fragment (it may also be rejected with a SyntaxError),
    and gives [None]. *)
Definition RegExp (source : jsstring) : option regex :=
  if existsb is_syntax_character source then None
  else Some (map (fun c => one (CLit c)) source).

End Regex.

Import Regex.

(** ** The text normalizer *)

Module Normalizer.

(** The [replacements] object of [cleanText], property by property in
    source order. *)
Definition replacements : list (string * string) :=
  [ (* Numbers *)
    ("o", "0"); ("O", "0");
    ("l", "1"); ("L", "1");
    ("s", "5"); ("S", "5");
    ("g", "6"); ("G", "6");
    ("t", "7"); ("T", "7");
    ("b", "8"); ("B", "8");
    ("q", "9"); ("Q", "9");
    ("z", "2"); ("Z", "2");
    (* Letters *)
    ("8ank", "Bank");
    ("8u5ine55", "Business");
    ("Acc0un7", "Account");
    ("5a7emen7", "Statement");
    ("R0ya1", "Royal");
    ("M0N7REA1", "Montreal");
    ("Ju1y", "July");
    ("Au6u57", "August");
    ("57W", "St W");
    ("0N", "ON");
    ("M5V", "MSV");
    ("P1ea5e", "Please");
    ("c0n7ac7", "contact");
    ("8ankin6", "Banking");
    ("repre5en7a7ive", "representative");
    ("ca11", "call");
    ("Acc0un75ummary", "Account Summary");
    ("E55en7ia15", "Essentials");
    ("Varia81e", "Variable");
    ("Pricin6", "Pricing");
    ("PER7H", "Perth");
    ("0penin6", "Opening");
    ("dep05i75", "deposits");
    ("credi75", "credits");
    ("che9ue5", "cheques");
    ("de8i75", "debits");
    ("C105in6", "Closing");
    ("Ac7ivi7y", "Activity");
    ("De7ai15", "Details");
    ("De5crip7i0n", "Description");
    ("Che9ue", "Cheque");
    ("De8i7", "Debit");
    ("Dep05i7", "Deposit");
    ("Credi7", "Credit");
    ("8a1ance", "Balance");
    ("Mi5c", "Misc");
    ("Paymen7", "Payment");
    ("FEE5", "FEE");
    ("In5urance", "Insurance");
    ("5UN", "SUN");
    ("1IFE", "LIFE");
    ("RE6U1AR", "REGULAR");
    ("C0MMERCIA1", "COMMERCIAL");
    ("IN5", "INS");
    ("FEDERA7ED", "FEDERATED");
    ("IN5UR", "INSUR") ].

(** [Object.entries] lists string keys in insertion order, except that
    keys that are array indices (canonical decimal numerals) come first
    and that a repeated key keeps its first position.  Neither happens in
    [replacements] (see [replacements_in_source_order]), so the entries
    are the table as written. *)
Definition is_array_index_key (k : string) : bool :=
  match str k with
  | [] => false
  | [c] => is_digit c
  | c :: rest => is_digit c && negb (char_eqb c 48%N) && forallb is_digit rest
  end.

Fixpoint has_key (k : string) (kvs : list (string * string)) : bool :=
  match kvs with
  | [] => false
  | (k', _) :: kvs' => String.eqb k k' || has_key k kvs'
  end.

Fixpoint distinct_keys (kvs : list (string * string)) : bool :=
  match kvs with
  | [] => true
  | (k, _) :: kvs' => negb (has_key k kvs') && distinct_keys kvs'
  end.

Definition Object_entries (o : list (string * string)) : list (string * string) := o.

(** A thrown exception. *)
Inductive exn : Type :=
| SyntaxError (source : jsstring).

Definition result (A : Type) : Type := (exn + A)%type.

Definition bind {A B : Type} (m : result A) (f : A -> result B) : result B :=
  match m with
  | inl e => inl e
  | inr a => f a
  end.

(** One turn of the [forEach] loop:
    [text = text.replace(new RegExp(wrong, 'g'), correct)]. *)
Definition apply_replacement (text : jsstring) (entry : string * string)
  : result jsstring :=
  let (wrong, correct) := entry in
  match RegExp (str wrong) with
  | Some re => inr (replace re correct text)
  | None => inl (SyntaxError (str wrong))
  end.

Fixpoint apply_replacements (entries : list (string * string))
         (text : jsstring) : result jsstring :=
  match entries with
  | [] => inr text
  | e :: entries' =>
      bind (apply_replacement text e) (apply_replacements entries')
  end.

Definition comma : charclass := CLit 44%N.
Definition hyphen : charclass := CLit 45%N.
(** [[.,]] *)
Definition dot_or_comma : charclass := CSet [46%N; 44%N].

(** [/(\d)\s+(\d)/g] *)
Definition re_digit_digit : regex :=
  [cap (one CDigit); plus CSpace; cap (one CDigit)].
(** [/([.,])\s+(\d)/g] *)
Definition re_point_digit : regex :=
  [cap (one dot_or_comma); plus CSpace; cap (one CDigit)].
(** [/([A-Za-z])\s+(\d)/g] *)
Definition re_letter_digit : regex :=
  [cap (one CAlpha); plus CSpace; cap (one CDigit)].
(** [/(\d)\s+([A-Za-z])/g] *)
Definition re_digit_letter : regex :=
  [cap (one CDigit); plus CSpace; cap (one CAlpha)].
(** [/(\d{1,2})\s+([A-Za-z]+),\s+(\d{4})/g] *)
Definition re_day_month_year : regex :=
  [cap (between 1 2 CDigit); plus CSpace; cap (plus CAlpha); one comma;
   plus CSpace; cap (exactly 4 CDigit)].
(** [/([A-Za-z]+)\s+(\d{1,2}),\s+(\d{4})/g] *)
Definition re_month_day_year : regex :=
  [cap (plus CAlpha); plus CSpace; cap (between 1 2 CDigit); one comma;
   plus CSpace; cap (exactly 4 CDigit)].
(** [/(\d{4})\s*-\s*(\d{3})\s*-\s*(\d{3})/g] *)
Definition re_account_433 : regex :=
  [cap (exactly 4 CDigit); star CSpace; one hyphen; star CSpace;
   cap (exactly 3 CDigit); star CSpace; one hyphen; star CSpace;
   cap (exactly 3 CDigit)].
(** [/(\d{3})\s*-\s*(\d{4})\s*-\s*(\d{4})/g] *)
Definition re_account_344 : regex :=
  [cap (exactly 3 CDigit); star CSpace; one hyphen; star CSpace;
   cap (exactly 4 CDigit); star CSpace; one hyphen; star CSpace;
   cap (exactly 4 CDigit)].

(** Fix spacing around numbers and currency. *)
Definition fix_spacing (text : jsstring) : jsstring :=
  replace re_digit_letter "$1$2"
    (replace re_letter_digit "$1$2"
       (replace re_point_digit "$1$2"
          (replace re_digit_digit "$1$2" text))).

(** Fix date formats. *)
Definition fix_dates (text : jsstring) : jsstring :=
  replace re_month_day_year "$1 $2, $3"
    (replace re_day_month_year "$1 $2, $3" text).

(** Fix account numbers. *)
Definition fix_account_numbers (text : jsstring) : jsstring :=
  replace re_account_344 "$1-$2-$3"
    (replace re_account_433 "$1-$2-$3" text).

Definition cleanText (text : jsstring) : result jsstring :=
  bind (apply_replacements (Object_entries replacements) text)
       (fun text =>
          inr (fix_account_numbers (fix_dates (fix_spacing text)))).

End Normalizer.

Import Normalizer.

(** ** Dates

    The part of ECMAScript's [Date] that the validator relies on: time
    values, [toISOString], and [Date.parse] on the date-only ISO form. *)

Module Dates.

Local Open Scope Z_scope.

(** The time value of a [Date] object, in milliseconds since the epoch;
    [None] is the time value NaN of an invalid date. *)
Definition Date := option Z.

(** [isNaN(date.getTime())] *)
Definition is_invalid (d : Date) : bool :=
  match d with
  | None => true
  | Some _ => false
  end.

Definition msPerDay : Z := 86400000.

Definition Day (t : Z) : Z := t / msPerDay.
Definition TimeWithinDay (t : Z) : Z := t mod msPerDay.

(** Year, month (1..12) and day of the month of a day number in the
    proleptic Gregorian calendar (YearFromTime, MonthFromTime and
    DateFromTime), by eras of 400 years that start on 1 March. *)
Definition civil_from_days (z : Z) : Z * Z * Z :=
  let z := z + 719468 in
  let era := z / 146097 in
  let doe := z - era * 146097 in
  let yoe := (doe - doe / 1460 + doe / 36524 - doe / 146096) / 365 in
  let doy := doe - (365 * yoe + yoe / 4 - yoe / 100) in
  let mp := (5 * doy + 2) / 153 in
  let d := doy - (153 * mp + 2) / 5 + 1 in
  let m := if mp <? 10 then mp + 3 else mp - 9 in
  let y := yoe + era * 400 in
  (if m <=? 2 then y + 1 else y, m, d).

(** The day number of a calendar date (MakeDay). *)
Definition days_from_civil (y m d : Z) : Z :=
  let y := if m <=? 2 then y - 1 else y in
  let era := y / 400 in
  let yoe := y - era * 400 in
  let mp := if 2 <? m then m - 3 else m + 9 in
  let doy := (153 * mp + 2) / 5 + d - 1 in
  let doe := yoe * 365 + yoe / 4 - yoe / 100 + doy in
  era * 146097 + doe - 719468.

Definition is_leap_year (y : Z) : bool :=
  (y mod 4 =? 0) && (negb (y mod 100 =? 0) || (y mod 400 =? 0)).

Definition days_in_month (y m : Z) : Z :=
  if m =? 2 then (if is_leap_year y then 29 else 28)
  else if (m =? 4) || (m =? 6) || (m =? 9) || (m =? 11) then 30
  else 31.

Definition digit_char (k : Z) : char := (48 + Z.to_N k)%N.

(** [k] in decimal, padded with zeros to [n] digits. *)
Fixpoint digits (n : nat) (k : Z) : jsstring :=
  match n with
  | O => []
  | S n' => digits n' (k / 10) ++ [digit_char (k mod 10)]
  end.

(** The year of an ISO string: four digits, or a sign and six digits
    outside 0..9999. *)
Definition year_string (y : Z) : jsstring :=
  if (0 <=? y) && (y <=? 9999) then digits 4 y
  else (if y <? 0 then str "-" else str "+") ++ digits 6 (Z.abs y).

(** [Date.prototype.toISOString] of a valid date:
    [YYYY-MM-DDTHH:mm:ss.sssZ]. *)
Definition toISOString (t : Z) : jsstring :=
  let '(y, m, d) := civil_from_days (Day t) in
  let ms := TimeWithinDay t in
  year_string y ++ str "-" ++ digits 2 m ++ str "-" ++ digits 2 d ++ str "T"
       ++ digits 2 (ms / 3600000) ++ str ":"
       ++ digits 2 ((ms / 60000) mod 60) ++ str ":"
       ++ digits 2 ((ms / 1000) mod 60) ++ str "."
       ++ digits 3 (ms mod 1000) ++ str "Z".

(** [s.split(sep)[0]] for a one-character separator: the part of [s]
    before the first separator. *)
Fixpoint split_first (sep : char) (s : jsstring) : jsstring :=
  match s with
  | [] => []
  | c :: s' => if char_eqb c sep then [] else c :: split_first sep s'
  end.

(** [new Date().toISOString().split('T')[0]] for the clock reading [now]. *)
Definition today_string (now : Z) : jsstring :=
  split_first 84%N (toISOString now).

Definition digit_value (c : char) : option Z :=
  if is_digit c then Some (Z.of_N c - 48) else None.

Fixpoint number_of_digits (acc : Z) (s : jsstring) : option Z :=
  match s with
  | [] => Some acc
  | c :: s' =>
      match digit_value c with
      | Some v => number_of_digits (10 * acc + v) s'
      | None => None
      end
  end.

(** TimeClip *)
Definition TimeClip (t : Z) : Date :=
  if Z.abs t <=? 8640000000000000 then Some t else None.

Definition make_date (y m d : Z) : Date :=
  if (1 <=? m) && (m <=? 12) && (1 <=? d) && (d <=? days_in_month y m)
  then TimeClip (msPerDay * days_from_civil y m d)
  else None.

(** The date-only form [YYYY-MM-DD] (or [+YYYYYY-MM-DD], [-YYYYYY-MM-DD])
    of the Date Time String Format, read as UTC midnight.  [None] when
    the string is not a legal instance of that form. *)
Definition parse_date_only (s : jsstring) : Date :=
  let fields (sign : Z) (ys ms ds : jsstring) :=
    match number_of_digits 0 ys, number_of_digits 0 ms, number_of_digits 0 ds with
    | Some y, Some m, Some d =>
        if (sign =? -1) && (y =? 0) then None else make_date (sign * y) m d
    | _, _, _ => None
    end in
  match s with
  | [y1; y2; y3; y4; h1; m1; m2; h2; d1; d2] =>
      if char_eqb h1 45%N && char_eqb h2 45%N
      then fields 1 [y1; y2; y3; y4] [m1; m2] [d1; d2]
      else None
  | [sg; y1; y2; y3; y4; y5; y6; h1; m1; m2; h2; d1; d2] =>
      if char_eqb h1 45%N && char_eqb h2 45%N then
        if char_eqb sg 43%N then fields 1 [y1; y2; y3; y4; y5; y6] [m1; m2] [d1; d2]
        else if char_eqb sg 45%N then fields (-1) [y1; y2; y3; y4; y5; y6] [m1; m2] [d1; d2]
        else None
      else None
  | _ => None
  end.

End Dates.

Import Dates.

(** ** The transaction validator

    [analysis.transactions.filter(...).map(...)] of [handler], followed
    by the fallback for an empty result.  The candidates are JavaScript
    objects: the array holds references, and the [filter] callback
    assigns to the objects' properties, so the heap is explicit.  The
    callbacks can throw: on an element that is [null] or [undefined],
    and where they convert to a string or a number an object that has
    no such conversion. *)

Module Validator.

(** A JavaScript value, as far as the validator looks into it.  An
    object is one that converts to a primitive ([VObject]) or one that
    does not ([VInconvertible]), such as [{"toString": null}]: its
    [toString] is not callable and its [valueOf] returns the object, so
    that converting it to a string or a number throws a [TypeError]. *)
Inductive value : Type :=
| VUndefined
| VNull
| VBool (b : bool)
| VNumber (x : float)
| VString (s : jsstring)
| VObject (id : nat)
| VInconvertible (id : nat).

(** [typeof v === 'number'] *)
Definition typeof_number (v : value) : bool :=
  match v with
  | VNumber _ => true
  | _ => false
  end.

(** [typeof v === 'string'] *)
Definition typeof_string (v : value) : bool :=
  match v with
  | VString _ => true
  | _ => false
  end.

(** ToBoolean *)
Definition truthy (v : value) : bool :=
  match v with
  | VUndefined | VNull => false
  | VBool b => b
  | VNumber x => negb (PrimFloat.is_zero x || PrimFloat.is_nan x)
  | VString s => match s with [] => false | _ => true end
  | VObject _ | VInconvertible _ => true
  end.

(** [v === 'literal'] *)
Definition is_literal (v : value) (literal : string) : bool :=
  match v with
  | VString s => jsstring_eqb s (str literal)
  | _ => false
  end.

(** The outcome of an expression that can throw. *)
Inductive completion (A : Type) : Type :=
| Returns (a : A)
| Throws.
Arguments Throws {A}.

(** What the model leaves to the JavaScript engine. *)
Record host : Type := Host {
  (** the successive readings of the system clock by [new Date()] *)
  clock : nat -> Z;
  (** [Date.parse] on a string that is not a legal date-only ISO string
      (other ISO forms, and the engine's own formats) *)
  Date_parse_other : jsstring -> Date;
  (** [new Date(v)] for a number or an object that converts *)
  Date_of_other : value -> completion Date;
  (** [parseFloat(v)], where [v] converts to a string *)
  parseFloat : value -> float;
  (** [String(v)] for a number or an object that converts *)
  String_of_other : value -> jsstring
}.

(** A candidate transaction, as the analysis returns it; an absent
    property reads as [VUndefined]. *)
Module Candidate.
Record t : Type := Make {
  date : value;
  description : value;
  amount : value;
  type : value;
  category : value
}.
Definition set_type (v : value) (tx : t) : t :=
  Make (date tx) (description tx) (amount tx) v (category tx).
Definition set_date (v : value) (tx : t) : t :=
  Make v (description tx) (amount tx) (type tx) (category tx).
Definition set_description (v : value) (tx : t) : t :=
  Make (date tx) v (amount tx) (type tx) (category tx).
End Candidate.

(** A transaction ready for [prisma.document.create]. *)
Module Transaction.
Record t : Type := Make {
  date : Date;
  description : jsstring;
  amount : float;
  type : jsstring;
  categoryId : jsstring;
  userId : jsstring
}.
End Transaction.

Definition ref := nat.
Definition heap := ref -> Candidate.t.

Definition update (h : heap) (r : ref) (tx : Candidate.t) : heap :=
  fun r' => if Nat.eqb r' r then tx else h r'.

(** The lines written by [console.warn]; the text interpolated for
    [tx.description] is kept as the value it is the string of. *)
Inductive warning : Type :=
| SkippingInvalidAmount (description : value)
| FixingInvalidType (description : value)
| FixingInvalidDate (description : value)
| FixingInvalidDateFormat (description : value)
| FixingMissingDescription
| UsingTodaysDate (description : value)
| UsingTodaysDateDueToError
| NoValidTransactions.

Record state : Type := State {
  objects : heap;
  (** how many times the clock has been read *)
  ticks : nat;
  (** the warnings so far, latest first *)
  console : list warning
}.

Definition warn (w : warning) (st : state) : state :=
  State (objects st) (ticks st) (w :: console st).

Definition assign (r : ref) (f : Candidate.t -> Candidate.t) (st : state) : state :=
  State (update (objects st) r (f (objects st r))) (ticks st) (console st).

(** A computation of the callbacks: it returns or throws, and leaves a
    state. *)
Definition action (A : Type) : Type := state -> completion A * state.

Definition finish (A : Type) (a : A) : action A :=
  fun st => (Returns a, st).

Definition outcome (A : Type) (c : completion A) : action A :=
  fun st => (c, st).

Definition effect (f : state -> state) : action unit :=
  fun st => (Returns tt, f st).

Definition next (A B : Type) (m : action A) (k : A -> action B) : action B :=
  fun st =>
    match m st with
    | (Returns a, st') => k a st'
    | (Throws, st') => (Throws, st')
    end.

(** [try { m } catch (e) { h }] *)
Definition attempt (A : Type) (m h : action A) : action A :=
  fun st =>
    match m st with
    | (Returns a, st') => (Returns a, st')
    | (Throws, st') => h st'
    end.

(** The template literal [`${v}`]: the string of [v], kept as [v]; it
    throws where [v] has no conversion. *)
Definition interpolate (v : value) : completion value :=
  match v with
  | VInconvertible _ => Throws
  | _ => Returns v
  end.

(** The object an array element refers to. *)
Definition ref_of (tx : value) : option ref :=
  match tx with
  | VObject r | VInconvertible r => Some r
  | _ => None
  end.

(** The properties of a primitive: all [undefined]. *)
Definition no_properties : Candidate.t :=
  Candidate.Make VUndefined VUndefined VUndefined VUndefined VUndefined.

(** [tx.field], for an array element [tx]: reading a property of [null]
    or [undefined] throws. *)
Definition get (tx : value) (field : Candidate.t -> value) : action value :=
  fun st =>
    match tx with
    | VUndefined | VNull => (Throws, st)
    | VObject r | VInconvertible r => (Returns (field (objects st r)), st)
    | VBool _ | VNumber _ | VString _ => (Returns (field no_properties), st)
    end.

(** [tx.field = v]: on an object it assigns; on anything else it throws
    (the module is in strict mode). *)
Definition put (tx : value) (f : Candidate.t -> Candidate.t) : action unit :=
  fun st =>
    match ref_of tx with
    | Some r => (Returns tt, assign r f st)
    | None => (Throws, st)
    end.

(** [console.warn(`... ${v}`)] *)
Definition warn_about (w : value -> warning) (v : value) : action unit :=
  fun st =>
    match interpolate v with
    | Returns text => (Returns tt, warn (w text) st)
    | Throws => (Throws, st)
    end.

Section WithHost.
Variable E : host.

Local Notation "x <- m ;; k" := (next m (fun x => k))
  (at level 61, m at next level, right associativity).
Local Notation "m ;;; k" := (next m (fun _ => k))
  (at level 61, right associativity).

(** [new Date()] *)
Definition now (st : state) : Z * state :=
  (clock E (ticks st), State (objects st) (S (ticks st)) (console st)).

Definition read_clock : action Z :=
  fun st => let (t, st) := now st in (Returns t, st).

(** [Date.parse(s)] *)
Definition Date_parse (s : jsstring) : Date :=
  match parse_date_only s with
  | Some t => Some t
  | None => Date_parse_other E s
  end.

(** [new Date(v)] *)
Definition new_Date (v : value) : completion Date :=
  match v with
  | VString s => Returns (Date_parse s)
  | VUndefined => Returns None
  | VNull => Returns (Some 0%Z)
  | VBool b => Returns (Some (if b then 1%Z else 0%Z))
  | VNumber _ | VObject _ => Date_of_other E v
  | VInconvertible _ => Throws
  end.

(** [String(v)] *)
Definition String_ (v : value) : completion jsstring :=
  match v with
  | VString s => Returns s
  | VUndefined => Returns (str "undefined")
  | VNull => Returns (str "null")
  | VBool b => Returns (if b then str "true" else str "false")
  | VNumber _ | VObject _ => Returns (String_of_other E v)
  | VInconvertible _ => Throws
  end.

(** [typeof v === 'number' ? v : parseFloat(v)] *)
Definition number_of (v : value) : completion float :=
  match v with
  | VNumber x => Returns x
  | VInconvertible _ => Throws
  | _ => Returns (parseFloat E v)
  end.

(** [typeof tx.amount !== 'number' || isNaN(tx.amount)]; the second test
    is reached for numbers only. *)
Definition invalid_amount (v : value) : bool :=
  negb (typeof_number v)
  || match v with
     | VNumber x => PrimFloat.is_nan x
     | _ => true
     end.

(** [tx.date = new Date().toISOString().split('T')[0]] *)
Definition use_todays_date (tx : value) : action unit :=
  t <- read_clock ;;
  put tx (Candidate.set_date (VString (today_string t))).

(** The callback of [filter]. *)
Definition filter_callback (tx : value) : action bool :=
  amount <- get tx Candidate.amount ;;
  (* Filter out transactions with invalid amounts *)
  if invalid_amount amount then
    description <- get tx Candidate.description ;;
    warn_about SkippingInvalidAmount description ;;;
    finish false
  else
    (* Validate transaction type *)
    type <- get tx Candidate.type ;;
    (if negb (is_literal type "INCOME") && negb (is_literal type "EXPENSE")
     then
       description <- get tx Candidate.description ;;
       warn_about FixingInvalidType description ;;;
       put tx (Candidate.set_type (VString (str "EXPENSE")))
     else finish tt) ;;;
    (* Validate date *)
    attempt
      (date <- get tx Candidate.date ;;
       d <- outcome (new_Date date) ;;
       if is_invalid d
       then
         description <- get tx Candidate.description ;;
         warn_about FixingInvalidDate description ;;;
         use_todays_date tx
       else finish tt)
      (description <- get tx Candidate.description ;;
       warn_about FixingInvalidDateFormat description ;;;
       use_todays_date tx) ;;;
    (* Validate description *)
    description <- get tx Candidate.description ;;
    (if negb (truthy description) || negb (typeof_string description)
     then
       effect (warn FixingMissingDescription) ;;;
       put tx (Candidate.set_description (VString (str "Unnamed transaction")))
     else finish tt) ;;;
    finish true.

(** [Array.prototype.filter]: the elements for which the callback
    returns true, the callback being run on each element in turn; a
    throw of the callback ends it. *)
Fixpoint filter (txs : list value) : action (list value) :=
  match txs with
  | [] => finish []
  | tx :: txs' =>
      keep <- filter_callback tx ;;
      kept <- filter txs' ;;
      finish (if keep then tx :: kept else kept)
  end.

Section WithDefaults.
(** [defaultCategory.id] and [defaultUser.id] *)
Variables defaultCategory_id defaultUser_id : jsstring.

(** The callback of [map]. *)
Definition map_callback (tx : value) : action Transaction.t :=
  (* Ensure the date is properly formatted *)
  date <- attempt
            (date <- get tx Candidate.date ;;
             d <- outcome (new_Date date) ;;
             if is_invalid d
             then
               description <- get tx Candidate.description ;;
               warn_about UsingTodaysDate description ;;;
               t <- read_clock ;;
               finish (Some t)
             else finish d)
            (effect (warn UsingTodaysDateDueToError) ;;;
             t <- read_clock ;;
             finish (Some t)) ;;
  (* Ensure amount is a valid number *)
  amount <- get tx Candidate.amount ;;
  amount <- outcome (number_of amount) ;;
  description <- get tx Candidate.description ;;
  description <- outcome (String_ description) ;;
  type <- get tx Candidate.type ;;
  finish (Transaction.Make
            date
            (substring0 255 description)
            (if PrimFloat.is_nan amount then 0%float else amount)
            (if is_literal type "INCOME" then str "INCOME" else str "EXPENSE")
            defaultCategory_id
            defaultUser_id).

(** [Array.prototype.map] *)
Fixpoint map (txs : list value) : action (list Transaction.t) :=
  match txs with
  | [] => finish []
  | tx :: txs' =>
      t <- map_callback tx ;;
      ts <- map txs' ;;
      finish (t :: ts)
  end.

(** The transaction pushed when nothing is left. *)
Definition default_transaction (t : Z) : Transaction.t :=
  Transaction.Make
    (Some t)
    (str "Default transaction (no valid transactions detected)")
    100%float
    (str "EXPENSE")
    defaultCategory_id
    defaultUser_id.

(** The value of [validTransactions] when [prisma.document.create] is
    reached, from the array [analysis.transactions]; or the throw that
    takes the handler to the [catch] before that. *)
Definition validTransactions (transactions : list value)
  : action (list Transaction.t) :=
  kept <- filter transactions ;;
  valid <- map kept ;;
  match valid with
  | [] =>
      (* Ensure we have at least one transaction *)
      effect (warn NoValidTransactions) ;;;
      t <- read_clock ;;
      finish [default_transaction t]
  | _ :: _ => finish valid
  end.

End WithDefaults.
End WithHost.

(** The number of candidates the validator has skipped: one
    "Skipping transaction with invalid amount" warning each. *)
Definition rejectedCount (st : state) : nat :=
  List.length (List.filter (fun w => match w with
                                     | SkippingInvalidAmount _ => true
                                     | _ => false
                                     end) (console st)).

End Validator.

Import Validator.

(** ** Saving the document

    The last block of [handler]: validate the transactions, create the
    document with its transactions, fall back to the document alone, and
    answer.  The database is the caller's: its two operations are
    parameters, and each may fail.  The validation runs inside the
    [try]: when it throws, the [catch] creates the document alone. *)

Module Orchestrator.

Record Error : Type := { message : jsstring }.

(** The [data] of [prisma.document.create], without the relation. *)
Record DocumentData : Type := {
  fileName : jsstring;
  fileType : jsstring;
  fileSize : N;
  status : jsstring;
  userId : jsstring
}.

(** Rows as the database returns them, with the identities it assigns. *)
Record DocumentRow : Type := { id : jsstring; stored : DocumentData }.
Record TransactionRow : Type := { row_id : jsstring; row : Transaction.t }.

(** The object bound to [document]: it has a [transactions] property
    only when the call asked for it with [include]. *)
Record document : Type := {
  fields : DocumentRow;
  transactions : option (list TransactionRow)
}.

(** The persistence store, with its own state [S]. *)
Record persistence (S : Type) : Type := {
  (** [create({ data: { ..., transactions: { create } }, include: { transactions: true } })] *)
  create_with_transactions :
    DocumentData -> list Transaction.t -> S ->
    (Error + DocumentRow * list TransactionRow) * S;
  (** [create({ data })] *)
  create_document :
    DocumentData -> S -> (Error + DocumentRow) * S
}.

(** The calls made to the store. *)
Inductive call : Type :=
| CreateWithTransactions (data : DocumentData) (txs : list Transaction.t)
| CreateDocument (data : DocumentData).

Inductive body : Type :=
| Saved (doc : document) (summary : value) (txs : list TransactionRow)
| Failed (error : jsstring) (details : jsstring).

(** [res.status(code).json(body)] *)
Record response : Type := { code : nat; json : body }.

Section Handler.
Variable E : host.
Variable S : Type.
Variable P : persistence S.

(** What the earlier steps of the handler have produced. *)
Variables validated_fileName file_mimetype : jsstring.
Variable file_size : N.
Variables defaultUser_id defaultCategory_id : jsstring.
Variable summary : value.

Definition document_data : DocumentData :=
  {| fileName := validated_fileName;
     fileType := file_mimetype;
     fileSize := file_size;
     status := str "COMPLETED";
     userId := defaultUser_id |}.

(** The [catch] of the [try] around the validation and
    [prisma.document.create]: the document is created without
    transactions, after the calls [made] so far. *)
Definition save_document_only (made : list call) (st : state) (db : S)
  : (Error + document) * list call * state * S :=
  match create_document P document_data db with
  | (inr d, db) =>
      (inr {| fields := d; transactions := None |},
       made ++ [CreateDocument document_data], st, db)
  | (inl _, db) =>
      (inl {| message := str "Failed to save document and transactions to database" |},
       made ++ [CreateDocument document_data], st, db)
  end.

(** The [try]/[catch] around the validation and
    [prisma.document.create]: the outcome, the calls made to the store
    in order, and the states left behind. *)
Definition save (transactions : list value) (st : state) (db : S)
  : (Error + document) * list call * state * S :=
  match validTransactions E defaultCategory_id defaultUser_id transactions st with
  | (Returns valid, st) =>
      match create_with_transactions P document_data valid db with
      | (inr (d, rows), db) =>
          (inr {| fields := d; transactions := Some rows |},
           [CreateWithTransactions document_data valid], st, db)
      | (inl _, db) =>
          (* Try to create document without transactions *)
          save_document_only [CreateWithTransactions document_data valid] st db
      end
  | (Throws, st) =>
      save_document_only [] st db
  end.

(** [document?.transactions || []] *)
Definition transactions_or_empty (doc : document) : list TransactionRow :=
  match transactions doc with
  | Some rows => rows
  | None => []
  end.

(** The answer: 200 with the document, or, from the outer [catch], 500
    with the error's message (the [stack] property, set in development
    only, is left out). *)
Definition respond (outcome : Error + document) : response :=
  match outcome with
  | inr doc =>
      {| code := 200;
         json := Saved doc summary (transactions_or_empty doc) |}
  | inl e =>
      {| code := 500;
         json := Failed (str "Failed to process document") (message e) |}
  end.

Definition handler_save (transactions : list value) (st : state) (db : S)
  : response * list call * state * S :=
  let '(outcome, calls, st, db) := save transactions st db in
  (respond outcome, calls, st, db).

End Handler.
End Orchestrator.

Import Orchestrator.

(** ** The upload pipeline

    [extractTextFromFile] and [handler] as a whole.  The services the
    handler awaits (the form parser, the file system, the OCR worker,
    the analysis, the database) are the caller's: each is a function on
    the caller's world [W] that returns or throws.  The model records
    the calls made to them, latest first. *)

Module Upload.

(** [{ path: err.path.join('.'), message: err.message }] *)
Record issue : Type := Issue { path : jsstring; issue_message : jsstring }.

(** What a [catch] clause may receive. *)
Inductive exception : Type :=
| ZodError (issues : list issue)
| JsError (message : jsstring)
| Thrown.

(** A file as formidable describes it. *)
Record File : Type := {
  originalFilename : option jsstring;
  mimetype : option jsstring;
  size : N;
  filepath : jsstring;
  newFilename : jsstring
}.

(** [{ fields, files }]: the properties the handler reads; an absent
    property is [None]. *)
Record Form : Type := {
  fields_fileName : option (list jsstring);
  fields_documentType : option (list jsstring);
  files_file : option (list File)
}.

(** The result of [uploadSchema.parse]. *)
Record Validated : Type := {
  validated_file : File;
  validated_fileName : jsstring;
  validated_documentType : jsstring
}.

(** The result of [analyzeFinancialDocument]: the summary, the array of
    candidates, and the objects of that array. *)
Record Analysis : Type := {
  analysis_summary : value;
  analysis_transactions : list value;
  analysis_objects : heap
}.

Record User : Type := { user_id : jsstring }.
Record Category : Type := { category_id : jsstring }.

Definition worker := nat.
Definition Buffer := list N.

Inductive event : Type :=
| FormParse
| Mkdir (dir : jsstring)
| ReadStream (path : jsstring)
| WriteFile (path : jsstring) (data : Buffer)
| CreateWorker
| Reinitialize (w : worker)
| SetParameters (w : worker)
| Recognize (w : worker) (path : jsstring)
| WarnLowConfidence (confidence : float)
| Terminate (w : worker)
| WarnPdf
| Analyze (text : jsstring)
| UserFindFirst
| UserCreate
| CategoryFindFirst (userId : jsstring)
| CategoryCreate (userId : jsstring)
| Store (c : call).

(** The bodies of the answers. *)
Inductive json_body : Type :=
| ErrorBody (error : jsstring)
| InvalidBody (error : jsstring) (details : list issue)
| Body (b : body).

(** [res.status(status).json(body)] *)
Record answer : Type := { status : nat; body_of : json_body }.

(** What the model leaves to Node, zod and the engine. *)
Record runtime : Type := Runtime {
  (** [process.cwd()] and [path.join] *)
  cwd : jsstring;
  join : jsstring -> jsstring -> jsstring;
  (** the messages of zod's issues and of its error *)
  expected_string : jsstring;
  invalid_enum_value : jsstring -> jsstring;
  zod_error_message : list issue -> jsstring;
  (** the messages of the engine's [SyntaxError] and [TypeError] *)
  syntax_error_message : jsstring -> jsstring;
  type_error_message : jsstring
}.

Section WithServices.
Variable W : Type.

Record services : Type := {
  (** [form.parse(req, ...)], as the promise around it settles *)
  form_parse : W -> (exception + Form) * W;
  mkdir : jsstring -> W -> (exception + unit) * W;
  (** [createReadStream(path)], read to its end *)
  read_stream : jsstring -> W -> (exception + Buffer) * W;
  writeFile : jsstring -> Buffer -> W -> (exception + unit) * W;
  createWorker : W -> (exception + worker) * W;
  reinitialize : worker -> W -> (exception + unit) * W;
  setParameters : worker -> W -> (exception + unit) * W;
  (** [worker.recognize(path)]: the text and the confidence *)
  recognize : worker -> jsstring -> W -> (exception + jsstring * float) * W;
  terminate : worker -> W -> (exception + unit) * W;
  analyzeFinancialDocument : jsstring -> W -> (exception + Analysis) * W;
  user_findFirst : W -> (exception + option User) * W;
  user_create : W -> (exception + User) * W;
  category_findFirst : jsstring -> W -> (exception + option Category) * W;
  category_create : jsstring -> W -> (exception + Category) * W;
  documents : persistence W
}.

(** The caller's world, the calls made so far, and the objects, the
    clock and the console of the validator. *)
Record world : Type := World {
  outside : W;
  trace : list event;
  js : state
}.

(** A computation that returns or throws. *)
Definition M (A : Type) : Type := world -> (exception + A) * world.

Definition ret {A : Type} (a : A) : M A := fun w => (inr a, w).

Definition throw {A : Type} (e : exception) : M A := fun w => (inl e, w).

Definition bind {A B : Type} (m : M A) (f : A -> M B) : M B :=
  fun w =>
    match m w with
    | (inr a, w') => f a w'
    | (inl e, w') => (inl e, w')
    end.

(** [try { m } catch (error) { h(error) }] *)
Definition try_catch {A : Type} (m : M A) (h : exception -> M A) : M A :=
  fun w =>
    match m w with
    | (inl e, w') => h e w'
    | (inr a, w') => (inr a, w')
    end.

(** [try { m } finally { f }] *)
Definition finally {A : Type} (m : M A) (f : M unit) : M A :=
  fun w =>
    let (r, w') := m w in
    match f w' with
    | (inl e, w'') => (inl e, w'')
    | (inr _, w'') => (r, w'')
    end.

(** [await service(...)] *)
Definition call {A : Type} (ev : event) (service : W -> (exception + A) * W)
  : M A :=
  fun w =>
    let (r, o) := service (outside w) in
    (r, World o (ev :: trace w) (js w)).

(** [console.warn] of the extraction. *)
Definition note (ev : event) : M unit :=
  fun w => (inr tt, World (outside w) (ev :: trace w) (js w)).

Local Notation "x <- m ;; k" := (bind m (fun x => k))
  (at level 61, m at next level, right associativity).
Local Notation "m ;;; k" := (bind m (fun _ => k))
  (at level 61, right associativity).

Variable V : services.
Variable E : host.

Variable R : runtime.

(** [error.message], for an instance of [Error]. *)
Definition error_message (e : exception) : option jsstring :=
  match e with
  | ZodError issues => Some (zod_error_message R issues)
  | JsError m => Some m
  | Thrown => None
  end.

(** [error instanceof Error ? error.message : 'Unknown error'] *)
Definition message_or_unknown (e : exception) : jsstring :=
  match error_message e with
  | Some m => m
  | None => str "Unknown error"
  end.

(** [try { m } catch (error) { throw new Error(message) }] *)
Definition stage {A : Type} (message : string) (m : M A) : M A :=
  try_catch m (fun _ => throw (JsError (str message))).

(** [try { m } catch (error) { throw new Error(prefix + message) }] *)
Definition stage_with_message {A : Type} (prefix : string) (m : M A) : M A :=
  try_catch m (fun e => throw (JsError (str prefix ++ message_or_unknown e))).

(** [extractTextFromFile(filePath, mimeType)] *)
Definition extractTextFromFile (filePath : jsstring) (mimeType : option jsstring)
  : M jsstring :=
  match mimeType with
  | None => throw (JsError (type_error_message R))
  | Some mimeType =>
      if starts_with (str "image/") mimeType then
        worker <- call CreateWorker (createWorker V) ;;
        finally
          (try_catch
             (call (Reinitialize worker) (reinitialize V worker) ;;;
              call (SetParameters worker) (setParameters V worker) ;;;
              r <- call (Recognize worker filePath) (recognize V worker filePath) ;;
              (if PrimFloat.ltb (snd r) 50%float
               then note (WarnLowConfidence (snd r))
               else ret tt) ;;;
              match cleanText (fst r) with
              | inr text => ret text
              | inl (SyntaxError source) =>
                  throw (JsError (syntax_error_message R source))
              end)
             (fun error =>
                throw (JsError (str "Failed to extract text from image: "
                                ++ message_or_unknown error))))
          (call (Terminate worker) (terminate V worker))
      else if jsstring_eqb mimeType (str "application/pdf") then
        note WarnPdf ;;; ret []
      else
        throw (JsError (str "Unsupported file type"))
  end.

(** [a?.[0]] *)
Definition first_of (a : option (list jsstring)) : option jsstring :=
  match a with
  | Some (x :: _) => Some x
  | _ => None
  end.

(** [fields.fileName?.[0] || file.originalFilename] *)
Definition fileName_input (form : Form) (file : File) : option jsstring :=
  match first_of (fields_fileName form) with
  | Some (c :: s) => Some (c :: s)
  | _ => originalFilename file
  end.

(** [fields.documentType?.[0] || 'OTHER'] *)
Definition documentType_input (form : Form) : jsstring :=
  match first_of (fields_documentType form) with
  | Some (c :: s) => c :: s
  | _ => str "OTHER"
  end.

Definition documentTypes : list jsstring :=
  [str "BANK_STATEMENT"; str "INVOICE"; str "RECEIPT"; str "OTHER"].

(** [uploadSchema.parse({ file, fileName, documentType })] *)
Definition uploadSchema_parse (file : File) (fileName : option jsstring)
           (documentType : jsstring) : M Validated :=
  match fileName, existsb (jsstring_eqb documentType) documentTypes with
  | Some name, true =>
      ret {| validated_file := file;
             validated_fileName := name;
             validated_documentType := documentType |}
  | _, in_enum =>
      throw (ZodError
               ((match fileName with
                 | Some _ => []
                 | None => [Issue (str "fileName") (expected_string R)]
                 end)
                ++ (if in_enum then []
                    else [Issue (str "documentType")
                                (invalid_enum_value R documentType)])))
  end.

(** Get or create default user. *)
Definition default_user : M User :=
  stage_with_message "Failed to create default user: "
    (found <- call UserFindFirst (user_findFirst V) ;;
     match found with
     | Some user => ret user
     | None => call UserCreate (user_create V)
     end).

(** Get or create default category. *)
Definition default_category (userId : jsstring) : M Category :=
  stage_with_message "Failed to create default category: "
    (found <- call (CategoryFindFirst userId) (category_findFirst V userId) ;;
     defaultCategory <-
       match found with
       | Some category => ret (Some category)
       | None =>
           try_catch
             (created <- call (CategoryCreate userId) (category_create V userId) ;;
              ret (Some created))
             (fun createError =>
                match error_message createError with
                | Some message =>
                    if includes message (str "Unique constraint")
                    then call (CategoryFindFirst userId)
                              (category_findFirst V userId)
                    else throw createError
                | None => throw createError
                end)
       end ;;
     match defaultCategory with
     | Some category => ret category
     | None => throw (JsError (str "Failed to get or create default category"))
     end).

(** [file.mimetype] where the extraction has accepted it. *)
Definition fileType (file : File) : jsstring :=
  match mimetype file with
  | Some mimeType => mimeType
  | None => []
  end.

(** Save document and transactions to database. *)
Definition save_document (validated : Validated) (file : File) (user : User)
           (category : Category) (analysis : Analysis) : M document :=
  fun w =>
    let st := State (analysis_objects analysis) (ticks (js w)) (console (js w)) in
    let '(outcome, calls, st, db) :=
      save E (documents V) (validated_fileName validated) (fileType file)
           (size file) (user_id user) (category_id category)
           (analysis_transactions analysis) st (outside w) in
    (match outcome with
     | inr doc => inr doc
     | inl e => inl (JsError (message e))
     end,
     World db (rev (List.map Store calls) ++ trace w) st).

Definition ok (doc : document) (summary : value) : answer :=
  {| status := 200;
     body_of := Body (Saved doc summary (transactions_or_empty doc)) |}.

(** The body of the handler's [try]. *)
Definition process : M answer :=
  form <- call FormParse (form_parse V) ;;
  match files_file form with
  | None | Some [] =>
      ret {| status := 400; body_of := ErrorBody (str "No file uploaded") |}
  | Some (file :: _) =>
      validatedData <-
        uploadSchema_parse file (fileName_input form file)
                           (documentType_input form) ;;
      let uploadDir := join R (cwd R) (str "uploads") in
      stage "Failed to create uploads directory"
            (call (Mkdir uploadDir) (mkdir V uploadDir)) ;;;
      let filePath := join R uploadDir (newFilename file) in
      stage "Failed to save file"
            (fileBuffer <- call (ReadStream (filepath file))
                                (read_stream V (filepath file)) ;;
             call (WriteFile filePath fileBuffer)
                  (writeFile V filePath fileBuffer)) ;;;
      text <- stage "Failed to extract text from document"
                    (extractTextFromFile filePath (mimetype file)) ;;
      analysis <- stage "Failed to analyze document"
                        (call (Analyze text) (analyzeFinancialDocument V text)) ;;
      defaultUser <- default_user ;;
      defaultCategory <- default_category (user_id defaultUser) ;;
      document <- save_document validatedData file defaultUser defaultCategory
                                analysis ;;
      ret (ok document (analysis_summary analysis))
  end.

(** The handler's outer [catch]. *)
Definition on_error (error : exception) : answer :=
  match error with
  | ZodError issues =>
      {| status := 400;
         body_of := InvalidBody (str "Invalid input data") issues |}
  | JsError _ | Thrown =>
      {| status := 500;
         body_of := Body (Failed (str "Failed to process document")
                                 (message_or_unknown error)) |}
  end.

(** [handler(req, res)]: the answer sent, from [req.method]. *)
Definition handler (method : option jsstring) (w : world) : answer * world :=
  match method with
  | Some m =>
      if jsstring_eqb m (str "POST") then
        match process w with
        | (inr a, w') => (a, w')
        | (inl error, w') => (on_error error, w')
        end
      else
        ({| status := 405; body_of := ErrorBody (str "Method not allowed") |}, w)
  | None =>
      ({| status := 405; body_of := ErrorBody (str "Method not allowed") |}, w)
  end.

End WithServices.
End Upload.

(** ** The document page

    [getServerSideProps]: the document is read with its transactions and
    their categories, and turned into the properties of the page; when
    it is not found, or when anything throws, the page is "not found". *)

Module Page.

(** What [prisma.document.findUnique] returns, [include]d relations
    with it; a relation that is [null] is [None]. *)
Record CategoryRow : Type := {
  category_id : jsstring;
  category_name : jsstring
}.

Record TransactionRecord : Type := {
  tx_id : jsstring;
  tx_date : Date;
  tx_description : jsstring;
  tx_amount : float;
  tx_type : jsstring;
  tx_category : option CategoryRow;
  tx_userId : jsstring;
  tx_createdAt : Date;
  tx_updatedAt : Date
}.

Record DocumentRecord : Type := {
  doc_id : jsstring;
  doc_fileName : jsstring;
  doc_fileType : jsstring;
  doc_fileSize : N;
  doc_status : jsstring;
  doc_userId : jsstring;
  doc_createdAt : Date;
  doc_updatedAt : Date;
  doc_transactions : list TransactionRecord
}.

(** The properties of the page. *)
Record DocumentProps : Type := {
  id : jsstring;
  fileName : jsstring;
  fileType : jsstring;
  fileSize : N;
  status : jsstring;
  userId : jsstring;
  createdAt : jsstring;
  updatedAt : jsstring
}.

Record TransactionProps : Type := {
  transaction_id : jsstring;
  date : jsstring;
  description : jsstring;
  amount : float;
  type : jsstring;
  category : jsstring * jsstring;
  transaction_userId : jsstring;
  transaction_createdAt : jsstring;
  transaction_updatedAt : jsstring
}.

Inductive result : Type :=
| NotFound
| Props (document : DocumentProps) (transactions : list TransactionProps).

(** [d.toISOString()], which throws a [RangeError] on an invalid date. *)
Definition iso (d : Date) : option jsstring :=
  match d with
  | Some t => Some (toISOString t)
  | None => None
  end.

(** The callback of [map]; [None] when it throws. *)
Definition transaction_props (tx : TransactionRecord) : option TransactionProps :=
  match iso (tx_date tx), tx_category tx, iso (tx_createdAt tx),
        iso (tx_updatedAt tx) with
  | Some date, Some category, Some createdAt, Some updatedAt =>
      Some {| transaction_id := tx_id tx;
              date := date;
              description := tx_description tx;
              amount := tx_amount tx;
              type := tx_type tx;
              category := (category_id category, category_name category);
              transaction_userId := tx_userId tx;
              transaction_createdAt := createdAt;
              transaction_updatedAt := updatedAt |}
  | _, _, _, _ => None
  end.

(** [Array.prototype.map] with a callback that may throw. *)
Fixpoint map_props (txs : list TransactionRecord) : option (list TransactionProps) :=
  match txs with
  | [] => Some []
  | tx :: txs' =>
      match transaction_props tx with
      | Some p =>
          match map_props txs' with
          | Some ps => Some (p :: ps)
          | None => None
          end
      | None => None
      end
  end.

Section WithStore.
Variable W : Type.
(** [prisma.document.findUnique({ where: { id }, include })]: it returns
    a document or [null], or throws. *)
Variable findUnique : jsstring -> W -> option (option DocumentRecord) * W.

(** [getServerSideProps(context)], from [context.params.id]. *)
Definition getServerSideProps (id_ : jsstring) (w : W) : result * W :=
  match findUnique id_ w with
  | (Some (Some document), w') =>
      (match iso (doc_createdAt document), iso (doc_updatedAt document),
             map_props (doc_transactions document) with
       | Some createdAt, Some updatedAt, Some transactions =>
           Props {| id := doc_id document;
                    fileName := doc_fileName document;
                    fileType := doc_fileType document;
                    fileSize := doc_fileSize document;
                    status := doc_status document;
                    userId := doc_userId document;
                    createdAt := createdAt;
                    updatedAt := updatedAt |}
                 transactions
       | _, _, _ => NotFound
       end, w')
  | (Some None, w') => (NotFound, w')
  | (None, w') => (NotFound, w')
  end.

End WithStore.
End Page.

(** ** The uploader

    [handleSubmit] of [DocumentUploader]: the state of the component,
    the request it sends, and what it does with the answer.  The answer
    is an answer of the upload handler; [router.replace] is recorded. *)

Module Uploader.

(** A [File] of the browser. *)
Record BrowserFile : Type := { name : jsstring; bytes : Upload.Buffer }.

(** The state of the component. *)
Record state : Type := State {
  file : option BrowserFile;
  isUploading : bool;
  error : option jsstring;
  documentType : jsstring
}.

Definition setIsUploading (b : bool) (st : state) : state :=
  State (file st) b (error st) (documentType st).

Definition setError (e : option jsstring) (st : state) : state :=
  State (file st) (isUploading st) e (documentType st).

(** The three parts appended to the [FormData]. *)
Record FormData : Type := {
  form_file : BrowserFile;
  form_fileName : jsstring;
  form_documentType : jsstring
}.

(** What [catch (err)] may receive. *)
Inductive thrown : Type :=
| ErrorObject (message : jsstring)
| OtherValue.

(** [response.ok] *)
Definition ok (response : Upload.answer) : bool :=
  Nat.leb 200 (Upload.status response) && Nat.leb (Upload.status response) 299.

(** [Array.prototype.join], with its comma. *)
Fixpoint join_commas (parts : list jsstring) : jsstring :=
  match parts with
  | [] => []
  | [part] => part
  | part :: parts' => part ++ str "," ++ join_commas parts'
  end.

(** [a || b] on strings. *)
Definition or_else (a b : jsstring) : jsstring :=
  match a with
  | [] => b
  | _ :: _ => a
  end.

(** The message of
    [new Error(errorData.details || errorData.error || 'Failed to upload document')]:
    an array of issues is truthy, and its string is the strings of its
    objects, joined. *)
Definition error_text (errorData : Upload.json_body) : jsstring :=
  match errorData with
  | Upload.ErrorBody error =>
      or_else error (str "Failed to upload document")
  | Upload.InvalidBody error details =>
      join_commas (List.map (fun _ => str "[object Object]") details)
  | Upload.Body (Failed error details) =>
      or_else details (or_else error (str "Failed to upload document"))
  | Upload.Body (Saved _ _ _) => str "Failed to upload document"
  end.

Section WithNetwork.
Variable W : Type.

(** [fetch('/api/documents/upload', { method: 'POST', body })]: the
    answer, or what the promise is rejected with. *)
Variable fetch : FormData -> W -> (thrown + Upload.answer) * W.

(** The message of the [TypeError] for [data.document.id] when the body
    has no document. *)
Variable type_error_message : jsstring.

(** The body of [try]: the addresses given to [router.replace], and how
    the block ends. *)
Definition submit (formData : FormData) (w : W)
  : (thrown + unit) * list jsstring * W :=
  match fetch formData w with
  | (inl rejection, w) => (inl rejection, [], w)
  | (inr response, w) =>
      if negb (ok response) then
        (inl (ErrorObject (error_text (Upload.body_of response))), [], w)
      else
        match Upload.body_of response with
        | Upload.Body (Saved document _ _) =>
            (inr tt, [str "/documents/" ++ id (fields document)], w)
        | _ => (inl (ErrorObject type_error_message), [], w)
        end
  end.

(** [handleSubmit(e)]: the state it leaves, and the addresses given to
    [router.replace]. *)
Definition handleSubmit (st : state) (w : W) : state * list jsstring * W :=
  match file st with
  | None => (setError (Some (str "Please select a file to upload")) st, [], w)
  | Some f =>
      let st := setError None (setIsUploading true st) in
      let formData := {| form_file := f;
                         form_fileName := name f;
                         form_documentType := documentType st |} in
      let '(outcome, replaced, w) := submit formData w in
      let st :=
        match outcome with
        | inr _ => st
        | inl (ErrorObject message) => setError (Some message) st
        | inl OtherValue =>
            setError (Some (str "An unexpected error occurred")) st
        end in
      (setIsUploading false st, replaced, w)
  end.

End WithNetwork.
End Uploader.

(** ** The test upload

    [handleUpload] of [TestUpload]: the text is extracted and analysed
    in the browser, and each transaction of the analysis is sent to
    [/api/transactions/create] in turn. *)

Module TestUpload.

Record Transaction : Type := {
  date : jsstring;
  description : jsstring;
  amount : float;
  type : jsstring;
  category : jsstring
}.

(** The analysis, as far as [handleUpload] reads it; [more] stands for
    the summary and the categories. *)
Record AnalysisResult (More : Type) : Type := {
  transactions : list Transaction;
  more : More
}.

(** The object given to [JSON.stringify] as the body of the request. *)
Record CreateRequest : Type := {
  request_userId : jsstring;
  request_date : jsstring;
  request_description : jsstring;
  request_amount : float;
  request_type : jsstring;
  request_categoryName : jsstring
}.

(** What [catch (err)] may receive. *)
Inductive thrown : Type :=
| ErrorObject (message : jsstring)
| OtherValue.

(** A response of [fetch]: [response.ok], [response.statusText], and
    what reading [(await response.json()).error] gives: a string that is
    not empty, nothing, or an exception. *)
Record Response : Type := {
  ok : bool;
  statusText : jsstring;
  json_error : thrown + option jsstring
}.

Section WithComponent.
Variables File More W : Type.

Record state : Type := State {
  file : option File;
  text : jsstring;
  analysis : option (AnalysisResult More);
  loading : bool;
  error : option jsstring
}.

Definition setText (t : jsstring) (st : state) : state :=
  State (file st) t (analysis st) (loading st) (error st).
Definition setAnalysis (a : AnalysisResult More) (st : state) : state :=
  State (file st) (text st) (Some a) (loading st) (error st).
Definition setLoading (b : bool) (st : state) : state :=
  State (file st) (text st) (analysis st) b (error st).
Definition setError (e : option jsstring) (st : state) : state :=
  State (file st) (text st) (analysis st) (loading st) e.

Variable extractTextFromDocument : File -> W -> (thrown + jsstring) * W.
Variable analyzeFinancialDocument :
  jsstring -> W -> (thrown + AnalysisResult More) * W.
(** [fetch('/api/transactions/create', ...)] *)
Variable fetch : CreateRequest -> W -> (thrown + Response) * W.
(** the property [userId] of the component *)
Variable userId : jsstring.

Definition request_of (tx : Transaction) : CreateRequest :=
  {| request_userId := userId;
     request_date := date tx;
     request_description := description tx;
     request_amount := amount tx;
     request_type := type tx;
     request_categoryName := category tx |}.

(** A request sent, and what [fetch] has answered: a rejection or a
    response. *)
Definition exchange : Type := (CreateRequest * (thrown + Response))%type.

(** The [for ... of] loop: the requests sent so far with their answers,
    latest first, and how the loop ends. *)
Fixpoint create_each (txs : list Transaction) (sent : list exchange) (w : W)
  : (thrown + unit) * list exchange * W :=
  match txs with
  | [] => (inr tt, sent, w)
  | tx :: txs' =>
      match fetch (request_of tx) w with
      | (inl rejection, w) =>
          (inl rejection, (request_of tx, inl rejection) :: sent, w)
      | (inr response, w) =>
          let sent := (request_of tx, inr response) :: sent in
          if negb (ok response) then
            match json_error response with
            | inl exception => (inl exception, sent, w)
            | inr errorData_error =>
                (inl (ErrorObject
                        (str "Failed to create transaction: "
                         ++ match errorData_error with
                            | Some (c :: s) => c :: s
                            | _ => statusText response
                            end)),
                 sent, w)
            end
          else create_each txs' sent w
      end
  end.

(** The body of [try]. *)
Definition upload (f : File) (st : state) (w : W)
  : (thrown + unit) * state * list exchange * W :=
  match extractTextFromDocument f w with
  | (inl e, w) => (inl e, st, [], w)
  | (inr extractedText, w) =>
      let st := setText extractedText st in
      match analyzeFinancialDocument extractedText w with
      | (inl e, w) => (inl e, st, [], w)
      | (inr analysisResult, w) =>
          let st := setAnalysis analysisResult st in
          let '(outcome, sent, w) :=
            create_each (transactions analysisResult) [] w in
          (outcome, st, sent, w)
      end
  end.

(** [handleUpload()]: the state it leaves and the requests it has sent,
    with their answers, latest first. *)
Definition handleUpload (st : state) (w : W) : state * list exchange * W :=
  match file st with
  | None => (setError (Some (str "Please select a file")) st, [], w)
  | Some f =>
      let st := setError None (setLoading true st) in
      let '(outcome, st, sent, w) := upload f st w in
      let st :=
        match outcome with
        | inr _ => st
        | inl (ErrorObject message) => setError (Some message) st
        | inl OtherValue => setError (Some (str "An error occurred")) st
        end in
      (setLoading false st, sent, w)
  end.

End WithComponent.
End TestUpload.

(** ** Vocabulary of the properties *)

(** What a successful match says about the input: the term [a] has taken
    the piece [p]. *)
Definition piece_of (a : atom) (p : jsstring) : Prop :=
  forallb (in_class (cls a)) p = true
  /\ qmin a <= List.length p
  /\ match qmax a with
     | Some hi => List.length p <= hi
     | None => True
     end.

Fixpoint pieces_of (r : regex) (ps : list jsstring) : Prop :=
  match r, ps with
  | [], [] => True
  | a :: r', p :: ps' => piece_of a p /\ pieces_of r' ps'
  | _, _ => False
  end.

Fixpoint captured (r : regex) (ps : list jsstring) : list jsstring :=
  match r, ps with
  | a :: r', p :: ps' =>
      if captures a then p :: captured r' ps' else captured r' ps'
  | _, _ => []
  end.

(** Text without white space and without letters. *)
Definition plain_char (c : char) : bool := negb (is_space c) && negb (is_alpha c).
Definition plain (s : jsstring) : bool := forallb plain_char s.

(** Digit groups joined by hyphens, with no white space: the shape the
    account-number patterns produce, such as 1234-567-890 and
    123-4567-8901. *)
Definition digit_group_char (c : char) : bool := is_digit c || char_eqb c 45%N.
Definition digit_group_text (s : jsstring) : bool := forallb digit_group_char s.

(** A class all of whose characters are white space or letters. *)
Definition excluded_class (cl : charclass) : bool :=
  match cl with
  | CLit c => negb (plain_char c)
  | CDigit => false
  | CSpace => true
  | CAlpha => true
  | CSet cs => forallb (fun c => negb (plain_char c)) cs
  end.

(** A pattern that needs at least one white-space character or letter. *)
Definition needs_excluded (r : regex) : bool :=
  existsb (fun a => excluded_class (cls a) && Nat.ltb 0 (qmin a)) r.

Definition literal_key_ok (entry : string * string) : bool :=
  match RegExp (str (fst entry)) with
  | Some re => needs_excluded re
  | None => false
  end.

Definition parses (entry : string * string) : bool :=
  match RegExp (str (fst entry)) with
  | Some _ => true
  | None => false
  end.

(** The calendar computation inside one 400-year era, checked on each
    day of the era: the year of the era, the month and the day are in
    range. *)
Section CalendarVocabulary.
Local Open Scope Z_scope.

Definition era_check (doe : Z) : bool :=
  let yoe := (doe - doe / 1460 + doe / 36524 - doe / 146096) / 365 in
  let doy := doe - (365 * yoe + yoe / 4 - yoe / 100) in
  let mp := (5 * doy + 2) / 153 in
  let d := doy - (153 * mp + 2) / 5 + 1 in
  let m := if mp <? 10 then mp + 3 else mp - 9 in
  (0 <=? yoe) && (yoe <=? 399) && (0 <=? mp) && (mp <=? 11)
  && (1 <=? d) && (d <=? days_in_month (if m <=? 2 then yoe + 1 else yoe) m).

Fixpoint all_from (n : nat) (z : Z) (f : Z -> bool) : bool :=
  match n with
  | O => true
  | S k => f z && all_from k (z + 1) f
  end.

End CalendarVocabulary.

(** [tx.type] is one of the two literals. *)
Definition valid_type (v : value) : bool :=
  is_literal v "INCOME" || is_literal v "EXPENSE".

(** [!tx.description || typeof tx.description !== 'string'] *)
Definition bad_description (v : value) : bool :=
  negb (truthy v) || negb (typeof_string v).

(** [new Date(v)] returns a valid date. *)
Definition parses_as_date (E : host) (v : value) : bool :=
  match new_Date E v with
  | Returns (Some _) => true
  | _ => false
  end.

(** What the [filter] callback leaves in the three properties it may
    assign to. *)
Definition fix_type (v : value) : value :=
  if valid_type v then v else VString (str "EXPENSE").

Definition fix_description (v : value) : value :=
  if bad_description v then VString (str "Unnamed transaction") else v.

Definition fix_date (E : host) (v : value) (tick : nat) : value :=
  if parses_as_date E v then v else VString (today_string (clock E tick)).

Definition fix_candidate (E : host) (tick : nat) (tx : Candidate.t) : Candidate.t :=
  Candidate.Make (fix_date E (Candidate.date tx) tick)
                 (fix_description (Candidate.description tx))
                 (Candidate.amount tx)
                 (fix_type (Candidate.type tx))
                 (Candidate.category tx).

(** [tx'] is [tx] after some runs of the callback, with clock readings
    numbered from [lo] up to [hi] excluded. *)
Definition fixed_from (E : host) (lo hi : nat) (tx tx' : Candidate.t) : Prop :=
  Candidate.amount tx' = Candidate.amount tx
  /\ Candidate.category tx' = Candidate.category tx
  /\ (Candidate.type tx' = Candidate.type tx
      \/ (valid_type (Candidate.type tx) = false
          /\ Candidate.type tx' = VString (str "EXPENSE")))
  /\ (Candidate.date tx' = Candidate.date tx
      \/ (parses_as_date E (Candidate.date tx) = false
          /\ exists k, lo <= k < hi
                       /\ Candidate.date tx' = VString (today_string (clock E k))))
  /\ (Candidate.description tx' = Candidate.description tx
      \/ (bad_description (Candidate.description tx) = true
          /\ Candidate.description tx' = VString (str "Unnamed transaction"))).

Definition sanitized (tx : Candidate.t) : Prop :=
  invalid_amount (Candidate.amount tx) = false
  /\ valid_type (Candidate.type tx) = true
  /\ bad_description (Candidate.description tx) = false.

(** The properties the callbacks read in the array element [tx]: those
    of the object it refers to, none in a primitive. *)
Definition properties (st : state) (tx : value) : Candidate.t :=
  match ref_of tx with
  | Some r => objects st r
  | None => no_properties
  end.

Definition numeric_amount (st : state) (tx : value) : bool :=
  negb (invalid_amount (Candidate.amount (properties st tx))).

(** The value of a completion, [d] when it throws. *)
Definition returned (A : Type) (d : A) (c : completion A) : A :=
  match c with
  | Returns a => a
  | Throws => d
  end.

(** The list the validator hands over: nothing when it throws. *)
Definition accepted_of (c : completion (list Transaction.t)) : list Transaction.t :=
  returned [] c.

(** [`${v}`] returns. *)
Definition printable (v : value) : bool :=
  match interpolate v with
  | Returns _ => true
  | Throws => false
  end.

(** The candidate [tx] makes the [filter] callback throw: one of its
    warnings interpolates the description, and the description has no
    string. *)
Definition hazard (E : host) (tx : Candidate.t) : bool :=
  negb (printable (Candidate.description tx))
  && (invalid_amount (Candidate.amount tx)
      || negb (valid_type (Candidate.type tx))
      || negb (parses_as_date E (Candidate.date tx))).

(** The array element [tx] makes the [filter] callback throw. *)
Definition hazardous (E : host) (st : state) (tx : value) : bool :=
  match tx with
  | VUndefined | VNull => true
  | _ => hazard E (properties st tx)
  end.

(** The warnings of the [filter] callback on a candidate it keeps,
    latest first. *)
Definition fix_warnings (E : host) (tx : Candidate.t) : list warning :=
  (if bad_description (Candidate.description tx)
   then [FixingMissingDescription] else [])
  ++ match new_Date E (Candidate.date tx) with
     | Returns (Some _) => []
     | Returns None => [FixingInvalidDate (Candidate.description tx)]
     | Throws => [FixingInvalidDateFormat (Candidate.description tx)]
     end
  ++ (if valid_type (Candidate.type tx)
      then [] else [FixingInvalidType (Candidate.description tx)]).

(** [tx'] is [tx] with each invalid field overwritten, the clock
    readings being numbered from [lo] up to [hi] excluded. *)
Definition fixed_to (E : host) (lo hi : nat) (tx tx' : Candidate.t) : Prop :=
  Candidate.amount tx' = Candidate.amount tx
  /\ Candidate.category tx' = Candidate.category tx
  /\ Candidate.type tx' = fix_type (Candidate.type tx)
  /\ Candidate.description tx' = fix_description (Candidate.description tx)
  /\ (if parses_as_date E (Candidate.date tx)
      then Candidate.date tx' = Candidate.date tx
      else exists k, lo <= k < hi
                     /\ Candidate.date tx' = VString (today_string (clock E k))).

(** The transaction the [map] callback builds from the object [tx] when
    the clock has been read [tick] times. *)
Definition transaction_of (E : host) (cat user : jsstring) (tick : nat)
           (tx : Candidate.t) : Transaction.t :=
  Transaction.Make
    (match new_Date E (Candidate.date tx) with
     | Returns (Some t) => Some t
     | _ => Some (clock E tick)
     end)
    (substring0 255 (returned [] (String_ E (Candidate.description tx))))
    (let amount := returned PrimFloat.nan (number_of E (Candidate.amount tx)) in
     if PrimFloat.is_nan amount then 0%float else amount)
    (if is_literal (Candidate.type tx) "INCOME" then str "INCOME" else str "EXPENSE")
    cat user.

(** The date [d] is valid and falls on the UTC calendar day of the clock
    reading [now]. *)
Definition on_day_of (now : Z) (d : Date) : Prop :=
  exists t, d = Some t /\ Day t = Day now.

(** The clock readings are time values: at most 8.64e15 ms from the
    epoch, as for every [Date]. *)
Definition clock_in_range (E : host) : Prop :=
  forall k, (-8640000000000000 <= clock E k <= 8640000000000000)%Z.

Definition expected_type (v : value) : jsstring :=
  if is_literal v "INCOME" then str "INCOME" else str "EXPENSE".

(** A non-empty string, cut to 255 code units; anything else gives the
    placeholder. *)
Definition expected_description (v : value) : jsstring :=
  match v with
  | VString (c :: s) => substring0 255 (c :: s)
  | _ => str "Unnamed transaction"
  end.

(** The candidate [tx] has become the transaction [t], the clock having
    been read from reading [lo] up to reading [hi] excluded. *)
Definition survives_as (E : host) (cat user : jsstring) (lo hi : nat)
           (tx : Candidate.t) (t : Transaction.t) : Prop :=
  Candidate.amount tx = VNumber (Transaction.amount t)
  /\ Transaction.type t = expected_type (Candidate.type tx)
  /\ Transaction.description t = expected_description (Candidate.description tx)
  /\ match new_Date E (Candidate.date tx) with
     | Returns (Some t0) => Transaction.date t = Some t0
     | _ => exists k, lo <= k < hi /\ on_day_of (clock E k) (Transaction.date t)
     end
  /\ Transaction.categoryId t = cat
  /\ Transaction.userId t = user.

(** The candidate of the specification's scenario:
    [{date: "not-a-date", description: "", amount: 42.5, type: "XYZ"}]. *)
Definition scenario_candidate : Candidate.t :=
  Candidate.Make (VString (str "not-a-date")) (VString [])
                 (VNumber 42.5%float) (VString (str "XYZ")) VUndefined.

(** A transaction as the specification describes the accepted ones. *)
Definition claimed_well_formed (t : Transaction.t) : bool :=
  negb (is_invalid (Transaction.date t))
  && (jsstring_eqb (Transaction.type t) (str "INCOME")
      || jsstring_eqb (Transaction.type t) (str "EXPENSE"))
  && PrimFloat.is_finite (Transaction.amount t)
  && PrimFloat.leb 0%float (Transaction.amount t)
  && negb (Nat.eqb (List.length (Transaction.description t)) 0)
  && Nat.leb (List.length (Transaction.description t)) 255.

(** The same, with the amount only required to be a number other than NaN. *)
Definition well_formed (t : Transaction.t) : Prop :=
  is_invalid (Transaction.date t) = false
  /\ (Transaction.type t = str "INCOME" \/ Transaction.type t = str "EXPENSE")
  /\ PrimFloat.is_nan (Transaction.amount t) = false
  /\ Transaction.description t <> []
  /\ List.length (Transaction.description t) <= 255.

(** The number of candidates a run of the validator rejects. *)
Definition rejected_by (E : host) (cat user : jsstring) (txs : list value)
           (st : state) : nat :=
  rejectedCount (snd (validTransactions E cat user txs st)) - rejectedCount st.

(** Two candidates that differ at most in [category]. *)
Definition same_but_category (a b : Candidate.t) : Prop :=
  Candidate.date a = Candidate.date b
  /\ Candidate.description a = Candidate.description b
  /\ Candidate.amount a = Candidate.amount b
  /\ Candidate.type a = Candidate.type b.

Definition agree_but_category (st1 st2 : state) : Prop :=
  ticks st1 = ticks st2
  /\ forall r, same_but_category (objects st1 r) (objects st2 r).

(** Sample data. *)
Definition example_host : host :=
  Host (fun _ => 1793534400123%Z)
       (fun _ => None)
       (fun _ => Returns None)
       (fun v => match v with
                 | VString s =>
                     if jsstring_eqb s (str "42.5") then 42.5%float
                     else PrimFloat.nan
                 | _ => PrimFloat.nan
                 end)
       (fun _ => str "[object Object]").

Definition example_objects : heap :=
  fun r =>
    match r with
    | 0 => scenario_candidate
    | 1 => Candidate.Make (VString (str "2026-10-30")) (VString (str "Refund"))
                          (VNumber (-20.5)%float) (VString (str "INCOME"))
                          (VString (str "Shopping"))
    | 2 => Candidate.Make (VString (str "2026-10-29")) (VString (str "Coffee"))
                          (VString (str "42.5")) (VString (str "EXPENSE"))
                          VUndefined
    | 3 => Candidate.Make (VString (str "2026-10-28")) (VString (str "Rent"))
                          (VNumber PrimFloat.nan) (VString (str "EXPENSE"))
                          VUndefined
    | _ => Candidate.Make VUndefined VUndefined VUndefined VUndefined VUndefined
    end.

Definition example_state : state := State example_objects 0 [].

(** The four sample candidates, as the elements of an array. *)
Definition example_batch : list value :=
  [VObject 0; VObject 1; VObject 2; VObject 3].

(** Candidates whose description is [{"toString": null}]: one with the
    amount "x", the scenario's candidate, and one with nothing to fix. *)
Definition unprintable_objects : heap :=
  fun r =>
    match r with
    | 0 => Candidate.Make VUndefined (VInconvertible 0) (VString (str "x"))
                          VUndefined VUndefined
    | 1 => Candidate.Make (VString (str "not-a-date")) (VInconvertible 1)
                          (VNumber 42.5%float) (VString (str "XYZ")) VUndefined
    | 2 => Candidate.Make (VString (str "2026-10-30")) (VInconvertible 2)
                          (VNumber 42.5%float) (VString (str "EXPENSE"))
                          VUndefined
    | _ => example_objects 1
    end.

Definition unprintable_state : state := State unprintable_objects 0 [].

(** [example_objects] with other categories. *)
Definition recategorized_state : state :=
  State (fun r => Candidate.Make (Candidate.date (example_objects r))
                                 (Candidate.description (example_objects r))
                                 (Candidate.amount (example_objects r))
                                 (Candidate.type (example_objects r))
                                 (VString (str "Groceries")))
        0 [].

Definition assigned_defaults (cat user : jsstring) (t : Transaction.t) : Prop :=
  Transaction.categoryId t = cat /\ Transaction.userId t = user.

Definition response_of (S : Type) (r : response * list call * state * S) : response :=
  fst (fst (fst r)).
Definition calls_of (S : Type) (r : response * list call * state * S) : list call :=
  snd (fst (fst r)).

(** A store that refuses nested creation and accepts the document
    alone; its state counts the calls. *)
Definition refusing_store : persistence nat :=
  {| create_with_transactions :=
       fun _ _ n => (inl {| message := str "Foreign key constraint failed" |}, S n);
     create_document :=
       fun data n => (inr {| id := str "doc-1"; stored := data |}, S n) |}.

(** ** Vocabulary of the further properties *)

(** *** The spacing steps of the normalizer *)

(** The white space a string starts with, and what follows it. *)
Fixpoint take_spaces (s : jsstring) : jsstring :=
  match s with
  | c :: s' => if is_space c then c :: take_spaces s' else []
  | [] => []
  end.

Fixpoint skip_spaces (s : jsstring) : jsstring :=
  match s with
  | c :: s' => if is_space c then skip_spaces s' else s
  | [] => []
  end.

(** The shape of the four spacing patterns: [(A)\s+(B)]. *)
Definition squeeze_re (A B : charclass) : regex :=
  [cap (one A); plus CSpace; cap (one B)].

(** [u] starts with a character of [A], white space, and a character of
    [B]: the two characters and the text after them. *)
Definition triple_match (A B : charclass) (u : jsstring)
  : option (char * char * jsstring) :=
  match u with
  | a :: t =>
      if in_class A a then
        match take_spaces t, skip_spaces t with
        | _ :: _, b :: rest => if in_class B b then Some (a, b, rest) else None
        | _, _ => None
        end
      else None
  | [] => None
  end.

(** The first character after the white space that [t] starts with,
    when [t] starts with white space. *)
Definition lookahead (t : jsstring) : option char :=
  match take_spaces t, skip_spaces t with
  | _ :: _, b :: _ => Some b
  | _, _ => None
  end.

(** [u] starts with a character of [A], white space, and a character of
    [B]. *)
Definition starts_triple (A B : charclass) (u : jsstring) : bool :=
  match u with
  | a :: t =>
      in_class A a
      && match lookahead t with
         | Some b => in_class B b
         | None => false
         end
  | [] => false
  end.

(** No place of [t] starts such a triple. *)
Fixpoint no_triple (A B : charclass) (t : jsstring) : bool :=
  match t with
  | [] => true
  | _ :: t' => negb (starts_triple A B t) && no_triple A B t'
  end.

(** [text.replace(/(A)\s+(B)/g, '$1$2')] *)
Definition squeeze (A B : charclass) (s : jsstring) : jsstring :=
  replace (squeeze_re A B) "$1$2" s.

(** Two classes with no character in common. *)
Definition disjoint (A B : charclass) : Prop :=
  forall c, in_class A c = true -> in_class B c = false.

(** The characters of a text other than white space. *)
Definition ink (s : jsstring) : jsstring :=
  List.filter (fun c => negb (is_space c)) s.

(** A class without white space. *)
Definition spaceless (cl : charclass) : Prop :=
  forall c, in_class cl c = true -> is_space c = false.

(** Three groups of characters with white space around the two hyphens
    between them: an account number as the recognition may return it. *)
Definition spaced_account (g1 w1 w2 g2 w3 w4 g3 : jsstring) : jsstring :=
  g1 ++ w1 ++ str "-" ++ w2 ++ g2 ++ w3 ++ str "-" ++ w4 ++ g3.

(** [/(\d{n1})\s*-\s*(\d{n2})\s*-\s*(\d{n3})/g] *)
Definition account_re (n1 n2 n3 : nat) : regex :=
  [cap (exactly n1 CDigit); star CSpace; one hyphen; star CSpace;
   cap (exactly n2 CDigit); star CSpace; one hyphen; star CSpace;
   cap (exactly n3 CDigit)].

(** The text of an account number, digits and hyphens only. *)
Definition account_number (g1 g2 g3 : jsstring) : jsstring :=
  g1 ++ str "-" ++ g2 ++ str "-" ++ g3.

(** The number of hyphens of a text. *)
Definition hyphens (s : jsstring) : nat := count_occ N.eq_dec s 45%N.

(** The two shapes of account number the normalizer looks for: groups
    of 4, 3 and 3 characters, and of 3, 4 and 4. *)
Definition account_shape (g1 g2 g3 : jsstring) : Prop :=
  (List.length g1 = 4 /\ List.length g2 = 3 /\ List.length g3 = 3)
  \/ (List.length g1 = 3 /\ List.length g2 = 4 /\ List.length g3 = 4).

(** No character of [s] is in the class. *)
Definition without (cl : charclass) (s : jsstring) : bool :=
  forallb (fun c => negb (in_class cl c)) s.

(** Text without letters. *)
Definition letterless (s : jsstring) : bool :=
  forallb (fun c => negb (is_alpha c)) s.

(** A class all of whose characters are letters. *)
Definition letter_class (cl : charclass) : bool :=
  match cl with
  | CLit c => is_alpha c
  | CAlpha => true
  | CSet cs => forallb is_alpha cs
  | CDigit | CSpace => false
  end.

(** A pattern that needs at least one letter. *)
Definition needs_letter (r : regex) : bool :=
  existsb (fun a => letter_class (cls a) && Nat.ltb 0 (qmin a)) r.

(** The key of an entry of the table is a pattern that needs a letter. *)
Definition key_needs_letter (entry : string * string) : bool :=
  match RegExp (str (fst entry)) with
  | Some re => needs_letter re
  | None => false
  end.

(** *** The validator *)

(** A candidate the [filter] callback has nothing to fix in. *)
Definition settled (E : host) (tx : Candidate.t) : Prop :=
  sanitized tx /\ parses_as_date E (Candidate.date tx) = true.

(** Two hosts that read the same clock and build the same dates. *)
Definition same_dates (E E' : host) : Prop :=
  (forall k, clock E k = clock E' k)
  /\ (forall s, Date_parse_other E s = Date_parse_other E' s)
  /\ (forall v, Date_of_other E v = Date_of_other E' v).

(** [example_host] with another [parseFloat] and another [String]. *)
Definition other_host : host :=
  Host (clock example_host) (Date_parse_other example_host)
       (Date_of_other example_host)
       (fun _ => 7%float) (fun _ => str "?").

(** *** The upload pipeline *)

Section UploadVocabulary.
Variable W : Type.
Variable V : Upload.services W.
Variable R : Upload.runtime.

(** The directory and the path the handler writes to. *)
Definition uploadDir : jsstring := Upload.join R (Upload.cwd R) (str "uploads").
Definition filePath (file : Upload.File) : jsstring :=
  Upload.join R uploadDir (Upload.newFilename file).

(** The form is parsed, [file] is its file, the input is valid, and the
    file is read as [data] and written to the uploads directory, the
    caller's world going from [o] to [o']. *)
Definition received (o : W) (form : Upload.Form) (file : Upload.File)
           (name : jsstring) (data : Upload.Buffer) (o' : W) : Prop :=
  exists o1 o2 o3,
    Upload.form_parse V o = (inr form, o1)
    /\ hd_error (match Upload.files_file form with
                 | Some files => files
                 | None => []
                 end) = Some file
    /\ Upload.fileName_input form file = Some name
    /\ existsb (jsstring_eqb (Upload.documentType_input form))
               Upload.documentTypes = true
    /\ Upload.mkdir V uploadDir o1 = (inr tt, o2)
    /\ Upload.read_stream V (Upload.filepath file) o2 = (inr data, o3)
    /\ Upload.writeFile V (filePath file) data o3 = (inr tt, o').

(** The calls made while the upload is received, latest first. *)
Definition receiving (file : Upload.File) (data : Upload.Buffer)
  : list Upload.event :=
  [Upload.WriteFile (filePath file) data;
   Upload.ReadStream (Upload.filepath file);
   Upload.Mkdir uploadDir;
   Upload.FormParse].

(** What [process] does once the upload is received. *)
Definition analyse_and_store (E : host) (validated : Upload.Validated)
           (file : Upload.File) : Upload.M W Upload.answer :=
  Upload.bind
    (Upload.stage "Failed to extract text from document"
       (Upload.extractTextFromFile V R (filePath file) (Upload.mimetype file)))
    (fun text =>
       Upload.bind
         (Upload.stage "Failed to analyze document"
            (Upload.call (Upload.Analyze text)
                         (Upload.analyzeFinancialDocument V text)))
         (fun analysis =>
            Upload.bind (Upload.default_user V R)
              (fun defaultUser =>
                 Upload.bind
                   (Upload.default_category V R (Upload.user_id defaultUser))
                   (fun defaultCategory =>
                      Upload.bind
                        (Upload.save_document V E validated file defaultUser
                                              defaultCategory analysis)
                        (fun document =>
                           Upload.ret
                             (Upload.ok document
                                        (Upload.analysis_summary analysis))))))).

(** The computation throws nothing but instances of [Error] built by the
    handler. *)
Definition plain_failures (A : Type) (m : Upload.M W A) : Prop :=
  forall w e, fst (m w) = inl e -> exists message, e = Upload.JsError message.

(** The computation adds calls to the record, each of them as [P]
    says. *)
Definition adds (P : Upload.event -> Prop) (A : Type) (m : Upload.M W A)
  : Prop :=
  forall w,
    exists evs,
      Upload.trace (snd (m w)) = evs ++ Upload.trace w /\ Forall P evs.

(** An answer 200 with a document, sent after a call to the store. *)
Definition document_stored (a : Upload.answer) (w : Upload.world W) : Prop :=
  Upload.status a = 200
  /\ (exists doc summary,
        Upload.body_of a
        = Upload.Body (Saved doc summary (transactions_or_empty doc)))
  /\ exists c evs, Upload.trace w = Upload.Store c :: evs.

End UploadVocabulary.

(** Sample services: the caller's world counts the calls; the upload
    has the type [mimeType]; the category is created by someone else
    in the meantime when [race] is set. *)
Definition example_file (mimeType : jsstring) : Upload.File :=
  {| Upload.originalFilename := Some (str "statement.png");
     Upload.mimetype := Some mimeType;
     Upload.size := 2048;
     Upload.filepath := str "/tmp/upload_1";
     Upload.newFilename := str "upload_1.png" |}.

Definition example_form (mimeType : jsstring) : Upload.Form :=
  {| Upload.fields_fileName := Some [str "statement.png"];
     Upload.fields_documentType := Some [str "RECEIPT"];
     Upload.files_file := Some [example_file mimeType] |}.

Definition example_store : persistence nat :=
  {| create_with_transactions :=
       fun data txs n =>
         (inr ({| id := str "doc-1"; stored := data |},
               List.map (fun t => {| row_id := str "tx"; row := t |}) txs),
          S n);
     create_document :=
       fun data n => (inr {| id := str "doc-1"; stored := data |}, S n) |}.

Definition example_services (mimeType : jsstring) (race : bool)
  : Upload.services nat :=
  {| Upload.form_parse := fun n => (inr (example_form mimeType), S n);
     Upload.mkdir := fun _ n => (inr tt, S n);
     Upload.read_stream := fun _ n => (inr [137; 80; 78; 71]%N, S n);
     Upload.writeFile := fun _ _ n => (inr tt, S n);
     Upload.createWorker := fun n => (inr 7, S n);
     Upload.reinitialize := fun _ n => (inr tt, S n);
     Upload.setParameters := fun _ n => (inr tt, S n);
     Upload.recognize :=
       fun _ _ n => (inr (str "Acc0un7 1234 - 567 - 890", 42%float), S n);
     Upload.terminate := fun _ n => (inr tt, S n);
     Upload.analyzeFinancialDocument :=
       fun _ n => (inr {| Upload.analysis_summary := VNull;
                          Upload.analysis_transactions := example_batch;
                          Upload.analysis_objects := example_objects |}, S n);
     Upload.user_findFirst :=
       fun n => (inr (Some {| Upload.user_id := str "usr" |}), S n);
     Upload.user_create := fun n => (inr {| Upload.user_id := str "usr" |}, S n);
     Upload.category_findFirst :=
       fun _ n =>
         (inr (if race && Nat.ltb 0 n
               then Some {| Upload.category_id := str "cat" |}
               else None), S n);
     Upload.category_create :=
       fun _ n =>
         (if race
          then inl (Upload.JsError
                      (str "Unique constraint failed on the fields: (`name`)"))
          else inr {| Upload.category_id := str "cat" |}, S n);
     Upload.documents := example_store |}.

Definition example_runtime : Upload.runtime :=
  {| Upload.cwd := str "/app";
     Upload.join := fun a b => a ++ str "/" ++ b;
     Upload.expected_string := str "Expected string, received null";
     Upload.invalid_enum_value := fun _ => str "Invalid enum value";
     Upload.zod_error_message := fun _ => str "[]";
     Upload.syntax_error_message := fun _ => str "Invalid regular expression";
     Upload.type_error_message :=
       str "Cannot read properties of null (reading 'startsWith')" |}.

Definition example_world : Upload.world nat := Upload.World 0 [] example_state.

(** The computation answers 200 after a call to the store, or throws an
    error of the handler's. *)
Definition settles (W : Type) (m : Upload.M W Upload.answer) : Prop :=
  forall w,
    match m w with
    | (inr a, w') => document_stored a w'
    | (inl e, _) => exists message, e = Upload.JsError message
    end.

(** The five answers of the handler. *)
Definition method_not_allowed : Upload.answer :=
  {| Upload.status := 405;
     Upload.body_of := Upload.ErrorBody (str "Method not allowed") |}.

Definition no_file_uploaded : Upload.answer :=
  {| Upload.status := 400;
     Upload.body_of := Upload.ErrorBody (str "No file uploaded") |}.

Definition invalid_input (issues : list Upload.issue) : Upload.answer :=
  {| Upload.status := 400;
     Upload.body_of := Upload.InvalidBody (str "Invalid input data") issues |}.

Definition failed_with (details : jsstring) : Upload.answer :=
  {| Upload.status := 500;
     Upload.body_of :=
       Upload.Body (Failed (str "Failed to process document") details) |}.

(** The answer to a failure of the stage that reports [details]. *)
Definition failed (details : string) : Upload.answer :=
  failed_with (str details).

(** A form whose document type is not one of the four. *)
Definition example_bad_form : Upload.Form :=
  {| Upload.fields_fileName := None;
     Upload.fields_documentType := Some [str "PAYSLIP"];
     Upload.files_file := Some [example_file (str "image/png")] |}.

(** [V] with another form. *)
Definition with_form (form : Upload.Form) (V : Upload.services nat)
  : Upload.services nat :=
  {| Upload.form_parse := fun n => (inr form, S n);
     Upload.mkdir := Upload.mkdir V;
     Upload.read_stream := Upload.read_stream V;
     Upload.writeFile := Upload.writeFile V;
     Upload.createWorker := Upload.createWorker V;
     Upload.reinitialize := Upload.reinitialize V;
     Upload.setParameters := Upload.setParameters V;
     Upload.recognize := Upload.recognize V;
     Upload.terminate := Upload.terminate V;
     Upload.analyzeFinancialDocument := Upload.analyzeFinancialDocument V;
     Upload.user_findFirst := Upload.user_findFirst V;
     Upload.user_create := Upload.user_create V;
     Upload.category_findFirst := Upload.category_findFirst V;
     Upload.category_create := Upload.category_create V;
     Upload.documents := Upload.documents V |}.

(** [V] with an analysis that fails. *)
Definition without_analysis (V : Upload.services nat) : Upload.services nat :=
  {| Upload.form_parse := Upload.form_parse V;
     Upload.mkdir := Upload.mkdir V;
     Upload.read_stream := Upload.read_stream V;
     Upload.writeFile := Upload.writeFile V;
     Upload.createWorker := Upload.createWorker V;
     Upload.reinitialize := Upload.reinitialize V;
     Upload.setParameters := Upload.setParameters V;
     Upload.recognize := Upload.recognize V;
     Upload.terminate := Upload.terminate V;
     Upload.analyzeFinancialDocument :=
       fun _ n => (inl (Upload.JsError (str "quota exceeded")), S n);
     Upload.user_findFirst := Upload.user_findFirst V;
     Upload.user_create := Upload.user_create V;
     Upload.category_findFirst := Upload.category_findFirst V;
     Upload.category_create := Upload.category_create V;
     Upload.documents := Upload.documents V |}.

(** A call to the store as the handler means it: a complete document,
    and with it a non-empty list of well-formed transactions filed under
    the document's user. *)
Definition sound_call (c : call) : Prop :=
  match c with
  | CreateWithTransactions data txs =>
      status data = str "COMPLETED"
      /\ txs <> []
      /\ Forall well_formed txs
      /\ Forall (fun t => Transaction.userId t = userId data) txs
  | CreateDocument data => status data = str "COMPLETED"
  end.

Definition sound_event (ev : Upload.event) : Prop :=
  match ev with
  | Upload.Store c => sound_call c
  | _ => True
  end.

(** *** The document page *)

(** A transaction the page can show: its three dates are valid and its
    category is there. *)
Definition showable (tx : Page.TransactionRecord) : Prop :=
  is_invalid (Page.tx_date tx) = false
  /\ Page.tx_category tx <> None
  /\ is_invalid (Page.tx_createdAt tx) = false
  /\ is_invalid (Page.tx_updatedAt tx) = false.

Definition presentable (document : Page.DocumentRecord) : Prop :=
  is_invalid (Page.doc_createdAt document) = false
  /\ is_invalid (Page.doc_updatedAt document) = false
  /\ Forall showable (Page.doc_transactions document).

(** A document with one transaction, dated [d]. *)
Definition example_document (d : Date) : Page.DocumentRecord :=
  {| Page.doc_id := str "doc-1";
     Page.doc_fileName := str "statement.png";
     Page.doc_fileType := str "image/png";
     Page.doc_fileSize := 2048;
     Page.doc_status := str "COMPLETED";
     Page.doc_userId := str "usr";
     Page.doc_createdAt := Some 1793534400123%Z;
     Page.doc_updatedAt := Some 1793534400123%Z;
     Page.doc_transactions :=
       [{| Page.tx_id := str "tx-1";
           Page.tx_date := d;
           Page.tx_description := str "Coffee";
           Page.tx_amount := 4.5%float;
           Page.tx_type := str "EXPENSE";
           Page.tx_category :=
             Some {| Page.category_id := str "cat";
                     Page.category_name := str "Uncategorized" |};
           Page.tx_userId := str "usr";
           Page.tx_createdAt := Some 1793534400123%Z;
           Page.tx_updatedAt := Some 1793534400123%Z |}] |}.

(** *** The uploader *)

(** The network, when the upload handler answers the request. *)
Definition served (W : Type) (V : Upload.services W) (E : host)
           (R : Upload.runtime)
  : Uploader.FormData -> Upload.world W
    -> (Uploader.thrown + Upload.answer) * Upload.world W :=
  fun _ w =>
    let (a, w') := Upload.handler V E R (Some (str "POST")) w in (inr a, w').

Definition example_uploader : Uploader.state :=
  Uploader.State (Some {| Uploader.name := str "statement.png";
                          Uploader.bytes := [137; 80; 78; 71]%N |})
                 false None (str "BANK_STATEMENT").

(** *** The test upload *)

(** The answer after which the loop goes on: a response that is ok. *)
Definition accepted (x : TestUpload.exchange) : bool :=
  match snd x with
  | inr response => TestUpload.ok response
  | inl _ => false
  end.

(** Sample data: three transactions, and a server that refuses the
    second request it gets: the world counts the calls, and the first
    request is the third call, after the extraction and the analysis. *)
Definition example_transactions : list TestUpload.Transaction :=
  [ {| TestUpload.date := str "2026-10-28"; TestUpload.description := str "Rent";
       TestUpload.amount := 900%float; TestUpload.type := str "EXPENSE";
       TestUpload.category := str "Housing" |};
    {| TestUpload.date := str "2026-10-29"; TestUpload.description := str "Coffee";
       TestUpload.amount := 4.5%float; TestUpload.type := str "EXPENSE";
       TestUpload.category := str "Food" |};
    {| TestUpload.date := str "2026-10-30"; TestUpload.description := str "Salary";
       TestUpload.amount := 3000%float; TestUpload.type := str "INCOME";
       TestUpload.category := str "Work" |} ].

Definition refusing_second
  : TestUpload.CreateRequest -> nat -> (TestUpload.thrown + TestUpload.Response) * nat :=
  fun _ n =>
    (inr {| TestUpload.ok := negb (Nat.eqb n 3);
            TestUpload.statusText := str "Bad Request";
            TestUpload.json_error := inr (Some (str "Invalid category")) |},
     S n).

Definition example_test_upload : TestUpload.state unit unit :=
  TestUpload.State (Some tt) [] None false None.

(** ** The matcher *)

Section GreedyFacts.
Variable R : Type.
Variable p : char -> bool.
Variable k : jsstring -> jsstring -> option R.

Lemma greedy_sound :
  forall s lo hi taken r,
    greedy p k lo hi taken s = Some r ->
    exists piece rest,
      s = piece ++ rest
      /\ forallb p piece = true
      /\ lo <= List.length piece
      /\ match hi with Some h => List.length piece <= h | None => True end
      /\ k (rev taken ++ piece) rest = Some r.
Proof.
  induction s as [|c s IH]; intros lo hi taken r H; simpl in H.
  - destruct lo; [|discriminate].
    exists [], []. rewrite (app_nil_r (rev taken)). simpl. repeat split; auto.
    destruct hi; simpl; lia.
  - assert (Hstop :
      match lo with O => k (rev taken) (c :: s) | S _ => None end = Some r ->
      exists piece rest,
        c :: s = piece ++ rest /\ forallb p piece = true
        /\ lo <= List.length piece
        /\ match hi with Some h => List.length piece <= h | None => True end
        /\ k (rev taken ++ piece) rest = Some r).
    { intros Hs. destruct lo; [|discriminate].
      exists [], (c :: s). rewrite (app_nil_r (rev taken)). simpl. repeat split; auto.
      destruct hi; simpl; lia. }
    destruct (p c) eqn:Hpc; simpl in H; [|auto].
    destruct (may_take hi) eqn:Hmt; simpl in H; [|auto].
    destruct (greedy p k (pred lo) (option_map pred hi) (c :: taken) s) eqn:Hg;
      [|auto].
    inversion H; subst r0. clear H.
    apply IH in Hg. destruct Hg as (piece & rest & Hs & Hp & Hlo & Hhi & Hk).
    exists (c :: piece), rest. simpl. rewrite Hpc, Hp. repeat split.
    + now rewrite Hs.
    + lia.
    + destruct hi as [[|h]|]; simpl in *; try discriminate; try lia; auto.
    + simpl in Hk. now rewrite <- app_assoc in Hk.
Qed.

End GreedyFacts.

Lemma match_here_sound :
  forall r s caps rest,
    match_here r s = Some (caps, rest) ->
    exists ps,
      pieces_of r ps /\ s = List.concat ps ++ rest /\ caps = captured r ps.
Proof.
  induction r as [|a r IH]; intros s caps rest H; simpl in H.
  - inversion H; subst. exists []. simpl. auto.
  - apply greedy_sound in H.
    destruct H as (piece & rest0 & Hs & Hp & Hlo & Hhi & Hk).
    simpl in Hk.
    destruct (match_here r rest0) as [[caps' rest']|] eqn:Hm; [|discriminate].
    inversion Hk; subst. clear Hk.
    apply IH in Hm. destruct Hm as (ps & Hps & Hrest & Hcaps).
    exists (piece :: ps). simpl. repeat split; auto.
    + now rewrite <- app_assoc, <- Hrest.
    + now rewrite Hcaps.
Qed.

Lemma excluded_class_sound :
  forall cl c,
    excluded_class cl = true -> in_class cl c = true -> plain_char c = false.
Proof.
  intros cl c Hx Hin. destruct cl as [d| | | |cs]; simpl in *.
  - unfold char_eqb in Hin. apply N.eqb_eq in Hin. subst d.
    now apply negb_true_iff in Hx.
  - discriminate.
  - unfold plain_char. now rewrite Hin.
  - unfold plain_char. rewrite Hin. apply andb_false_r.
  - apply existsb_exists in Hin. destruct Hin as (d & Hd & Heq).
    unfold char_eqb in Heq. apply N.eqb_eq in Heq. subst d.
    rewrite forallb_forall in Hx. specialize (Hx _ Hd).
    now apply negb_true_iff in Hx.
Qed.

Lemma plain_app :
  forall a b, plain (a ++ b) = true -> plain a = true /\ plain b = true.
Proof.
  intros a b H. unfold plain in *. rewrite forallb_app in H.
  now apply andb_true_iff in H.
Qed.

Lemma pieces_plain_no_excluded :
  forall r ps,
    pieces_of r ps -> plain (List.concat ps) = true ->
    needs_excluded r = false.
Proof.
  induction r as [|a r IH]; intros ps Hps Hplain; [reflexivity|].
  destruct ps as [|p ps]; simpl in Hps; [contradiction|].
  destruct Hps as ((Hcls & Hlo & _) & Hps).
  simpl in Hplain. apply plain_app in Hplain. destruct Hplain as (Hp & Hrest).
  simpl. rewrite (IH _ Hps Hrest), orb_false_r.
  destruct (excluded_class (cls a)) eqn:Hx; [|reflexivity]. simpl.
  destruct (qmin a) as [|n]; [reflexivity|].
  destruct p as [|c p]; [simpl in Hlo; lia|].
  simpl in Hcls, Hp. apply andb_true_iff in Hcls. apply andb_true_iff in Hp.
  rewrite (excluded_class_sound _ _ Hx (proj1 Hcls)) in Hp.
  destruct Hp; discriminate.
Qed.

(** A pattern that needs a letter or a white-space character does not
    match inside plain text. *)
Lemma match_here_plain_none :
  forall r s,
    needs_excluded r = true -> plain s = true -> match_here r s = None.
Proof.
  intros r s Hr Hs.
  destruct (match_here r s) as [[caps rest]|] eqn:Hm; [|reflexivity].
  apply match_here_sound in Hm. destruct Hm as (ps & Hps & Heq & _).
  subst s. apply plain_app in Hs.
  rewrite (pieces_plain_no_excluded _ _ Hps (proj1 Hs)) in Hr. discriminate.
Qed.

Section ReplaceIdentity.
Variable r : regex.
Variable tpl : list titem.
Hypothesis expand_matched :
  forall s caps rest,
    plain s = true -> match_here r s = Some (caps, rest) ->
    exists m, s = m ++ rest /\ expand tpl m caps = m.

(** When every match is rewritten to itself, the global replacement
    leaves the text as it is. *)
Lemma replace_from_identity :
  forall s skip, plain s = true -> replace_from r tpl skip s = skipn skip s.
Proof.
  induction s as [|c s IH]; intros skip Hs.
  - destruct skip; [|reflexivity]. simpl.
    destruct (match_here r []) as [[caps rest]|] eqn:Hm; [|reflexivity].
    destruct (expand_matched _ Hs Hm) as (m & Heq & Hex).
    symmetry in Heq. apply app_eq_nil in Heq. destruct Heq; subst. simpl.
    exact Hex.
  - assert (Hs' : plain s = true)
      by (simpl in Hs; now apply andb_true_iff in Hs).
    destruct skip as [|k]; [|simpl; now apply IH].
    cbn [replace_from skipn].
    destruct (match_here r (c :: s)) as [[caps rest]|] eqn:Hm.
    + destruct (expand_matched _ Hs Hm) as (m & Heq & Hex).
      assert (Hn : List.length (c :: s) - List.length rest = List.length m).
      { rewrite Heq, length_app. lia. }
      rewrite Hn.
      assert (Hfirst : firstn (List.length m) (c :: s) = m).
      { rewrite Heq. rewrite firstn_app, Nat.sub_diag, firstn_all.
        simpl. apply app_nil_r. }
      rewrite Hfirst, Hex.
      destruct m as [|c' m]; simpl.
      * now rewrite IH.
      * rewrite IH by assumption. simpl in Heq. inversion Heq; subst.
        f_equal. f_equal.
        rewrite skipn_app, skipn_all, Nat.sub_diag. reflexivity.
    + now rewrite IH.
Qed.

End ReplaceIdentity.

Lemma replace_plain_no_match :
  forall r template s,
    needs_excluded r = true -> plain s = true -> replace r template s = s.
Proof.
  intros r template s Hr Hs. unfold replace.
  rewrite replace_from_identity; auto.
  intros s0 caps rest Hs0 Hm.
  rewrite (match_here_plain_none _ _ Hr Hs0) in Hm. discriminate.
Qed.

Lemma space_piece_plain :
  forall w, forallb is_space w = true -> plain w = true -> w = [].
Proof.
  intros [|c w] Hw Hp; [reflexivity|]. simpl in *.
  apply andb_true_iff in Hw. apply andb_true_iff in Hp.
  destruct Hw as (Hc & _). destruct Hp as (Hc' & _).
  unfold plain_char in Hc'. rewrite Hc in Hc'. discriminate.
Qed.

Lemma literal_piece :
  forall c h,
    forallb (in_class (CLit c)) h = true ->
    1 <= List.length h -> List.length h <= 1 -> h = [c].
Proof.
  intros c [|x [|y h]] Hh Hlo Hhi; simpl in *; try lia.
  rewrite andb_true_r in Hh. unfold char_eqb in Hh.
  apply N.eqb_eq in Hh. now subst.
Qed.

(** The two account-number patterns rewrite a match without white space
    to itself. *)
Lemma account_match_identity :
  forall r,
    r = re_account_433 \/ r = re_account_344 ->
    forall s caps rest,
      plain s = true -> match_here r s = Some (caps, rest) ->
      exists m,
        s = m ++ rest /\ expand (parse_template (str "$1-$2-$3")) m caps = m.
Proof.
  intros r Hr s caps rest Hs Hm.
  apply match_here_sound in Hm. destruct Hm as (ps & Hps & Heq & Hcaps).
  exists (List.concat ps). split; [assumption|].
  subst s. apply plain_app in Hs. destruct Hs as (Hs & _).
  destruct Hr; subst r;
    destruct ps as [|p1 [|w1 [|h1 [|w2 [|p2 [|w3 [|h2 [|w4 [|p3 [|x ps]]]]]]]]]];
    simpl in Hps; try tauto;
    destruct Hps as (_ & (Hw1 & _) & (Hh1 & Hh1lo & Hh1hi) & (Hw2 & _) & _
                     & (Hw3 & _) & (Hh2 & Hh2lo & Hh2hi) & (Hw4 & _) & _ & _);
    simpl in Hs;
    repeat (apply plain_app in Hs;
            let H := fresh "Hp" in destruct Hs as (H & Hs));
    rewrite (space_piece_plain w1), (space_piece_plain w2),
      (space_piece_plain w3), (space_piece_plain w4) in * by assumption;
    rewrite (literal_piece _ _ Hh1 Hh1lo Hh1hi),
      (literal_piece _ _ Hh2 Hh2lo Hh2hi) in *;
    subst caps; simpl; now rewrite !app_nil_r.
Qed.

Lemma fix_account_numbers_plain :
  forall s, plain s = true -> fix_account_numbers s = s.
Proof.
  intros s Hs. unfold fix_account_numbers, replace.
  rewrite (replace_from_identity _ _
             (account_match_identity (or_introl eq_refl))) by assumption.
  simpl.
  now rewrite (replace_from_identity _ _
                 (account_match_identity (or_intror eq_refl))) by assumption.
Qed.

Lemma fix_spacing_plain :
  forall s, plain s = true -> fix_spacing s = s.
Proof.
  intros s Hs. unfold fix_spacing.
  repeat match goal with
         | |- context [replace ?r ?t s] =>
             rewrite (@replace_plain_no_match r t s eq_refl Hs)
         end.
  reflexivity.
Qed.

Lemma fix_dates_plain :
  forall s, plain s = true -> fix_dates s = s.
Proof.
  intros s Hs. unfold fix_dates.
  repeat match goal with
         | |- context [replace ?r ?t s] =>
             rewrite (@replace_plain_no_match r t s eq_refl Hs)
         end.
  reflexivity.
Qed.

Lemma apply_replacements_plain :
  forall entries s,
    forallb literal_key_ok entries = true -> plain s = true ->
    apply_replacements entries s = inr s.
Proof.
  induction entries as [|[wrong correct] entries IH]; intros s Hk Hs;
    [reflexivity|].
  simpl in Hk. apply andb_true_iff in Hk. destruct Hk as (Hk & Hks).
  unfold literal_key_ok in Hk. simpl in Hk. simpl.
  destruct (RegExp (str wrong)) as [re|]; [|discriminate].
  rewrite replace_plain_no_match by assumption. simpl. now apply IH.
Qed.

Lemma replacements_need_letters :
  forallb literal_key_ok (Object_entries replacements) = true.
Proof. vm_compute. reflexivity. Qed.

(** Plain text is a fixed point of the normalizer. *)
Lemma cleanText_plain :
  forall s, plain s = true -> cleanText s = inr s.
Proof.
  intros s Hs. unfold cleanText.
  rewrite (apply_replacements_plain _ _ replacements_need_letters Hs). simpl.
  now rewrite fix_spacing_plain, fix_dates_plain, fix_account_numbers_plain.
Qed.

Lemma digit_group_text_plain :
  forall s, digit_group_text s = true -> plain s = true.
Proof.
  intros s H. unfold digit_group_text, plain in *.
  rewrite forallb_forall in *. intros c Hc. specialize (H c Hc).
  unfold digit_group_char, plain_char, is_digit, is_space, is_alpha,
    is_upper, is_lower, char_eqb in *.
  apply orb_true_iff in H.
  repeat rewrite ?N.leb_le, ?N.eqb_eq, ?andb_true_iff in H.
  apply andb_true_iff. split; apply negb_true_iff;
    repeat (apply orb_false_iff; split);
    try (apply andb_false_iff);
    repeat rewrite ?N.leb_gt, ?N.eqb_neq; lia.
Qed.

(** ** The normalizer: properties *)

(** No key of [replacements] is repeated and none is an array index, so
    [Object.entries] enumerates the table in the order it is written. *)
Lemma replacements_in_source_order :
  distinct_keys replacements = true
  /\ existsb (fun e => is_array_index_key (fst e)) replacements = false.
Proof. vm_compute. split; reflexivity. Qed.

Lemma replacements_parse :
  forallb parses (Object_entries replacements) = true.
Proof. vm_compute. reflexivity. Qed.

Lemma apply_replacements_total :
  forall entries,
    forallb parses entries = true ->
    forall text, exists out, apply_replacements entries text = inr out.
Proof.
  induction entries as [|[wrong correct] entries IH]; intros Hp text.
  - exists text. reflexivity.
  - simpl in Hp. apply andb_true_iff in Hp. destruct Hp as (Hp & Hps).
    unfold parses in Hp. simpl in Hp. simpl.
    destruct (RegExp (str wrong)) as [re|]; [|discriminate]. simpl.
    apply IH. assumption.
Qed.

(** C1 (the code departs from the claim): on the input
    "Acc0un75ummary R0ya1 8ank" [cleanText] returns
    "Account5ummary Royal Bank", which does not contain
    "Account Summary Royal Bank".  The entry for Acc0un7 comes before the
    entry for Acc0un75ummary in the table, so the shorter pattern has
    already rewritten the text the longer one needed. *)
Theorem cleanText_account_summary_shadowed :
  cleanText (str "Acc0un75ummary R0ya1 8ank")
  = inr (str "Account5ummary Royal Bank")
  /\ includes (str "Account5ummary Royal Bank")
              (str "Account Summary Royal Bank") = false.
Proof. split; vm_compute; reflexivity. Qed.

(** The entry for Acc0un75ummary does rewrite the input when it is
    applied to it directly; in table order it comes too late, since the
    entry for Acc0un7 has left nothing for it to match. *)
Lemma account_summary_entry_comes_too_late :
  apply_replacement (str "Acc0un75ummary R0ya1 8ank")
                    ("Acc0un75ummary", "Account Summary")
  = inr (str "Account Summary R0ya1 8ank")
  /\ apply_replacement (str "Acc0un75ummary R0ya1 8ank") ("Acc0un7", "Account")
     = inr (str "Account5ummary R0ya1 8ank")
  /\ apply_replacement (str "Account5ummary R0ya1 8ank")
                       ("Acc0un75ummary", "Account Summary")
     = inr (str "Account5ummary R0ya1 8ank").
Proof. vm_compute. repeat split; reflexivity. Qed.

(** C7: [cleanText] is total and deterministic: on every input string it
    returns a string, never an exception, and that string is the only
    result a run on this input can have. *)
Theorem cleanText_total_deterministic :
  forall text : jsstring,
    exists out : jsstring,
      cleanText text = inr out
      /\ forall r : result jsstring, cleanText text = r -> r = inr out.
Proof.
  intros text. unfold cleanText.
  destruct (apply_replacements_total _ replacements_parse text) as (t1 & Ht1).
  rewrite Ht1. simpl.
  eexists. split; [reflexivity|].
  intros r Hr. now subst r.
Qed.

(** C7 on a line of a statement. *)
Lemma cleanText_total_deterministic_witness :
  exists out : jsstring,
    cleanText (str "Opening 8a1ance 1 200.50") = inr out
    /\ forall r : result jsstring,
        cleanText (str "Opening 8a1ance 1 200.50") = r -> r = inr out.
Proof.
  exact (cleanText_total_deterministic (str "Opening 8a1ance 1 200.50")).
Defined.

(** C8: on well-formed digit-group text that is already correctly
    spaced (digits grouped by hyphens, no white space) the normalizer is
    idempotent: normalizing the normalized text gives the same text. *)
Theorem cleanText_idempotent_on_digit_groups :
  forall x : jsstring,
    digit_group_text x = true ->
    exists y : jsstring, cleanText x = inr y /\ cleanText y = inr y.
Proof.
  intros x Hx. apply digit_group_text_plain in Hx.
  exists x. split; now apply cleanText_plain.
Qed.

(** Away from such text the normalizer need not be idempotent: each run
    joins one more pair of digits. *)
Lemma cleanText_not_idempotent_on_spaced_digits :
  cleanText (str "1 2 3") = inr (str "12 3")
  /\ cleanText (str "12 3") = inr (str "123").
Proof. vm_compute. split; reflexivity. Qed.

(** C8 on an account number. *)
Lemma cleanText_idempotent_on_digit_groups_witness :
  digit_group_text (str "1234-567-890") = true
  /\ exists y : jsstring,
      cleanText (str "1234-567-890") = inr y /\ cleanText y = inr y.
Proof.
  split.
  - vm_compute. reflexivity.
  - apply (cleanText_idempotent_on_digit_groups (str "1234-567-890")).
    vm_compute. reflexivity.
Defined.

(** ** The calendar *)

Unset Implicit Arguments.

Section CalendarFacts.
Local Open Scope Z_scope.

Lemma all_from_spec n f :
  forall z0, all_from n z0 f = true ->
  forall z, z0 <= z < z0 + Z.of_nat n -> f z = true.
Proof.
  induction n as [|k IH]; intros z0 H z Hz; [lia|].
  simpl in H. apply andb_true_iff in H. destruct H as (Hk & H).
  destruct (Z.eq_dec z z0) as [->|Hne]; [assumption|].
  apply (IH (z0 + 1)); [assumption|lia].
Qed.

(** Each of the 146097 days of an era passes the check. *)
Lemma era_check_all : all_from (N.to_nat 146097) 0 era_check = true.
Proof. vm_compute. reflexivity. Qed.

Lemma era_check_true doe : 0 <= doe < 146097 -> era_check doe = true.
Proof.
  intros H. apply (all_from_spec _ _ _ era_check_all).
  rewrite N_nat_Z. lia.
Qed.

Lemma is_leap_year_era y e : is_leap_year (y + e * 400) = is_leap_year y.
Proof.
  unfold is_leap_year.
  replace (y + e * 400) with (y + (e * 100) * 4) at 1 by lia.
  replace (y + e * 400) with (y + (e * 4) * 100) at 1 by lia.
  now rewrite !Z_mod_plus_full.
Qed.

Lemma days_in_month_era y e m : days_in_month (y + e * 400) m = days_in_month y m.
Proof. unfold days_in_month. now rewrite is_leap_year_era. Qed.

Lemma civil_roundtrip z :
  let '(y, m, d) := civil_from_days z in
  1 <= m <= 12 /\ 1 <= d <= days_in_month y m /\ days_from_civil y m d = z.
Proof.
  unfold civil_from_days.
  set (z' := z + 719468).
  set (era := z' / 146097).
  set (doe := z' - era * 146097).
  assert (Hdoe : 0 <= doe < 146097).
  { subst doe era. pose proof (Z.div_mod z' 146097 ltac:(lia)).
    pose proof (Z.mod_pos_bound z' 146097 ltac:(lia)). lia. }
  pose proof (era_check_true doe Hdoe) as Hc. unfold era_check in Hc.
  set (yoe := (doe - doe / 1460 + doe / 36524 - doe / 146096) / 365) in *.
  set (doy := doe - (365 * yoe + yoe / 4 - yoe / 100)) in *.
  set (mp := (5 * doy + 2) / 153) in *.
  set (d := doy - (153 * mp + 2) / 5 + 1) in *.
  set (m := if mp <? 10 then mp + 3 else mp - 9) in *.
  repeat (apply andb_true_iff in Hc; destruct Hc as (Hc & ?)).
  repeat match goal with H : (_ <=? _) = true |- _ => apply Z.leb_le in H end.
  assert (Hm : 1 <= m <= 12) by (subst m; destruct (mp <? 10) eqn:E; [apply Z.ltb_lt in E|apply Z.ltb_ge in E]; lia).
  assert (Hy : (if m <=? 2 then yoe + era * 400 + 1 else yoe + era * 400)
               = (if m <=? 2 then yoe + 1 else yoe) + era * 400)
    by (destruct (m <=? 2); lia).
  rewrite Hy, days_in_month_era.
  split; [exact Hm|]. split; [lia|].
  unfold days_from_civil.
  assert (Hadj : (if m <=? 2 then (if m <=? 2 then yoe + 1 else yoe) + era * 400 - 1
                  else (if m <=? 2 then yoe + 1 else yoe) + era * 400) = yoe + era * 400)
    by (destruct (m <=? 2); lia).
  rewrite Hadj.
  assert (Hera : (yoe + era * 400) / 400 = era).
  { rewrite Z.div_add by lia. rewrite Z.div_small by lia. lia. }
  rewrite Hera.
  assert (Hmp : (if 2 <? m then m - 3 else m + 9) = mp).
  { subst m. destruct (mp <? 10) eqn:E; [apply Z.ltb_lt in E|apply Z.ltb_ge in E].
    - replace (2 <? mp + 3) with true by (symmetry; apply Z.ltb_lt; lia). lia.
    - replace (2 <? mp - 9) with false by (symmetry; apply Z.ltb_ge; lia). lia. }
  rewrite Hmp.
  replace (yoe + era * 400 - era * 400) with yoe by lia.
  subst d doy doe z'. lia.
Qed.

Lemma days_in_month_le y m : days_in_month y m <= 31.
Proof.
  unfold days_in_month.
  destruct (m =? 2); [destruct (is_leap_year y); lia|].
  destruct ((m =? 4) || (m =? 6) || (m =? 9) || (m =? 11)); lia.
Qed.

Lemma days_from_civil_year_bounds y m d :
  1 <= m <= 12 -> 1 <= d <= 31 ->
  (-719528 <= days_from_civil y m d < 2932897 -> 0 <= y <= 9999)
  /\ (-100000000 <= days_from_civil y m d <= 100000000 ->
      -271821 <= y <= 275760).
Proof.
  intros Hm Hd. unfold days_from_civil.
  destruct (m <=? 2) eqn:E1; [apply Z.leb_le in E1|apply Z.leb_gt in E1];
  (destruct (2 <? m) eqn:E2; [apply Z.ltb_lt in E2|apply Z.ltb_ge in E2]);
  try lia; split; intros H; Z.div_mod_to_equations; lia.
Qed.

(** A four-digit year, for the days of the years 0000 to 9999; a year of
    at most six digits, for every day in the range of time values. *)
Lemma civil_year_range z :
  let '(y, m, d) := civil_from_days z in
  (-719528 <= z < 2932897 -> 0 <= y <= 9999)
  /\ (-100000000 <= z <= 100000000 -> -271821 <= y <= 275760).
Proof.
  pose proof (civil_roundtrip z) as H.
  destruct (civil_from_days z) as [[y m] d].
  destruct H as (Hm & Hd & Heq).
  pose proof (days_in_month_le y m).
  destruct (days_from_civil_year_bounds y m d) as (H4 & H6); [lia|lia|].
  rewrite Heq in H4, H6. split; assumption.
Qed.

Lemma digit_value_digit_char j :
  0 <= j <= 9 -> digit_value (digit_char j) = Some j.
Proof.
  intros Hj. unfold digit_value, digit_char, is_digit.
  replace ((48 <=? 48 + Z.to_N j)%N && (48 + Z.to_N j <=? 57)%N) with true.
  - f_equal. lia.
  - symmetry. apply andb_true_iff. split; apply N.leb_le; lia.
Qed.

Lemma number_of_digits_snoc s c :
  forall acc,
    number_of_digits acc (s ++ [c]) =
    match number_of_digits acc s, digit_value c with
    | Some v, Some d => Some (10 * v + d)
    | _, _ => None
    end.
Proof.
  induction s as [|x s IH]; intros acc; simpl.
  - destruct (digit_value c); reflexivity.
  - destruct (digit_value x); [apply IH|reflexivity].
Qed.

Lemma number_of_digits_digits n :
  forall k, 0 <= k < 10 ^ Z.of_nat n ->
            number_of_digits 0 (digits n k) = Some k.
Proof.
  induction n as [|n IH]; intros k Hk.
  - simpl in *. f_equal. lia.
  - cbn [digits]. rewrite number_of_digits_snoc.
    rewrite Nat2Z.inj_succ, Z.pow_succ_r in Hk by lia.
    rewrite IH by (Z.div_mod_to_equations; lia).
    rewrite digit_value_digit_char by (Z.div_mod_to_equations; lia).
    f_equal. Z.div_mod_to_equations; lia.
Qed.

Lemma digits_are_digits n :
  forall k c, In c (digits n k) -> is_digit c = true.
Proof.
  induction n as [|n IH]; intros k c Hc; simpl in Hc; [contradiction|].
  apply in_app_or in Hc. destruct Hc as [Hc|[<-|[]]]; [eauto|].
  unfold is_digit, digit_char.
  pose proof (Z.mod_pos_bound k 10 ltac:(lia)).
  apply andb_true_iff. split; apply N.leb_le; lia.
Qed.

Lemma split_first_app sep a b :
  (forall c, In c a -> char_eqb c sep = false) ->
  split_first sep (a ++ sep :: b) = a.
Proof.
  induction a as [|x a IH]; intros H; simpl.
  - unfold char_eqb. now rewrite N.eqb_refl.
  - rewrite (H x (or_introl eq_refl)). f_equal. apply IH.
    intros c Hc. apply H. now right.
Qed.

Lemma app_assoc5 (A : Type) (a b c d e f : list A) :
  a ++ b ++ c ++ d ++ e ++ f = (a ++ b ++ c ++ d ++ e) ++ f.
Proof. now rewrite <- !app_assoc. Qed.

Lemma year_string_chars y c :
  In c (year_string y) -> char_eqb c 84%N = false.
Proof.
  unfold year_string. intros Hc.
  assert (Hcd : is_digit c = true \/ c = 45%N \/ c = 43%N).
  { destruct ((0 <=? y) && (y <=? 9999)).
    - left. eapply digits_are_digits; eassumption.
    - apply in_app_or in Hc. destruct Hc as [Hc|Hc].
      + right. destruct (y <? 0); destruct Hc as [<-|[]]; auto.
      + left. eapply digits_are_digits; eassumption. }
  unfold char_eqb. apply N.eqb_neq. unfold is_digit in Hcd.
  destruct Hcd as [Hd|[->| ->]]; try discriminate.
  apply andb_true_iff in Hd. destruct Hd as (H1 & H2).
  apply N.leb_le in H1, H2. lia.
Qed.

Lemma today_string_digits t :
  let '(y, m, d) := civil_from_days (Day t) in
  today_string t = year_string y ++ str "-" ++ digits 2 m ++ str "-" ++ digits 2 d.
Proof.
  unfold today_string, toISOString.
  destruct (civil_from_days (Day t)) as [[y m] d].
  rewrite app_assoc5.
  apply (split_first_app 84%N
           (year_string y ++ str "-" ++ digits 2 m ++ str "-" ++ digits 2 d)).
  intros c Hc. change (str "-") with [45%N] in Hc.
  rewrite !in_app_iff in Hc. cbn [In] in Hc.
  destruct Hc as [Hc|[[Hc|[]]|[Hc|[[Hc|[]]|Hc]]]];
    try (eapply year_string_chars; eassumption);
    try (subst c; reflexivity);
    apply digits_are_digits in Hc; unfold char_eqb; apply N.eqb_neq;
    unfold is_digit in Hc; apply andb_true_iff in Hc; destruct Hc as (H1 & H2);
    apply N.leb_le in H1, H2; lia.
Qed.

Lemma parse_date_only_digits y m d :
  -999999 <= y <= 999999 -> 0 <= m <= 99 -> 0 <= d <= 99 ->
  parse_date_only (year_string y ++ str "-" ++ digits 2 m ++ str "-" ++ digits 2 d)
  = make_date y m d.
Proof.
  intros Hy Hm Hd.
  pose proof (number_of_digits_digits 2 m ltac:(simpl; lia)) as Em.
  pose proof (number_of_digits_digits 2 d ltac:(simpl; lia)) as Ed.
  cbn [digits app] in Em, Ed.
  unfold year_string.
  destruct ((0 <=? y) && (y <=? 9999)) eqn:H4.
  - apply andb_true_iff in H4. destruct H4 as (H0 & H9).
    apply Z.leb_le in H0, H9.
    pose proof (number_of_digits_digits 4 y ltac:(simpl; lia)) as Ey.
    cbn [digits app] in Ey.
    unfold parse_date_only. cbn [digits app]. change (str "-") with [45%N].
    cbn [app]. change (char_eqb 45%N 45%N) with true. cbn [andb].
    rewrite Ey, Em, Ed. cbn [Z.eqb andb]. f_equal.
    now rewrite Z.mul_1_l.
  - pose proof (number_of_digits_digits 6 (Z.abs y) ltac:(simpl; lia)) as Ey.
    cbn [digits app] in Ey.
    destruct (y <? 0) eqn:Hneg.
    + apply Z.ltb_lt in Hneg.
      unfold parse_date_only. cbn [digits app]. change (str "-") with [45%N].
      cbn [app]. change (char_eqb 45%N 45%N) with true.
      change (char_eqb 45%N 43%N) with false. cbn [andb].
      rewrite Ey, Em, Ed.
      replace (Z.abs y =? 0) with false by (symmetry; apply Z.eqb_neq; lia).
      rewrite andb_false_r. f_equal. lia.
    + apply Z.ltb_ge in Hneg.
      unfold parse_date_only. cbn [digits app]. change (str "-") with [45%N].
      change (str "+") with [43%N].
      cbn [app]. change (char_eqb 45%N 45%N) with true.
      change (char_eqb 43%N 43%N) with true. cbn [andb].
      rewrite Ey, Em, Ed. cbn [Z.eqb andb]. f_equal. lia.
Qed.

(** The date string written by the validator reads back as the midnight
    that starts the day of the clock reading. *)
Lemma parse_today_string t :
  -8640000000000000 <= t <= 8640000000000000 ->
  parse_date_only (today_string t) = Some (msPerDay * Day t).
Proof.
  intros Ht.
  assert (Hday : -100000000 <= Day t <= 100000000).
  { unfold Day, msPerDay. Z.div_mod_to_equations. lia. }
  pose proof (today_string_digits t) as Hs.
  pose proof (civil_roundtrip (Day t)) as Hr.
  pose proof (civil_year_range (Day t)) as Hy.
  destruct (civil_from_days (Day t)) as [[y m] d].
  destruct Hr as (Hm & Hd & Heq). destruct Hy as (_ & Hy). specialize (Hy Hday).
  pose proof (days_in_month_le y m).
  rewrite Hs, parse_date_only_digits by lia.
  unfold make_date.
  replace ((1 <=? m) && (m <=? 12) && (1 <=? d) && (d <=? days_in_month y m))
    with true
    by (symmetry; repeat (apply andb_true_iff; split); apply Z.leb_le; lia).
  rewrite Heq. unfold TimeClip.
  replace (Z.abs (msPerDay * Day t) <=? 8640000000000000) with true;
    [reflexivity|].
  symmetry. apply Z.leb_le. unfold msPerDay in *. lia.
Qed.

End CalendarFacts.

Set Implicit Arguments.

(** ** The validator: lemmas *)

Lemma update_same (h : heap) r tx : update h r tx r = tx.
Proof. unfold update. now rewrite Nat.eqb_refl. Qed.

Lemma update_other (h : heap) r tx r' : r' <> r -> update h r tx r' = h r'.
Proof.
  intros H. unfold update. apply Nat.eqb_neq in H. now rewrite H.
Qed.

Lemma existsb_same (A : Type) (f g : A -> bool) (l : list A) :
  (forall a, f a = g a) -> existsb f l = existsb g l.
Proof.
  intros H. induction l as [|a l IH]; [reflexivity|].
  cbn [existsb]. now rewrite H, IH.
Qed.

(** Unfold the state operations of a callback and read back the
    object just assigned to. *)
Ltac callback_norm Hobj :=
  repeat first
    [ progress cbn [negb andb orb fst snd objects ticks console is_invalid
                    Candidate.date Candidate.description Candidate.amount
                    Candidate.type Candidate.category Candidate.set_type
                    Candidate.set_date Candidate.set_description
                    interpolate ref_of app]
    | progress unfold next, attempt, get, put, warn_about, outcome, effect,
        finish, use_todays_date, read_clock, assign, warn, now
    | rewrite update_same
    | rewrite Hobj ].

Section CallbackFacts.
Variable E : host.

Lemma properties_object st tx r :
  ref_of tx = Some r -> properties st tx = objects st r.
Proof. intros H. unfold properties. now rewrite H. Qed.

Lemma hazardous_object st tx r :
  ref_of tx = Some r -> hazardous E st tx = hazard E (objects st r).
Proof.
  intros H. unfold hazardous. rewrite (@properties_object st tx r H).
  destruct tx; try discriminate; reflexivity.
Qed.

(** On [null] and [undefined] the callback throws at once. *)
Lemma filter_callback_null tx st :
  tx = VNull \/ tx = VUndefined -> filter_callback E tx st = (Throws, st).
Proof. intros [-> | ->]; reflexivity. Qed.

(** A primitive has no amount: it is dropped. *)
Lemma filter_callback_primitive tx st :
  ref_of tx = None -> tx <> VNull -> tx <> VUndefined ->
  filter_callback E tx st
  = (Returns false, warn (SkippingInvalidAmount VUndefined) st).
Proof.
  intros Href Hn Hu. destruct tx; try discriminate; try congruence; reflexivity.
Qed.

(** A candidate that needs a warning about a description that has no
    string: the callback throws, and has changed nothing. *)
Lemma filter_callback_throws tx r st :
  ref_of tx = Some r ->
  hazard E (objects st r) = true ->
  filter_callback E tx st = (Throws, st).
Proof.
  intros Href Hz. unfold hazard, printable, valid_type, parses_as_date in Hz.
  unfold filter_callback.
  destruct (objects st r) as [d ds a ty c] eqn:Hobj.
  cbn [Candidate.date Candidate.description Candidate.amount Candidate.type] in *.
  destruct ds; try discriminate Hz. cbn [interpolate negb andb] in Hz.
  destruct tx; try discriminate Href; injection Href as ->;
    destruct (invalid_amount a) eqn:Ha;
    destruct (is_literal ty "INCOME") eqn:Hi, (is_literal ty "EXPENSE") eqn:He;
    destruct (new_Date E d) as [[t|]|] eqn:Hd; try discriminate Hz;
    repeat first [ rewrite Hobj | rewrite Hd | rewrite Hi | rewrite He
                 | rewrite Ha | progress callback_norm Hobj ];
    reflexivity.
Qed.

(** A candidate whose amount is not a number: it is dropped, with a
    warning. *)
Lemma filter_callback_drop tx r st :
  ref_of tx = Some r ->
  invalid_amount (Candidate.amount (objects st r)) = true ->
  printable (Candidate.description (objects st r)) = true ->
  filter_callback E tx st
  = (Returns false,
     warn (SkippingInvalidAmount (Candidate.description (objects st r))) st).
Proof.
  intros Href Ha Hp. unfold filter_callback, printable in *.
  destruct (objects st r) as [d ds a ty c] eqn:Hobj.
  cbn [Candidate.date Candidate.description Candidate.amount Candidate.type] in *.
  destruct tx; try discriminate Href; injection Href as ->;
    destruct ds; try discriminate Hp;
    repeat first [ rewrite Hobj | rewrite Ha | progress callback_norm Hobj ];
    reflexivity.
Qed.

(** The callback on a candidate with a numeric amount: it is kept, and
    the heap holds the fixed candidate in its place. *)
Lemma filter_callback_keep tx r st :
  ref_of tx = Some r ->
  invalid_amount (Candidate.amount (objects st r)) = false ->
  hazard E (objects st r) = false ->
  exists st',
    filter_callback E tx st = (Returns true, st')
    /\ (forall r', objects st' r'
                   = update (objects st) r (fix_candidate E (ticks st) (objects st r)) r')
    /\ ticks st' = (if parses_as_date E (Candidate.date (objects st r))
                    then ticks st else S (ticks st))
    /\ console st' = fix_warnings E (objects st r) ++ console st.
Proof.
  intros Href Ha Hz.
  unfold hazard, printable in Hz. unfold filter_callback.
  unfold fix_candidate, fix_type, fix_description, fix_date, fix_warnings,
    valid_type, bad_description, parses_as_date in *.
  destruct (objects st r) as [d ds a ty c] eqn:Hobj.
  cbn [Candidate.date Candidate.description Candidate.amount Candidate.type
       Candidate.category] in *.
  rewrite Ha in Hz. cbn [orb] in Hz.
  destruct tx; try discriminate Href; injection Href as ->;
    destruct (is_literal ty "INCOME") eqn:Hi, (is_literal ty "EXPENSE") eqn:He;
    destruct (new_Date E d) as [[t|]|] eqn:Hd;
    destruct ds as [| |b| |[|ch s]| |];
    try discriminate Hz;
    try (destruct b);
    repeat first [ rewrite Hobj | rewrite Hd | rewrite Hi | rewrite He
                 | rewrite Ha | rewrite orb_true_r
                 | progress cbn [typeof_string truthy]
                 | progress callback_norm Hobj ];
    (eexists; split; [reflexivity|]);
    (split; [intros r'; cbn [objects]; unfold update;
             destruct (Nat.eqb_spec r' r) as [->|];
             rewrite ?Hobj; reflexivity|]);
    (split; reflexivity).
Qed.

Lemma hazard_printable tx :
  printable (Candidate.description tx) = true -> hazard E tx = false.
Proof. intros H. unfold hazard. now rewrite H. Qed.

Lemma printable_fix_description v : printable (fix_description v) = true.
Proof.
  unfold fix_description, bad_description.
  destruct v as [| |b| |[|c s]| |]; try reflexivity.
  - destruct b; reflexivity.
  - cbn [typeof_string negb]. rewrite orb_true_r. reflexivity.
Qed.

(** The three ways the callback goes on an array element. *)
Lemma filter_callback_cases tx st :
  (hazardous E st tx = true /\ filter_callback E tx st = (Throws, st))
  \/ (hazardous E st tx = false /\ numeric_amount st tx = false
      /\ filter_callback E tx st
         = (Returns false,
            warn (SkippingInvalidAmount
                    (Candidate.description (properties st tx))) st))
  \/ (hazardous E st tx = false /\ numeric_amount st tx = true
      /\ exists r st',
          ref_of tx = Some r
          /\ filter_callback E tx st = (Returns true, st')
          /\ (forall r', objects st' r'
                         = update (objects st) r
                                  (fix_candidate E (ticks st) (objects st r)) r')
          /\ ticks st' = (if parses_as_date E (Candidate.date (objects st r))
                          then ticks st else S (ticks st))
          /\ console st' = fix_warnings E (objects st r) ++ console st).
Proof.
  destruct (ref_of tx) as [r|] eqn:Href.
  - unfold numeric_amount.
    rewrite (@hazardous_object st tx r Href), (@properties_object st tx r Href).
    destruct (hazard E (objects st r)) eqn:Hz.
    + left. split; [reflexivity|]. now apply filter_callback_throws with r.
    + right. destruct (invalid_amount (Candidate.amount (objects st r))) eqn:Ha.
      * left. split; [reflexivity|]. split; [reflexivity|].
        apply filter_callback_drop; [assumption|assumption|].
        unfold hazard in Hz. rewrite Ha in Hz. cbn [orb] in Hz.
        rewrite andb_true_r in Hz. now apply negb_false_iff in Hz.
      * right. split; [reflexivity|]. split; [reflexivity|].
        destruct (@filter_callback_keep tx r st Href Ha Hz) as (st' & H).
        exists r, st'. split; [reflexivity|exact H].
  - destruct tx; try discriminate Href.
    + left. split; reflexivity.
    + left. split; reflexivity.
    + right. left. repeat split; reflexivity.
    + right. left. repeat split; reflexivity.
    + right. left. repeat split; reflexivity.
Qed.

(** What a kept candidate leaves for the elements that follow. *)
Lemma properties_after_keep st st1 r0 c :
  (forall r', objects st1 r' = update (objects st) r0 c r') ->
  forall v,
    properties st1 v = (match ref_of v with
                        | Some r => if Nat.eqb r r0 then c else objects st r
                        | None => no_properties
                        end).
Proof.
  intros Hobj v. unfold properties. destruct (ref_of v) as [r|]; [|reflexivity].
  rewrite Hobj. reflexivity.
Qed.

Lemma numeric_after_keep st st1 r0 n :
  (forall r', objects st1 r'
              = update (objects st) r0 (fix_candidate E n (objects st r0)) r') ->
  forall v, numeric_amount st1 v = numeric_amount st v.
Proof.
  intros Hobj v. unfold numeric_amount.
  rewrite (@properties_after_keep st st1 _ _ Hobj). unfold properties.
  destruct (ref_of v) as [r|]; [|reflexivity].
  destruct (Nat.eqb_spec r r0) as [->|]; reflexivity.
Qed.

Lemma hazardous_after_keep st st1 r0 n :
  hazard E (objects st r0) = false ->
  (forall r', objects st1 r'
              = update (objects st) r0 (fix_candidate E n (objects st r0)) r') ->
  forall v, hazardous E st1 v = hazardous E st v.
Proof.
  intros Hz Hobj v. unfold hazardous.
  rewrite (@properties_after_keep st st1 _ _ Hobj). unfold properties.
  destruct v as [| | | | |o|o]; try reflexivity; cbn [ref_of];
    (destruct (Nat.eqb_spec o r0) as [->|]; [|reflexivity]);
    rewrite Hz; apply hazard_printable; apply printable_fix_description.
Qed.

Lemma fixed_from_refl lo hi tx : fixed_from E lo hi tx tx.
Proof. unfold fixed_from. tauto. Qed.

Lemma fixed_from_weaken lo hi lo' hi' tx tx' :
  lo' <= lo -> hi <= hi' ->
  fixed_from E lo hi tx tx' -> fixed_from E lo' hi' tx tx'.
Proof.
  intros Hlo Hhi (Ha & Hc & Ht & Hd & Hs). repeat split; auto.
  destruct Hd as [Hd|(Hp & k & Hk & Hd)]; [now left|right].
  split; [assumption|]. exists k. split; [lia|assumption].
Qed.

Lemma fixed_from_trans lo mid hi tx tx' tx'' :
  lo <= mid -> mid <= hi ->
  fixed_from E lo mid tx tx' -> fixed_from E mid hi tx' tx'' ->
  fixed_from E lo hi tx tx''.
Proof.
  intros Hlo Hhi (Ha & Hc & Ht & Hd & Hs) (Ha' & Hc' & Ht' & Hd' & Hs').
  repeat split.
  - congruence.
  - congruence.
  - destruct Ht' as [Ht'|(Hv & Ht')].
    + rewrite Ht'. exact Ht.
    + destruct Ht as [Ht|(Hv0 & Ht)].
      * right. split; congruence.
      * rewrite Ht in Hv. discriminate.
  - destruct Hd' as [Hd'|(Hp & k & Hk & Hd')].
    + rewrite Hd'. destruct Hd as [Hd|(Hp & k & Hk & Hd)]; [now left|right].
      split; [assumption|]. exists k. split; [lia|assumption].
    + right. split.
      * destruct Hd as [Hd|(Hp0 & _)]; congruence.
      * exists k. split; [lia|assumption].
  - destruct Hs' as [Hs'|(Hb & Hs')].
    + rewrite Hs'. exact Hs.
    + destruct Hs as [Hs|(Hb0 & Hs)].
      * right. split; congruence.
      * rewrite Hs in Hb. discriminate.
Qed.

Lemma fixed_from_fix_candidate n tx :
  fixed_from E n
             (if parses_as_date E (Candidate.date tx) then n else S n)
             tx (fix_candidate E n tx).
Proof.
  unfold fixed_from, fix_candidate, fix_type, fix_date, fix_description. simpl.
  repeat split.
  - destruct (valid_type (Candidate.type tx)); auto.
  - destruct (parses_as_date E (Candidate.date tx)); [now left|right].
    split; [reflexivity|]. exists n. split; [lia|reflexivity].
  - destruct (bad_description (Candidate.description tx)); auto.
Qed.

Lemma sanitized_fix_candidate n tx :
  invalid_amount (Candidate.amount tx) = false ->
  sanitized (fix_candidate E n tx).
Proof.
  intros Ha. unfold sanitized, fix_candidate, fix_type, fix_description. simpl.
  repeat split; [assumption| |].
  - destruct (valid_type (Candidate.type tx)) eqn:H; [assumption|reflexivity].
  - destruct (bad_description (Candidate.description tx)) eqn:H;
      [reflexivity|assumption].
Qed.

Lemma sanitized_fixed_from lo hi tx tx' :
  sanitized tx -> fixed_from E lo hi tx tx' -> sanitized tx'.
Proof.
  intros (Ha & Ht & Hs) (Ha' & _ & Ht' & _ & Hs'). repeat split.
  - congruence.
  - destruct Ht' as [Ht'|(Hv & _)]; congruence.
  - destruct Hs' as [Hs'|(Hb & _)]; congruence.
Qed.

Lemma fixed_to_fix_candidate n tx :
  fixed_to E n
           (if parses_as_date E (Candidate.date tx) then n else S n)
           tx (fix_candidate E n tx).
Proof.
  unfold fixed_to, fix_candidate, fix_date. simpl.
  repeat split.
  destruct (parses_as_date E (Candidate.date tx)); [reflexivity|].
  exists n. split; [lia|reflexivity].
Qed.

(** A candidate fixed once stays the fixed candidate, up to its date,
    which stays the ISO date of a clock reading. *)
Lemma fixed_to_then_from lo mid hi tx tx' tx'' :
  lo <= mid -> mid <= hi ->
  fixed_to E lo mid tx tx' -> sanitized tx' ->
  fixed_from E mid hi tx' tx'' ->
  fixed_to E lo hi tx tx''.
Proof.
  intros Hlo Hhi (Ha & Hc & Ht & Hs & Hd) (_ & Hvt & Hbd)
         (Ha' & Hc' & Ht' & Hd' & Hs').
  repeat split.
  - congruence.
  - congruence.
  - destruct Ht' as [Ht'|(Hv & _)]; congruence.
  - destruct Hs' as [Hs'|(Hb & _)]; congruence.
  - destruct (parses_as_date E (Candidate.date tx)) eqn:Hp.
    + destruct Hd' as [Hd'|(Hn & _)]; congruence.
    + destruct Hd as (k & Hk & Hd).
      destruct Hd' as [Hd'|(_ & k' & Hk' & Hd')].
      * exists k. split; [lia|congruence].
      * exists k'. split; [lia|assumption].
Qed.

(** Any run of [filter], whether it returns or throws: the clock only
    advances, and every candidate is as it was or fixed. *)
Lemma filter_frame txs :
  forall st,
    let st' := snd (filter E txs st) in
    ticks st <= ticks st'
    /\ (forall r, fixed_from E (ticks st) (ticks st') (objects st r) (objects st' r))
    /\ rejectedCount st <= rejectedCount st'.
Proof.
  induction txs as [|tx txs IH]; intros st.
  - simpl. repeat split; auto using fixed_from_refl.
  - cbn [filter]. unfold next.
    destruct (filter_callback_cases tx st)
      as [(_ & ->)|[(_ & _ & ->)|(_ & _ & r & st1 & Href & -> & Hobj & Htick & Hcon)]].
    + simpl. repeat split; auto using fixed_from_refl.
    + set (st1 := warn _ st). specialize (IH st1).
      destruct (filter E txs st1) as [[kept|] st2];
        cbv beta iota zeta delta [fst snd finish] in *;
        (destruct IH as (Ht & Hf & Hr);
         split; [exact Ht|]; split; [exact Hf|];
         assert (rejectedCount st1 = S (rejectedCount st)) by reflexivity; lia).
    + assert (Hle : ticks st <= ticks st1)
        by (rewrite Htick; destruct (parses_as_date E _); lia).
      assert (Hstep : forall r', fixed_from E (ticks st) (ticks st1)
                                   (objects st r') (objects st1 r')).
      { intros r'. rewrite Hobj. unfold update.
        destruct (Nat.eqb_spec r' r) as [->|Hne].
        - rewrite Htick. apply fixed_from_fix_candidate.
        - apply fixed_from_refl. }
      assert (Hrej : rejectedCount st1 = rejectedCount st).
      { unfold rejectedCount. rewrite Hcon, filter_app.
        replace (List.filter _ (fix_warnings E (objects st r))) with (@nil warning);
          [reflexivity|].
        unfold fix_warnings.
        destruct (bad_description _), (new_Date E _) as [[t|]|], (valid_type _);
          reflexivity. }
      specialize (IH st1).
      destruct (filter E txs st1) as [[kept|] st2];
        cbv beta iota zeta delta [fst snd finish] in *;
        (destruct IH as (Ht & Hf & Hr);
         split; [lia|]; split; [|lia];
         intros r'; eapply fixed_from_trans;
         [exact Hle|exact Ht|apply Hstep|apply Hf]).
Qed.

(** [filter] throws exactly on a batch with an element the callback
    throws on. *)
Lemma filter_throws_iff txs :
  forall st,
    (exists st', filter E txs st = (Throws, st'))
    <-> existsb (hazardous E st) txs = true.
Proof.
  induction txs as [|tx txs IH]; intros st.
  - simpl. split; [intros (st' & H); discriminate|discriminate].
  - cbn [filter existsb]. unfold next.
    destruct (filter_callback_cases tx st)
      as [(Hz & ->)|[(Hz & _ & ->)|(Hz & _ & r & st1 & Href & -> & Hobj & _)]];
      rewrite Hz; cbn [orb].
    + split; [reflexivity|]. intros _. now exists st.
    + set (st1 := warn _ st).
      rewrite <- (@existsb_same _ (hazardous E st1) (hazardous E st) txs)
        by reflexivity.
      rewrite <- (IH st1).
      destruct (filter E txs st1) as [[kept|] st2]; unfold finish;
        split; intros (st' & H);
        first [discriminate H | (exists st'; exact H)].
    + rewrite <- (@existsb_same _ (hazardous E st1) (hazardous E st) txs).
      2:{ intros v. apply hazardous_after_keep with r (ticks st); [|exact Hobj].
          rewrite <- (@hazardous_object st tx r Href). exact Hz. }
      rewrite <- (IH st1).
      destruct (filter E txs st1) as [[kept|] st2]; unfold finish;
        split; intros (st' & H);
        first [discriminate H | (exists st'; exact H)].
Qed.

Lemma filter_returns txs st :
  existsb (hazardous E st) txs = false ->
  exists kept st', filter E txs st = (Returns kept, st').
Proof.
  intros H. destruct (filter E txs st) as [[kept|] st'] eqn:Hf.
  - now exists kept, st'.
  - assert (Ht : existsb (hazardous E st) txs = true)
      by (apply filter_throws_iff; now exists st').
    congruence.
Qed.

(** A run of [filter] that returns: it keeps the candidates with a
    numeric amount, in order, and leaves each of them fixed in the
    heap. *)
Lemma filter_spec txs :
  forall st kept st',
    filter E txs st = (Returns kept, st') ->
    kept = List.filter (numeric_amount st) txs
    /\ (kept = [] -> ticks st' = ticks st)
    /\ (forall v, In v kept ->
                  exists r, ref_of v = Some r
                            /\ sanitized (objects st' r)
                            /\ fixed_to E (ticks st) (ticks st')
                                        (objects st r) (objects st' r))
    /\ (forall r, (forall v, In v kept -> ref_of v <> Some r) ->
                  objects st' r = objects st r)
    /\ rejectedCount st' + List.length kept = rejectedCount st + List.length txs.
Proof.
  induction txs as [|tx txs IH]; intros st kept st' Hrun.
  - injection Hrun as <- <-. simpl. repeat split; auto; contradiction.
  - cbn [filter] in Hrun. unfold next in Hrun.
    pose proof (filter_frame txs) as Hframe.
    destruct (filter_callback_cases tx st)
      as [(_ & Hcb)|[(_ & Hn & Hcb)|(_ & Hn & r & st1 & Href & Hcb & Hobj & Htick & Hcon)]];
      rewrite Hcb in Hrun; [discriminate| |].
    + set (st1 := warn _ st) in *.
      destruct (filter E txs st1) as [[kept1|] st2] eqn:Hf; [|discriminate].
      injection Hrun as <- <-.
      destruct (IH st1 kept1 st2 Hf) as (Hk & Ht0 & Hs & Hu & Hr).
      cbn [List.filter]. rewrite Hn.
      assert (Hrej1 : rejectedCount st1 = S (rejectedCount st)) by reflexivity.
      split; [exact Hk|]. split; [exact Ht0|]. split; [exact Hs|].
      split; [exact Hu|]. simpl. lia.
    + specialize (Hframe st1).
      destruct (filter E txs st1) as [[kept1|] st2] eqn:Hf; [|discriminate].
      injection Hrun as <- <-. cbn [fst snd] in Hframe.
      destruct Hframe as (Hle2 & Hfix2 & _).
      destruct (IH st1 kept1 st2 Hf) as (Hk & Ht0 & Hs & Hu & Hr).
      assert (Hle : ticks st <= ticks st1)
        by (rewrite Htick; destruct (parses_as_date E _); lia).
      assert (Ha : invalid_amount (Candidate.amount (objects st r)) = false).
      { unfold numeric_amount in Hn. rewrite (@properties_object st tx r Href) in Hn.
        now apply negb_true_iff in Hn. }
      assert (Hrej : rejectedCount st1 = rejectedCount st).
      { unfold rejectedCount. rewrite Hcon, filter_app.
        replace (List.filter _ (fix_warnings E (objects st r))) with (@nil warning);
          [reflexivity|].
        unfold fix_warnings.
        destruct (bad_description _), (new_Date E _) as [[t|]|], (valid_type _);
          reflexivity. }
      assert (Hhead : sanitized (objects st2 r)
                      /\ fixed_to E (ticks st) (ticks st2)
                                  (objects st r) (objects st2 r)).
      { assert (Hs1 : sanitized (objects st1 r))
          by (rewrite Hobj, update_same; now apply sanitized_fix_candidate).
        split; [eapply sanitized_fixed_from; [exact Hs1|apply Hfix2]|].
        eapply fixed_to_then_from; [exact Hle|exact Hle2| |exact Hs1|apply Hfix2].
        rewrite Hobj, update_same, Htick. apply fixed_to_fix_candidate. }
      cbn [List.filter]. rewrite Hn.
      split; [|split; [|split; [|split]]].
      * rewrite Hk. f_equal. apply filter_ext.
        intros v. apply numeric_after_keep with r (ticks st). exact Hobj.
      * discriminate.
      * intros v [<-|Hin]; [exists r; split; [exact Href|exact Hhead]|].
        destruct (Hs v Hin) as (r' & Hr' & Hsan & Hto).
        exists r'. split; [exact Hr'|].
        destruct (Nat.eq_dec r' r) as [->|Hne]; [exact Hhead|].
        split; [exact Hsan|].
        rewrite Hobj, update_other in Hto by exact Hne.
        destruct Hto as (H1 & H2 & H3 & H4 & H5). repeat split; auto.
        destruct (parses_as_date E (Candidate.date (objects st r')));
          [exact H5|].
        destruct H5 as (k & Hk5 & H5). exists k. split; [lia|exact H5].
      * intros r' Hnin.
        rewrite Hu by (intros v Hv; apply Hnin; now right).
        rewrite Hobj. apply update_other. intros ->.
        apply (Hnin tx); [now left|exact Href].
      * simpl. lia.
Qed.

(** The warnings of a run of [filter] that returns: one for each field
    fixed in a candidate kept, and one for each candidate dropped. *)
Lemma filter_warnings txs :
  forall st kept st',
    filter E txs st = (Returns kept, st') ->
    exists added,
      console st' = added ++ console st
      /\ (forall v r, In v kept -> ref_of v = Some r ->
                      incl (fix_warnings E (objects st r)) added)
      /\ (forall v, In v txs -> numeric_amount st v = false ->
                    In (SkippingInvalidAmount
                          (Candidate.description (properties st v))) added).
Proof.
  induction txs as [|tx txs IH]; intros st kept st' Hrun.
  - injection Hrun as <- <-. exists []. repeat split; intros; contradiction.
  - cbn [filter] in Hrun. unfold next in Hrun.
    destruct (filter_callback_cases tx st)
      as [(_ & Hcb)|[(_ & Hn & Hcb)|(_ & Hn & r & st1 & Href & Hcb & Hobj & Htick & Hcon)]];
      rewrite Hcb in Hrun; [discriminate| |].
    + set (st1 := warn _ st) in *.
      destruct (filter E txs st1) as [[kept1|] st2] eqn:Hf; [|discriminate].
      injection Hrun as <- <-.
      destruct (IH st1 kept1 st2 Hf) as (added & Hc & Hk & Hd).
      exists (added ++ [SkippingInvalidAmount
                          (Candidate.description (properties st tx))]).
      split; [rewrite Hc, <- app_assoc; reflexivity|]. split.
      * intros v r' Hin Hr'. apply incl_appl. now apply Hk with v.
      * intros v [<-|Hin] Hv; apply in_or_app; [right; now left|left].
        now apply Hd.
    + destruct (filter E txs st1) as [[kept1|] st2] eqn:Hf; [|discriminate].
      injection Hrun as <- <-.
      destruct (IH st1 kept1 st2 Hf) as (added & Hc & Hk & Hd).
      exists (added ++ fix_warnings E (objects st r)).
      split; [rewrite Hc, Hcon, <- app_assoc; reflexivity|]. split.
      * intros v r' Hin Hr'.
        destruct (Nat.eq_dec r' r) as [->|Hne]; [apply incl_appr, incl_refl|].
        destruct Hin as [<-|Hin]; [congruence|].
        apply incl_appl. specialize (Hk v r' Hin Hr').
        now rewrite Hobj, update_other in Hk by exact Hne.
      * intros v [<-|Hin] Hv; [congruence|].
        apply in_or_app. left.
        assert (Hv1 : numeric_amount st1 v = false)
          by (rewrite (@numeric_after_keep st st1 _ _ Hobj); exact Hv).
        specialize (Hd v Hin Hv1).
        rewrite (@properties_after_keep st st1 _ _ Hobj) in Hd.
        unfold properties. unfold numeric_amount, properties in Hv, Hn.
        rewrite Href in Hn.
        destruct (ref_of v) as [r1|]; [|exact Hd].
        destruct (Nat.eqb_spec r1 r) as [Heq|]; [|exact Hd].
        rewrite Heq in Hv. congruence.
Qed.

Section MapFacts.
Variables cat user : jsstring.

Lemma invalid_amount_false v :
  invalid_amount v = false <-> exists x, v = VNumber x /\ PrimFloat.is_nan x = false.
Proof.
  split.
  - destruct v; simpl; try discriminate. intros H. eauto.
  - intros (x & -> & H). exact H.
Qed.

Lemma bad_description_false v :
  bad_description v = false -> exists c s, v = VString (c :: s).
Proof.
  unfold bad_description. destruct v as [| | | |[|c s]| |]; simpl; try discriminate.
  - destruct b; discriminate.
  - destruct (negb _); discriminate.
  - eauto.
Qed.

Lemma bad_description_true v :
  bad_description v = true -> expected_description v = str "Unnamed transaction".
Proof.
  destruct v as [| | | |[|c s]| |]; simpl; try reflexivity. discriminate.
Qed.

(** The callback of [map] on a candidate as [filter] leaves it: it
    returns, and assigns nothing. *)
Lemma map_callback_spec tx r st :
  ref_of tx = Some r ->
  sanitized (objects st r) ->
  exists st',
    map_callback E cat user tx st
    = (Returns (transaction_of E cat user (ticks st) (objects st r)), st')
    /\ objects st' = objects st
    /\ ticks st' = (if parses_as_date E (Candidate.date (objects st r))
                    then ticks st else S (ticks st))
    /\ rejectedCount st' = rejectedCount st
    /\ exists added, console st' = added ++ console st.
Proof.
  intros Href (Ha & _ & Hs).
  apply invalid_amount_false in Ha. destruct Ha as (x & Hx & _).
  destruct (bad_description_false _ Hs) as (ch & s & Hd).
  unfold map_callback, transaction_of, parses_as_date.
  destruct (objects st r) as [d ds a ty c] eqn:Hobj.
  cbn [Candidate.date Candidate.description Candidate.amount Candidate.type] in *.
  subst a ds.
  destruct tx; try discriminate Href; injection Href as ->;
    destruct (new_Date E d) as [[t|]|] eqn:Hdate;
    repeat first [ rewrite Hobj | rewrite Hdate
                 | progress cbn [String_ number_of returned]
                 | progress callback_norm Hobj ];
    (eexists; split; [reflexivity|]);
    (split; [reflexivity|]); (split; [reflexivity|]); (split; [reflexivity|]);
    first [ exists []; reflexivity | eexists (cons _ nil); reflexivity ].
Qed.

(** [map] builds one transaction for each candidate, in order, and does
    not touch the heap. *)
Lemma map_spec kept :
  forall st,
    (forall v, In v kept ->
               exists r, ref_of v = Some r /\ sanitized (objects st r)) ->
    exists out st',
      map E cat user kept st = (Returns out, st')
      /\ objects st' = objects st
      /\ ticks st <= ticks st'
      /\ rejectedCount st' = rejectedCount st
      /\ (exists added, console st' = added ++ console st)
      /\ Forall2 (fun v t =>
                    exists n,
                      ticks st <= n
                      /\ (parses_as_date E (Candidate.date (properties st v)) = false
                          -> n < ticks st')
                      /\ t = transaction_of E cat user n (properties st v))
                 kept out.
Proof.
  induction kept as [|tx kept IH]; intros st Hall.
  - exists [], st. simpl. repeat split; auto. now exists [].
  - destruct (Hall tx (or_introl eq_refl)) as (r & Href & Hsan).
    destruct (@map_callback_spec tx r st Href Hsan)
      as (st1 & Hcb & Hobj & Htick & Hrej & (added1 & Hcon)).
    destruct (IH st1) as (ts & st2 & Hmap & Hobj2 & Hle & Hrej2 & (added2 & Hcon2) & Hf).
    { intros v Hv. rewrite Hobj. apply Hall. now right. }
    exists (transaction_of E cat user (ticks st) (objects st r) :: ts), st2.
    cbn [map]. unfold next. rewrite Hcb, Hmap.
    assert (Hle1 : ticks st <= ticks st1)
      by (rewrite Htick; destruct (parses_as_date E _); lia).
    split; [reflexivity|]. split; [congruence|]. split; [lia|].
    split; [congruence|].
    split; [exists (added2 ++ added1); rewrite Hcon2, Hcon, app_assoc; reflexivity|].
    constructor.
    + exists (ticks st). rewrite (@properties_object st tx r Href).
      split; [lia|]. split; [|reflexivity].
      intros Hp. rewrite Hp in Htick. lia.
    + eapply Forall2_impl; [|exact Hf].
      intros v t (n & Hn & Hlt & Heq).
      assert (Hpr : properties st1 v = properties st v)
        by (unfold properties; now rewrite Hobj).
      rewrite Hpr in *.
      exists n. split; [lia|]. split; assumption.
Qed.

(** The validator after its [filter] step: it throws when [filter]
    does; otherwise it returns the transactions of the candidates kept,
    or the default transaction. *)
Lemma validTransactions_after_filter txs st :
  match filter E txs st with
  | (Throws, st1) => validTransactions E cat user txs st = (Throws, st1)
  | (Returns kept, st1) =>
      exists out st',
        validTransactions E cat user txs st = (Returns out, st')
        /\ objects st' = objects st1
        /\ ticks st1 <= ticks st'
        /\ rejectedCount st' = rejectedCount st1
        /\ (exists added, console st' = added ++ console st1)
        /\ (kept = [] ->
            out = [default_transaction cat user (clock E (ticks st1))])
        /\ (kept <> [] ->
            Forall2 (fun v t =>
                       exists n,
                         ticks st1 <= n
                         /\ (parses_as_date E (Candidate.date (properties st1 v)) = false
                             -> n < ticks st')
                         /\ t = transaction_of E cat user n (properties st1 v))
                    kept out)
  end.
Proof.
  unfold validTransactions, next.
  destruct (filter E txs st) as [[kept|] st1] eqn:Hf; [|reflexivity].
  destruct (filter_spec txs st Hf) as (_ & _ & Hsan & _).
  destruct (@map_spec kept st1) as (out & st2 & Hmap & Hobj & Hle & Hrej & Hcon & Hall).
  { intros v Hv. destruct (Hsan v Hv) as (r & Hr & Hs & _). now exists r. }
  rewrite Hmap. destruct kept as [|v kept].
  - inversion Hall; subst. cbn [map finish] in Hmap. injection Hmap as <-.
    eexists. eexists. split; [reflexivity|].
    cbn [objects ticks console now warn fst snd].
    split; [reflexivity|]. split; [lia|]. split; [reflexivity|].
    split; [now exists [NoValidTransactions]|].
    split; [reflexivity|congruence].
  - inversion Hall; subst. exists (y :: l'), st2.
    split; [reflexivity|]. split; [exact Hobj|]. split; [exact Hle|].
    split; [exact Hrej|]. split; [exact Hcon|].
    split; [discriminate|]. intros _. exact Hall.
Qed.

(** The validator throws exactly on a batch with an element the
    [filter] callback throws on. *)
Lemma validTransactions_throws_iff txs st :
  (exists st', validTransactions E cat user txs st = (Throws, st'))
  <-> existsb (hazardous E st) txs = true.
Proof.
  rewrite <- filter_throws_iff.
  pose proof (validTransactions_after_filter txs st) as H.
  destruct (filter E txs st) as [[kept|] st1].
  - destruct H as (out & st' & -> & _).
    split; intros (s & Hs); discriminate.
  - rewrite H. split; intros _; now exists st1.
Qed.

(** The validator as a whole on a batch it does not throw on, in terms
    of the candidates kept. *)
Lemma validTransactions_spec txs st :
  existsb (hazardous E st) txs = false ->
  let kept := List.filter (numeric_amount st) txs in
  exists out st',
    validTransactions E cat user txs st = (Returns out, st')
    /\ (forall r, fixed_from E (ticks st) (ticks st') (objects st r) (objects st' r))
    /\ (forall r, (forall v, In v kept -> ref_of v <> Some r) ->
                  objects st' r = objects st r)
    /\ rejectedCount st' + List.length kept = rejectedCount st + List.length txs
    /\ (kept = [] -> out = [default_transaction cat user (clock E (ticks st))])
    /\ (kept <> [] ->
        exists st1,
          filter E txs st = (Returns kept, st1)
          /\ ticks st <= ticks st1 /\ ticks st1 <= ticks st'
          /\ objects st' = objects st1
          /\ (forall r, fixed_from E (ticks st) (ticks st1) (objects st r) (objects st1 r))
          /\ (forall v, In v kept ->
                        exists r, ref_of v = Some r
                                  /\ sanitized (objects st1 r)
                                  /\ fixed_to E (ticks st) (ticks st1)
                                              (objects st r) (objects st1 r))
          /\ Forall2 (fun v t =>
                        exists n,
                          ticks st1 <= n
                          /\ (parses_as_date E (Candidate.date (properties st1 v)) = false
                              -> n < ticks st')
                          /\ t = transaction_of E cat user n (properties st1 v))
                     kept out).
Proof.
  intros Hz kept.
  destruct (filter_returns txs st Hz) as (kept1 & st1 & Hf).
  pose proof (validTransactions_after_filter txs st) as Hv. rewrite Hf in Hv.
  destruct Hv as (out & st' & Hrun & Hobj & Hle & Hrej & _ & Hnil & Hcons).
  pose proof (filter_frame txs st) as Hframe. rewrite Hf in Hframe.
  cbn [fst snd] in Hframe. destruct Hframe as (Ht & Hfix & _).
  destruct (filter_spec txs st Hf) as (Hk & Ht0 & Hsan & Hun & Hr).
  fold kept in Hk. subst kept1.
  exists out, st'. split; [exact Hrun|]. rewrite Hobj.
  split; [intros r; eapply fixed_from_weaken; [| |apply Hfix]; lia|].
  split; [exact Hun|]. split; [lia|].
  split; [intros Hempty; rewrite (Hnil Hempty), (Ht0 Hempty); reflexivity|].
  intros Hne. exists st1. split; [exact Hf|].
  split; [exact Ht|]. split; [exact Hle|]. split; [reflexivity|].
  split; [exact Hfix|]. split; [exact Hsan|]. now apply Hcons.
Qed.

Lemma Day_of_midnight q : Day (msPerDay * q) = q.
Proof.
  unfold Day, msPerDay. rewrite Z.mul_comm. apply Z.div_mul. lia.
Qed.

(** A fixed candidate becomes the transaction the claim describes. *)
Lemma transaction_of_survives tx0 txf lo mid hi n :
  clock_in_range E ->
  fixed_from E lo mid tx0 txf -> sanitized txf ->
  lo <= mid -> mid <= n -> mid <= hi ->
  (parses_as_date E (Candidate.date txf) = false -> n < hi) ->
  survives_as E cat user lo hi tx0 (transaction_of E cat user n txf).
Proof.
  intros Hclock (Ha & _ & Ht & Hd & Hs) (Hna & Hvt & Hbd) Hlo Hn Hhi Hlt.
  apply invalid_amount_false in Hna. destruct Hna as (x & Hx & Hnan).
  unfold survives_as, transaction_of. cbn [Transaction.amount Transaction.type
    Transaction.description Transaction.date Transaction.categoryId
    Transaction.userId].
  rewrite Hx. cbn [number_of returned]. rewrite Hnan.
  split; [congruence|]. split; [|split; [|split; [|split; reflexivity]]].
  - unfold expected_type. destruct Ht as [->|(Hv & ->)]; [reflexivity|].
    unfold valid_type in Hv. apply orb_false_iff in Hv. destruct Hv as (-> & _).
    reflexivity.
  - destruct (bad_description_false _ Hbd) as (c & s & Hdesc).
    destruct Hs as [Hs|(Hb & Hs)].
    + rewrite <- Hs, Hdesc. reflexivity.
    + rewrite Hs, (bad_description_true _ Hb). reflexivity.
  - destruct (new_Date E (Candidate.date tx0)) as [[t0|]|] eqn:Hd0.
    + destruct Hd as [->|(Hp & _)]; [now rewrite Hd0|].
      unfold parses_as_date in Hp. rewrite Hd0 in Hp. discriminate.
    + destruct (parses_as_date E (Candidate.date txf)) eqn:Hpf.
      * destruct Hd as [Hd|(_ & k & Hk & Hd)].
        { unfold parses_as_date in Hpf. rewrite Hd, Hd0 in Hpf. discriminate. }
        rewrite Hd. cbn [new_Date]. unfold Date_parse.
        rewrite (@parse_today_string _ (Hclock k)).
        exists k. split; [lia|]. eexists. split; [reflexivity|].
        apply Day_of_midnight.
      * exists n. split; [specialize (Hlt eq_refl); lia|].
        unfold parses_as_date in Hpf.
        destruct (new_Date E (Candidate.date txf)) as [[t|]|];
          [discriminate| |]; eexists; split; reflexivity.
    + destruct (parses_as_date E (Candidate.date txf)) eqn:Hpf.
      * destruct Hd as [Hd|(_ & k & Hk & Hd)].
        { unfold parses_as_date in Hpf. rewrite Hd, Hd0 in Hpf. discriminate. }
        rewrite Hd. cbn [new_Date]. unfold Date_parse.
        rewrite (@parse_today_string _ (Hclock k)).
        exists k. split; [lia|]. eexists. split; [reflexivity|].
        apply Day_of_midnight.
      * exists n. split; [specialize (Hlt eq_refl); lia|].
        unfold parses_as_date in Hpf.
        destruct (new_Date E (Candidate.date txf)) as [[t|]|];
          [discriminate| |]; eexists; split; reflexivity.
Qed.

End MapFacts.
End CallbackFacts.

Lemma Forall2_impl_in (A B : Type) (R S : A -> B -> Prop) l l' :
  (forall a b, In a l -> R a b -> S a b) -> Forall2 R l l' -> Forall2 S l l'.
Proof.
  intros H HF. induction HF as [|a b l l' Hab HF IH]; constructor.
  - apply H; [now left|assumption].
  - apply IH. intros a' b' Hin. apply H. now right.
Qed.

Lemma Forall2_right (A B : Type) (P : B -> Prop) (l : list A) l' :
  Forall2 (fun _ b => P b) l l' -> Forall P l'.
Proof. intros H. induction H; constructor; assumption. Qed.

Lemma numeric_amount_true st v :
  numeric_amount st v = true
  <-> exists r x, ref_of v = Some r
                  /\ Candidate.amount (objects st r) = VNumber x
                  /\ PrimFloat.is_nan x = false.
Proof.
  unfold numeric_amount, properties. rewrite negb_true_iff.
  destruct (ref_of v) as [r|].
  - rewrite invalid_amount_false. split.
    + intros (x & H). now exists r, x.
    + intros (r' & x & Hr & H). injection Hr as <-. now exists x.
  - split; [discriminate|]. intros (r & x & Hr & _). discriminate.
Qed.

Lemma well_formed_transaction_of E cat user n tx :
  sanitized tx -> well_formed (transaction_of E cat user n tx).
Proof.
  intros (Ha & Ht & Hd). unfold well_formed, transaction_of.
  cbn [Transaction.amount Transaction.type Transaction.description
       Transaction.date].
  apply invalid_amount_false in Ha. destruct Ha as (x & -> & Hnan).
  destruct (bad_description_false _ Hd) as (c & s & ->).
  cbn [number_of returned]. rewrite Hnan.
  split; [destruct (new_Date E (Candidate.date tx)) as [[t|]|]; reflexivity|].
  split; [destruct (is_literal (Candidate.type tx) "INCOME"); auto|].
  split; [exact Hnan|].
  cbn [String_ returned]. unfold substring0. split; [discriminate|].
  apply firstn_le_length.
Qed.

Lemma well_formed_default cat user t :
  well_formed (default_transaction cat user t).
Proof.
  unfold well_formed, default_transaction.
  cbn [Transaction.amount Transaction.type Transaction.description
       Transaction.date is_invalid].
  split; [reflexivity|]. split; [now right|]. split; [reflexivity|].
  split; [discriminate|].
  apply Nat.leb_le. vm_compute. reflexivity.
Qed.

(** ** The validator: properties *)

Lemma transaction_of_amount E cat user n tx :
  sanitized tx ->
  Candidate.amount tx = VNumber (Transaction.amount (transaction_of E cat user n tx)).
Proof.
  intros (Ha & _). apply invalid_amount_false in Ha.
  destruct Ha as (x & Hx & Hnan). unfold transaction_of.
  cbn [Transaction.amount]. rewrite Hx. cbn [number_of returned].
  now rewrite Hnan.
Qed.

Lemma example_batch_is_safe :
  existsb (hazardous example_host example_state) example_batch = false.
Proof. vm_compute. reflexivity. Qed.

(** C2, as stated, fails: the candidate whose amount is the string "42.5"
    is dropped, although [parseFloat] turns that string into the number
    42.5; the batch then yields the default transaction, of amount 100. *)
Lemma string_amount_is_dropped :
  PrimFloat.is_nan (parseFloat example_host (VString (str "42.5"))) = false
  /\ fst (filter example_host [VObject 2] example_state) = Returns []
  /\ fst (validTransactions example_host (str "cat") (str "usr") [VObject 2]
                            example_state)
     = Returns [default_transaction (str "cat") (str "usr") 1793534400123%Z].
Proof. vm_compute. repeat split; reflexivity. Qed.

(** C2, amended: on a batch the validation gets through (no element is
    [null] or [undefined], and no warning has to name a description
    that has no string), the validator drops a candidate if and only if
    its amount does not have type number or is NaN; no coercion takes
    place before that test, so an amount given as a string is dropped.
    The candidates kept are the others, in order; each dropped candidate
    is counted as rejected; and the accepted list holds one transaction
    for each candidate kept, with that candidate's amount. *)
Theorem validator_drops_exactly_non_numbers :
  forall (E : host) (cat user : jsstring) (txs : list value) (st : state),
    existsb (hazardous E st) txs = false ->
    exists (kept : list value) (st1 : state)
           (valid : list Transaction.t) (st' : state),
      filter E txs st = (Returns kept, st1)
      /\ validTransactions E cat user txs st = (Returns valid, st')
      /\ kept = List.filter (numeric_amount st) txs
      /\ (forall v,
            numeric_amount st v = true
            <-> exists r x, ref_of v = Some r
                            /\ Candidate.amount (objects st r) = VNumber x
                            /\ PrimFloat.is_nan x = false)
      /\ (forall v r s,
            ref_of v = Some r ->
            Candidate.amount (objects st r) = VString s ->
            ~ In v kept)
      /\ rejected_by E cat user txs st = List.length txs - List.length kept
      /\ (kept <> [] ->
          Forall2 (fun v t =>
                     Candidate.amount (properties st v)
                     = VNumber (Transaction.amount t))
                  kept valid).
Proof.
  intros E cat user txs st Hz.
  destruct (filter_returns E txs st Hz) as (kept & st1 & Hf).
  destruct (filter_spec E txs st Hf) as (Hk & _).
  destruct (validTransactions_spec E cat user txs st Hz)
    as (valid & st' & Hrun & _ & _ & Hr & _ & Hcons).
  exists kept, st1, valid, st'.
  split; [exact Hf|]. split; [exact Hrun|]. split; [exact Hk|].
  split; [intros v; apply numeric_amount_true|].
  split; [|split].
  - intros v r s Hr' Hs Hin. rewrite Hk in Hin. apply filter_In in Hin.
    destruct Hin as (_ & Hn). unfold numeric_amount in Hn.
    rewrite (@properties_object st v r Hr'), Hs in Hn. discriminate.
  - unfold rejected_by. rewrite Hrun. cbn [snd]. rewrite Hk. lia.
  - intros Hne. rewrite Hk in Hne |- *.
    destruct (Hcons Hne) as (st2 & Hf2 & _ & _ & _ & Hfix & Hsan & Hall).
    eapply Forall2_impl_in; [|exact Hall].
    intros v t Hin (n & _ & _ & ->).
    destruct (Hsan v Hin) as (r & Hr' & Hs & _).
    rewrite !(@properties_object _ v r Hr').
    destruct (Hfix r) as (<- & _).
    now apply transaction_of_amount.
Qed.

(** C2, amended, on the sample batch: the string amount is not kept, and
    two of the four candidates are rejected. *)
Lemma validator_drops_exactly_non_numbers_witness :
  exists kept st1,
    filter example_host example_batch example_state = (Returns kept, st1)
    /\ ~ In (VObject 2) kept
    /\ rejected_by example_host (str "cat") (str "usr") example_batch
                   example_state = 2.
Proof.
  destruct (validator_drops_exactly_non_numbers
              example_host (str "cat") (str "usr") example_batch example_state
              example_batch_is_safe)
    as (kept & st1 & valid & st' & Hf & _ & Hk & _ & Hs & Hr & _).
  exists kept, st1. split; [exact Hf|]. split.
  - apply (Hs (VObject 2) 2 (str "42.5")); reflexivity.
  - rewrite Hr, Hk. reflexivity.
Defined.

(** C3, as stated, fails: a candidate with the amount -20.5 is accepted
    with that amount, which is not non-negative. *)
Lemma negative_amount_is_accepted :
  forallb claimed_well_formed
          (accepted_of
             (fst (validTransactions example_host (str "cat") (str "usr")
                                     [VObject 1] example_state))) = false
  /\ List.map Transaction.amount
              (accepted_of
                 (fst (validTransactions example_host (str "cat") (str "usr")
                                         [VObject 1] example_state)))
     = [(-20.5)%float].
Proof. vm_compute. split; reflexivity. Qed.

(** C3, amended: every transaction the validator accepts, the default
    transaction included, has a valid date, a type that is INCOME or
    EXPENSE, an amount that is a number other than NaN, and a non-empty
    description of at most 255 code units. *)
Theorem accepted_transactions_well_formed :
  forall (E : host) (cat user : jsstring) (txs : list value) (st : state),
    Forall well_formed
           (accepted_of (fst (validTransactions E cat user txs st))).
Proof.
  intros E cat user txs st.
  destruct (existsb (hazardous E st) txs) eqn:Hz.
  - apply validTransactions_throws_iff with (cat := cat) (user := user) in Hz.
    destruct Hz as (st' & ->). constructor.
  - destruct (validTransactions_spec E cat user txs st Hz)
      as (valid & st' & -> & _ & _ & _ & Hnil & Hcons).
    cbn [fst accepted_of returned].
    destruct (List.filter (numeric_amount st) txs) as [|v0 kept] eqn:Hk.
    + rewrite (Hnil eq_refl). constructor; [apply well_formed_default|constructor].
    + destruct (Hcons ltac:(discriminate))
        as (st1 & _ & _ & _ & _ & _ & Hsan & Hall).
      apply (@Forall2_right value Transaction.t well_formed (v0 :: kept)).
      eapply Forall2_impl_in; [|exact Hall].
      intros v t Hin (n & _ & _ & ->).
      destruct (Hsan v Hin) as (r & Hr & Hs & _).
      rewrite (@properties_object _ v r Hr).
      now apply well_formed_transaction_of.
Qed.

(** C4 fails on the code by a slip.  The batch
    [[{"amount": "x", "description": {"toString": null}}]] holds one
    candidate, to be dropped for its amount; the warning about it
    interpolates the description, which has no string, and throws.  The
    validation is left before the default transaction is pushed: no
    list is accepted, and the document is created with no transaction
    at all. *)
Theorem dropped_candidate_can_leave_no_transaction :
  forall (E : host) (S : Type) (P : persistence S)
         (fileName mimetype : jsstring) (size : N) (user cat : jsstring)
         (summary : value) (db : S),
    objects unprintable_state 0
    = Candidate.Make VUndefined (VInconvertible 0) (VString (str "x"))
                     VUndefined VUndefined
    /\ forallb (fun v => negb (numeric_amount unprintable_state v)) [VObject 0]
       = true
    /\ validTransactions E cat user [VObject 0] unprintable_state
       = (Throws, unprintable_state)
    /\ accepted_of (fst (validTransactions E cat user [VObject 0]
                                           unprintable_state)) = []
    /\ calls_of (handler_save E P fileName mimetype size user cat summary
                              [VObject 0] unprintable_state db)
       = [CreateDocument (document_data fileName mimetype size user)].
Proof.
  intros E S P fileName mimetype size user cat summary db.
  assert (Hrun : validTransactions E cat user [VObject 0] unprintable_state
                 = (Throws, unprintable_state)).
  { unfold validTransactions, next. cbn [filter]. unfold next.
    rewrite (@filter_callback_throws E (VObject 0) 0 unprintable_state
               eq_refl eq_refl).
    reflexivity. }
  split; [reflexivity|]. split; [reflexivity|]. split; [exact Hrun|].
  split; [now rewrite Hrun|].
  unfold handler_save, save, save_document_only, calls_of. rewrite Hrun.
  destruct (create_document P _ db) as [[e|d] db1]; reflexivity.
Qed.

(** C5 fails on the code by a slip.  The candidate
    [{"date": "not-a-date", "description": {"toString": null},
      "amount": 42.5, "type": "XYZ"}] has a numeric amount and is to be
    kept; the warning about its type interpolates the description, which
    has no string, and throws: the candidate does not survive, and the
    document is created with no transaction.  A candidate with the same
    description and nothing else to fix survives, with the placeholder
    description. *)
Theorem unprintable_description_stops_a_numeric_candidate :
  forall (E : host) (S : Type) (P : persistence S)
         (fileName mimetype : jsstring) (size : N) (user cat : jsstring)
         (summary : value) (db : S),
    objects unprintable_state 1
    = Candidate.Make (VString (str "not-a-date")) (VInconvertible 1)
                     (VNumber 42.5%float) (VString (str "XYZ")) VUndefined
    /\ numeric_amount unprintable_state (VObject 1) = true
    /\ validTransactions E cat user [VObject 1] unprintable_state
       = (Throws, unprintable_state)
    /\ calls_of (handler_save E P fileName mimetype size user cat summary
                              [VObject 1] unprintable_state db)
       = [CreateDocument (document_data fileName mimetype size user)]
    /\ fst (validTransactions example_host cat user [VObject 2]
                              unprintable_state)
       = Returns [Transaction.Make (Some 1793318400000%Z)
                                   (str "Unnamed transaction") 42.5%float
                                   (str "EXPENSE") cat user].
Proof.
  intros E S P fileName mimetype size user cat summary db.
  assert (Hrun : validTransactions E cat user [VObject 1] unprintable_state
                 = (Throws, unprintable_state)).
  { unfold validTransactions, next. cbn [filter]. unfold next.
    rewrite (@filter_callback_throws E (VObject 1) 1 unprintable_state
               eq_refl eq_refl).
    reflexivity. }
  split; [reflexivity|]. split; [reflexivity|]. split; [exact Hrun|]. split.
  - unfold handler_save, save, save_document_only, calls_of. rewrite Hrun.
    destruct (create_document P _ db) as [[e|d] db1]; reflexivity.
  - vm_compute. reflexivity.
Qed.

Lemma scenario_does_not_parse E :
  Date_parse_other E (str "not-a-date") = None ->
  parses_as_date E (VString (str "not-a-date")) = false.
Proof.
  intros H. unfold parses_as_date, new_Date, Date_parse.
  replace (parse_date_only (str "not-a-date")) with (@None Z)
    by (vm_compute; reflexivity).
  now rewrite H.
Qed.

Lemma example_clock_in_range : clock_in_range example_host.
Proof. intros k. simpl. lia. Qed.


Lemma unchanged_when_valid E lo hi tx tx' :
  fixed_from E lo hi tx tx' ->
  valid_type (Candidate.type tx) = true ->
  parses_as_date E (Candidate.date tx) = true ->
  bad_description (Candidate.description tx) = false ->
  tx' = tx.
Proof.
  intros (Ha & Hc & Ht' & Hd' & Hs') Ht Hd Hs.
  destruct Ht' as [Ht'|(Hv & _)]; [|congruence].
  destruct Hd' as [Hd'|(Hv & _)]; [|congruence].
  destruct Hs' as [Hs'|(Hv & _)]; [|congruence].
  destruct tx, tx'. simpl in *. congruence.
Qed.



Section CategoryIrrelevant.
Variable E : host.
Variables cat user : jsstring.

Lemma sanitized_agree a b :
  same_but_category a b -> sanitized a -> sanitized b.
Proof.
  intros (_ & Hs & Ha & Ht) (H1 & H2 & H3). unfold sanitized.
  rewrite <- Hs, <- Ha, <- Ht. now repeat split.
Qed.

Lemma properties_agree st1 st2 v :
  agree_but_category st1 st2 ->
  same_but_category (properties st1 v) (properties st2 v).
Proof.
  intros (_ & H). unfold properties. destruct (ref_of v); [apply H|].
  now repeat split.
Qed.

Lemma hazardous_agree st1 st2 v :
  agree_but_category st1 st2 -> hazardous E st1 v = hazardous E st2 v.
Proof.
  intros H. destruct (properties_agree v H) as (Hd & Hs & Ha & Ht).
  unfold hazardous, hazard, parses_as_date. rewrite Hd, Hs, Ha, Ht.
  reflexivity.
Qed.

Lemma numeric_agree st1 st2 v :
  agree_but_category st1 st2 -> numeric_amount st1 v = numeric_amount st2 v.
Proof.
  intros H. destruct (properties_agree v H) as (_ & _ & Ha & _).
  unfold numeric_amount. now rewrite Ha.
Qed.

Lemma filter_callback_agree tx st1 st2 :
  agree_but_category st1 st2 ->
  fst (filter_callback E tx st1) = fst (filter_callback E tx st2)
  /\ agree_but_category (snd (filter_callback E tx st1))
                        (snd (filter_callback E tx st2)).
Proof.
  intros Hag.
  pose proof (hazardous_agree tx Hag) as Hh.
  pose proof (numeric_agree tx Hag) as Hn.
  destruct (filter_callback_cases E tx st1)
    as [(Hz1 & ->)|[(Hz1 & Hn1 & ->)
                   |(Hz1 & Hn1 & r & s1 & Href & -> & Ho1 & Ht1 & _)]];
    destruct (filter_callback_cases E tx st2)
      as [(Hz2 & ->)|[(Hz2 & Hn2 & ->)
                     |(Hz2 & Hn2 & r2 & s2 & Href2 & -> & Ho2 & Ht2 & _)]];
    try congruence; cbn [fst snd].
  - now split.
  - split; [reflexivity|]. destruct Hag as (Ht & Hs). now split.
  - assert (r2 = r) by congruence. subst r2.
    split; [reflexivity|]. destruct Hag as (Hticks & Hsame).
    destruct (Hsame r) as (Hd & Hs & Ha & Ht).
    split.
    + rewrite Ht1, Ht2, Hd, Hticks. reflexivity.
    + intros r'. rewrite Ho1, Ho2. unfold update.
      destruct (Nat.eqb r' r); [|apply Hsame].
      unfold same_but_category, fix_candidate. simpl.
      rewrite Hd, Hs, Ha, Ht, Hticks. repeat split; reflexivity.
Qed.

Lemma filter_agree txs :
  forall st1 st2,
    agree_but_category st1 st2 ->
    fst (filter E txs st1) = fst (filter E txs st2)
    /\ agree_but_category (snd (filter E txs st1)) (snd (filter E txs st2)).
Proof.
  induction txs as [|tx txs IH]; intros st1 st2 Hag; [now split|].
  cbn [filter]. unfold next.
  destruct (filter_callback_agree tx Hag) as (Hfst & Hag1).
  destruct (filter_callback E tx st1) as [c1 s1].
  destruct (filter_callback E tx st2) as [c2 s2]. cbn [fst snd] in *.
  subst c2. destruct c1 as [keep|]; [|now split].
  destruct (IH s1 s2 Hag1) as (Hk & Hag2).
  destruct (filter E txs s1) as [k1 s1'].
  destruct (filter E txs s2) as [k2 s2']. cbn [fst snd] in *.
  subst k2. destruct k1; now split.
Qed.

Lemma map_agree kept :
  forall st1 st2,
    (forall v, In v kept ->
               exists r, ref_of v = Some r /\ sanitized (objects st1 r)) ->
    agree_but_category st1 st2 ->
    fst (map E cat user kept st1) = fst (map E cat user kept st2)
    /\ agree_but_category (snd (map E cat user kept st1))
                          (snd (map E cat user kept st2)).
Proof.
  induction kept as [|tx kept IH]; intros st1 st2 Hall Hag; [now split|].
  cbn [map]. unfold next.
  destruct (Hall tx (or_introl eq_refl)) as (r & Href & Hsan).
  destruct Hag as (Hticks & Hsame).
  destruct (Hsame r) as (Hd & Hs & Ha & Ht).
  destruct (@map_callback_spec E cat user tx r st1 Href Hsan)
    as (s1 & -> & Ho1 & Ht1 & _).
  destruct (@map_callback_spec E cat user tx r st2 Href
              (sanitized_agree (Hsame r) Hsan))
    as (s2 & -> & Ho2 & Ht2 & _).
  assert (Hag : agree_but_category s1 s2).
  { split; [rewrite Ht1, Ht2, Hd, Hticks; reflexivity|].
    intros r'. rewrite Ho1, Ho2. apply Hsame. }
  destruct (IH s1 s2) as (Hk & Hag2); [|exact Hag|].
  { intros v Hv. rewrite Ho1. apply Hall. now right. }
  destruct (map E cat user kept s1) as [o1 s1'].
  destruct (map E cat user kept s2) as [o2 s2']. cbn [fst snd] in *.
  subst o2. destruct o1; [|now split].
  split; [|exact Hag2].
  unfold finish. cbn [fst]. f_equal. f_equal.
  unfold transaction_of. rewrite Hd, Hs, Ha, Ht, Hticks. reflexivity.
Qed.

End CategoryIrrelevant.

(** C10: every transaction the validator produces, the default
    transaction included, carries the default category id and the
    default user id; and the candidates' own category has no influence:
    two heaps that differ only in the category fields give the same
    accepted list. *)
Theorem category_comes_from_defaults :
  forall (E : host) (cat user : jsstring) (txs : list value) (st : state),
    Forall (assigned_defaults cat user)
           (accepted_of (fst (validTransactions E cat user txs st)))
    /\ forall st2 : state,
        agree_but_category st st2 ->
        fst (validTransactions E cat user txs st)
        = fst (validTransactions E cat user txs st2).
Proof.
  intros E cat user txs st. split.
  - destruct (existsb (hazardous E st) txs) eqn:Hz.
    + apply validTransactions_throws_iff with (cat := cat) (user := user) in Hz.
      destruct Hz as (st' & ->). constructor.
    + destruct (validTransactions_spec E cat user txs st Hz)
        as (valid & st' & -> & _ & _ & _ & Hnil & Hcons).
      cbn [fst accepted_of returned].
      destruct (List.filter (numeric_amount st) txs) as [|v0 kept] eqn:Hk.
      * rewrite (Hnil eq_refl). constructor; [now split|constructor].
      * destruct (Hcons ltac:(discriminate))
          as (st1 & _ & _ & _ & _ & _ & _ & Hall).
        apply (@Forall2_right value Transaction.t (assigned_defaults cat user)
                              (v0 :: kept)).
        eapply Forall2_impl; [|exact Hall].
        intros v t (n & _ & _ & ->). now split.
  - intros st2 Hag. unfold validTransactions, next.
    pose proof (filter_agree E txs Hag) as Hf.
    pose proof (filter_spec E txs st) as Hspec.
    destruct (filter E txs st) as [c1 s1].
    destruct (filter E txs st2) as [c2 s2]. cbn [fst snd] in Hf.
    destruct Hf as (<- & Hag1). destruct c1 as [kept|]; [|reflexivity].
    destruct (Hspec kept s1 eq_refl) as (_ & _ & Hsan & _).
    assert (Hall : forall v, In v kept ->
                     exists r, ref_of v = Some r /\ sanitized (objects s1 r)).
    { intros v Hv. destruct (Hsan v Hv) as (r & Hr & Hs & _). now exists r. }
    pose proof (map_agree E cat user kept Hall Hag1) as Hm.
    destruct (map E cat user kept s1) as [o1 s1'].
    destruct (map E cat user kept s2) as [o2 s2']. cbn [fst snd] in Hm.
    destruct Hm as (<- & (Hticks & _)).
    destruct o1 as [[|t valid]|]; [|reflexivity|reflexivity].
    unfold effect, read_clock, finish, now. cbn [warn ticks fst].
    now rewrite Hticks.
Qed.

(** C10 on the sample batch and the same batch with other categories. *)
Lemma category_comes_from_defaults_witness :
  fst (validTransactions example_host (str "cat") (str "usr") example_batch
                         example_state)
  = fst (validTransactions example_host (str "cat") (str "usr") example_batch
                           recategorized_state).
Proof.
  apply (category_comes_from_defaults
           example_host (str "cat") (str "usr") example_batch example_state).
  split; [reflexivity|]. intros r. repeat split; reflexivity.
Defined.

(** C9: when creating the document with its transactions fails, the
    handler tries once more, creating the document alone; if that
    succeeds the answer is 200 with the document and an empty transaction
    list; if it fails too the answer is 500 with the message of the
    persistence failure.  A successful first call is not followed by a
    second, and the answer is 500 only when the creation of the document
    alone has failed, after a first call that has failed too.  When the
    validation throws, the same fallback is taken at once: the document
    is created alone, with the same two answers. *)
Theorem document_only_fallback :
  forall (E : host) (S : Type) (P : persistence S)
         (fileName mimetype : jsstring) (size : N) (user cat : jsstring)
         (summary : value) (txs : list value) (st : state) (db : S),
    let data := document_data fileName mimetype size user in
    let result := handler_save E P fileName mimetype size user cat summary
                               txs st db in
    (forall (valid : list Transaction.t) (st1 : state),
        validTransactions E cat user txs st = (Returns valid, st1) ->
        (forall (e : Error) (db1 : S),
            create_with_transactions P data valid db = (inl e, db1) ->
            calls_of result = [CreateWithTransactions data valid; CreateDocument data]
            /\ (forall (d : DocumentRow) (db2 : S),
                  create_document P data db1 = (inr d, db2) ->
                  response_of result
                  = {| code := 200;
                       json := Saved {| fields := d; transactions := None |}
                                     summary [] |})
            /\ (forall (e2 : Error) (db2 : S),
                  create_document P data db1 = (inl e2, db2) ->
                  response_of result
                  = {| code := 500;
                       json := Failed
                                 (str "Failed to process document")
                                 (str "Failed to save document and transactions to database") |}))
        /\ (forall (d : DocumentRow) (rows : list TransactionRow) (db1 : S),
              create_with_transactions P data valid db = (inr (d, rows), db1) ->
              calls_of result = [CreateWithTransactions data valid]
              /\ response_of result
                 = {| code := 200;
                      json := Saved {| fields := d; transactions := Some rows |}
                                    summary rows |})
        /\ (code (response_of result) = 500 ->
            exists e db1 e2 db2,
              create_with_transactions P data valid db = (inl e, db1)
              /\ create_document P data db1 = (inl e2, db2)))
    /\ (forall (st1 : state),
          validTransactions E cat user txs st = (Throws, st1) ->
          calls_of result = [CreateDocument data]
          /\ (forall (d : DocumentRow) (db2 : S),
                create_document P data db = (inr d, db2) ->
                response_of result
                = {| code := 200;
                     json := Saved {| fields := d; transactions := None |}
                                   summary [] |})
          /\ (forall (e2 : Error) (db2 : S),
                create_document P data db = (inl e2, db2) ->
                response_of result
                = {| code := 500;
                     json := Failed
                               (str "Failed to process document")
                               (str "Failed to save document and transactions to database") |})
          /\ (code (response_of result) = 500 ->
              exists e2 db2, create_document P data db = (inl e2, db2))).
Proof.
  intros E S P fileName mimetype size user cat summary txs st db.
  cbv zeta. unfold handler_save, save, save_document_only, response_of, calls_of.
  split.
  - intros valid st1 ->.
    destruct (create_with_transactions P _ valid db) as [[e|[d rows]] db1] eqn:H1.
    + destruct (create_document P _ db1) as [[e2|d] db2] eqn:H2; cbn.
      * split; [|split].
        -- intros e0 db0 Heq. inversion Heq; subst. split; [reflexivity|].
           split; intros ? ? Heq2; rewrite H2 in Heq2; inversion Heq2; reflexivity.
        -- intros ? ? ? Heq. discriminate.
        -- intros _. exists e, db1, e2, db2. split; [reflexivity|exact H2].
      * split; [|split].
        -- intros e0 db0 Heq. inversion Heq; subst. split; [reflexivity|].
           split; intros ? ? Heq2; rewrite H2 in Heq2; inversion Heq2; reflexivity.
        -- intros ? ? ? Heq. discriminate.
        -- discriminate.
    + cbn. split; [|split].
      * intros ? ? Heq. discriminate.
      * intros ? ? ? Heq. inversion Heq; subst. split; reflexivity.
      * discriminate.
  - intros st1 ->.
    destruct (create_document P _ db) as [[e2|d] db2] eqn:H2; cbn.
    + split; [reflexivity|]. split; [intros ? ? Heq; discriminate|].
      split; [intros ? ? Heq; reflexivity|]. intros _. now exists e2, db2.
    + split; [reflexivity|].
      split; [intros ? ? Heq; inversion Heq; reflexivity|].
      split; [intros ? ? Heq; discriminate|discriminate].
Qed.

(** C9 with a store that refuses the nested creation. *)
Lemma document_only_fallback_witness :
  response_of (handler_save example_host refusing_store
                 (str "statement.png") (str "image/png") 2048%N
                 (str "usr") (str "cat") VNull [VObject 0; VObject 1]
                 example_state 0)
  = {| code := 200;
       json := Saved
                 {| fields :=
                      {| id := str "doc-1";
                         stored := document_data (str "statement.png")
                                     (str "image/png") 2048%N (str "usr") |};
                    transactions := None |}
                 VNull [] |}.
Proof.
  destruct (document_only_fallback
              example_host refusing_store
              (str "statement.png") (str "image/png") 2048%N
              (str "usr") (str "cat") VNull [VObject 0; VObject 1]
              example_state 0)
    as (H & _).
  destruct (validTransactions example_host (str "cat") (str "usr")
                              [VObject 0; VObject 1] example_state)
    as [[valid|] st1] eqn:Hrun; [|vm_compute in Hrun; discriminate].
  destruct (H valid st1 eq_refl) as (H1 & _).
  destruct (H1 {| message := str "Foreign key constraint failed" |} 1 eq_refl)
    as (_ & Hok & _).
  exact (Hok _ 2 eq_refl).
Defined.

(** ** Further properties of the normalizer *)

Lemma take_skip_spaces s : take_spaces s ++ skip_spaces s = s.
Proof.
  induction s as [|c s IH]; [reflexivity|]. simpl.
  destruct (is_space c); simpl; [now rewrite IH|reflexivity].
Qed.

Lemma take_spaces_spaces s : forallb is_space (take_spaces s) = true.
Proof.
  induction s as [|c s IH]; [reflexivity|]. simpl.
  destruct (is_space c) eqn:H; simpl; [now rewrite H|reflexivity].
Qed.

Lemma skip_spaces_head s c r : skip_spaces s = c :: r -> is_space c = false.
Proof.
  induction s as [|x s IH]; simpl; [discriminate|].
  destruct (is_space x) eqn:H; [exact IH|].
  intros Heq. inversion Heq; subst. exact H.
Qed.

Section GreedyShapes.
Variable R : Type.
Variable k : jsstring -> jsstring -> option R.

(** A term that takes exactly one character. *)
Lemma greedy_one (p : char -> bool) s :
  greedy p k 1 (Some 1) [] s
  = match s with
    | a :: t => if p a then k [a] t else None
    | [] => None
    end.
Proof.
  destruct s as [|a t]; [reflexivity|]. simpl.
  destruct (p a); [|reflexivity]. simpl.
  destruct t as [|c t']; simpl.
  - destruct (k [a] []); reflexivity.
  - rewrite andb_false_r. destruct (k [a] (c :: t')); reflexivity.
Qed.

(** A run of white space before a continuation that refuses white space:
    the whole run is taken, and there is nothing to backtrack to. *)
Lemma greedy_spaces :
  (forall piece c r, is_space c = true -> k piece (c :: r) = None) ->
  forall t lo taken,
    greedy is_space k lo None taken t
    = if Nat.leb lo (List.length (take_spaces t))
      then k (rev taken ++ take_spaces t) (skip_spaces t)
      else None.
Proof.
  intros Hk. induction t as [|c t IH]; intros lo taken.
  - simpl. destruct lo; simpl; [now rewrite app_nil_r|reflexivity].
  - cbn [greedy take_spaces skip_spaces]. destruct (is_space c) eqn:Hc.
    + cbn [andb may_take option_map]. rewrite IH.
      cbn [rev List.length]. rewrite <- app_assoc. cbn [app].
      destruct lo as [|lo]; cbn [pred Nat.leb].
      * destruct (k (rev taken ++ c :: take_spaces t) (skip_spaces t));
          [reflexivity|]. now apply Hk.
      * destruct (Nat.leb lo (List.length (take_spaces t)));
          [|reflexivity].
        destruct (k (rev taken ++ c :: take_spaces t) (skip_spaces t));
          reflexivity.
    + cbn [andb List.length]. rewrite app_nil_r.
      destruct lo; reflexivity.
Qed.

End GreedyShapes.

(** The matcher on a spacing pattern. *)
Lemma match_here_squeeze A B u :
  spaceless B ->
  match_here (squeeze_re A B) u
  = match triple_match A B u with
    | Some (a, b, rest) => Some ([[a]; [b]], rest)
    | None => None
    end.
Proof.
  intros HB. unfold squeeze_re. cbn [match_here cap one plus cls qmin qmax captures].
  rewrite greedy_one. destruct u as [|a t]; [reflexivity|].
  cbn [triple_match]. destruct (in_class A a); [|reflexivity].
  rewrite greedy_spaces.
  - cbn [rev app]. 
    destruct (take_spaces t) as [|w ws] eqn:Hw; cbn [Nat.leb List.length];
      [reflexivity|].
    rewrite greedy_one.
    destruct (skip_spaces t) as [|b rest]; [reflexivity|].
    cbn [in_class]. destruct (in_class B b); reflexivity.
  - intros piece c r Hc. rewrite greedy_one.
    destruct (in_class B c) eqn:HBc; [|reflexivity].
    apply HB in HBc. congruence.
Qed.

Lemma triple_match_starts A B u :
  starts_triple A B u
  = match triple_match A B u with Some _ => true | None => false end.
Proof.
  destruct u as [|a t]; [reflexivity|]. unfold starts_triple, triple_match, lookahead.
  destruct (in_class A a); [|reflexivity]. cbn [andb].
  destruct (take_spaces t); [reflexivity|].
  destruct (skip_spaces t) as [|b rest]; [reflexivity|].
  destruct (in_class B b); reflexivity.
Qed.

Lemma triple_match_shape A B u a b rest :
  triple_match A B u = Some (a, b, rest) ->
  exists t, u = a :: t /\ skip_spaces t = b :: rest /\ take_spaces t <> []
            /\ in_class A a = true /\ in_class B b = true.
Proof.
  destruct u as [|a0 t]; [discriminate|]. cbn [triple_match].
  destruct (in_class A a0) eqn:HA; [|discriminate].
  destruct (take_spaces t) as [|w ws] eqn:Hw; [discriminate|].
  destruct (skip_spaces t) as [|b0 r0] eqn:Hs; [discriminate|].
  destruct (in_class B b0) eqn:HB; [|discriminate].
  intros H. inversion H; subst. exists t. rewrite Hw.
  repeat split; auto. discriminate.
Qed.

Lemma replace_from_skip r tpl :
  forall s k,
    k <= List.length s ->
    replace_from r tpl k s = replace_from r tpl 0 (skipn k s).
Proof.
  induction s as [|c s IH]; intros [|k] Hk; try reflexivity.
  - simpl in Hk. lia.
  - cbn [replace_from skipn]. apply IH. simpl in Hk. lia.
Qed.

Lemma skip_spaces_length t : List.length (skip_spaces t) <= List.length t.
Proof.
  induction t as [|c t IH]; simpl; [lia|]. destruct (is_space c); simpl; lia.
Qed.

Lemma skipn_take_spaces t : skipn (List.length (take_spaces t)) t = skip_spaces t.
Proof.
  induction t as [|c t IH]; [reflexivity|]. simpl.
  destruct (is_space c); simpl; [exact IH|reflexivity].
Qed.

Lemma skipn_past_spaces t :
  skipn (S (List.length (take_spaces t))) t = tl (skip_spaces t).
Proof.
  induction t as [|c t IH]; [reflexivity|]. cbn [take_spaces skip_spaces].
  destruct (is_space c); [exact IH|reflexivity].
Qed.

(** One step of a spacing replacement. *)
Lemma squeeze_cons A B c s :
  spaceless B ->
  squeeze A B (c :: s)
  = match triple_match A B (c :: s) with
    | Some (a, b, rest) => a :: b :: squeeze A B rest
    | None => c :: squeeze A B s
    end.
Proof.
  intros HB. unfold squeeze, replace.
  change (parse_template (str "$1$2")) with [TGroup 1; TGroup 2].
  cbn [replace_from]. rewrite (match_here_squeeze A (c :: s) HB).
  destruct (triple_match A B (c :: s)) as [[[a b] rest]|] eqn:Hm; [|reflexivity].
  destruct (triple_match_shape _ _ _ Hm) as (t & Hu & Hs & Hw & _).
  inversion Hu; subst a t. clear Hu.
  assert (Hlen : List.length (c :: s) - List.length rest
                 = S (S (List.length (take_spaces s)))).
  { pose proof (take_skip_spaces s) as Hts. rewrite Hs in Hts.
    rewrite <- Hts at 1. cbn [List.length]. rewrite length_app. cbn [List.length].
    lia. }
  rewrite Hlen. cbn [expand flat_map nth_error pred app].
  assert (Hle : S (List.length (take_spaces s)) <= List.length s).
  { rewrite <- (take_skip_spaces s) at 2. rewrite Hs, length_app.
    cbn [List.length]. lia. }
  rewrite replace_from_skip by exact Hle.
  rewrite skipn_past_spaces, Hs. reflexivity.
Qed.

Lemma squeeze_nil A B : squeeze A B [] = [].
Proof. reflexivity. Qed.

Section SqueezeFacts.
Variables A B : charclass.
Hypothesis A_spaceless : spaceless A.
Hypothesis B_spaceless : spaceless B.

Lemma squeeze_space c s :
  is_space c = true -> squeeze A B (c :: s) = c :: squeeze A B s.
Proof.
  intros Hc. rewrite squeeze_cons by assumption. cbn [triple_match].
  destruct (in_class A c) eqn:HA; [|reflexivity].
  apply A_spaceless in HA. congruence.
Qed.

Lemma squeeze_nonspace c s :
  is_space c = false -> exists t, squeeze A B (c :: s) = c :: t.
Proof.
  intros Hc. rewrite squeeze_cons by assumption.
  destruct (triple_match A B (c :: s)) as [[[a b] rest]|] eqn:Hm; [|eauto].
  destruct (triple_match_shape _ _ _ Hm) as (t & Hu & _).
  inversion Hu; subst. eauto.
Qed.

(** A spacing replacement leaves the white space a text starts with, and
    the character after it, in place. *)
Lemma lookahead_squeeze s : lookahead (squeeze A B s) = lookahead s.
Proof.
  assert (H : take_spaces (squeeze A B s) = take_spaces s
              /\ hd_error (skip_spaces (squeeze A B s)) = hd_error (skip_spaces s)).
  { induction s as [|c s IH]; [split; reflexivity|].
    destruct (is_space c) eqn:Hc.
    - rewrite squeeze_space by assumption. cbn [take_spaces skip_spaces].
      rewrite Hc. destruct IH as (-> & ->). split; reflexivity.
    - destruct (@squeeze_nonspace c s Hc) as (t & ->).
      cbn [take_spaces skip_spaces]. rewrite Hc. split; reflexivity. }
  destruct H as (Ht & Hh). unfold lookahead. rewrite Ht.
  destruct (take_spaces s); [reflexivity|].
  destruct (skip_spaces (squeeze A B s)), (skip_spaces s); simpl in Hh;
    congruence.
Qed.

Lemma starts_triple_squeeze A' B' c s :
  starts_triple A' B' (c :: squeeze A B s) = starts_triple A' B' (c :: s).
Proof. unfold starts_triple. now rewrite lookahead_squeeze. Qed.

Lemma starts_triple_nonspace A' B' a b s :
  is_space b = false -> starts_triple A' B' (a :: b :: s) = false.
Proof.
  intros Hb. unfold starts_triple, lookahead. cbn [take_spaces].
  rewrite Hb. apply andb_false_r.
Qed.

Lemma no_triple_skip_spaces A' B' t :
  no_triple A' B' t = true -> no_triple A' B' (skip_spaces t) = true.
Proof.
  induction t as [|c t IH]; [auto|]. intros H. cbn [skip_spaces].
  destruct (is_space c); [|exact H].
  apply IH. cbn [no_triple] in H. now apply andb_true_iff in H.
Qed.

(** A spacing replacement brings in no triple of any kind. *)
Lemma squeeze_keeps_no_triple A' B' :
  forall n s,
    List.length s <= n ->
    no_triple A' B' s = true -> no_triple A' B' (squeeze A B s) = true.
Proof.
  induction n as [|n IH]; intros [|c s] Hlen Hno; try reflexivity;
    [simpl in Hlen; lia|].
  rewrite squeeze_cons by assumption.
  pose proof Hno as Hno0.
  cbn [no_triple] in Hno. apply andb_true_iff in Hno. destruct Hno as (Hc & Hs).
  destruct (triple_match A B (c :: s)) as [[[a b] rest]|] eqn:Hm.
  - destruct (triple_match_shape _ _ _ Hm) as (t & Hu & Hsk & _ & _ & _).
    inversion Hu; subst a t. clear Hu.
    pose proof (no_triple_skip_spaces _ _ _ Hs) as Hrest. rewrite Hsk in Hrest.
    cbn [no_triple] in Hrest. apply andb_true_iff in Hrest.
    destruct Hrest as (Hb & Hrest).
    cbn [no_triple].
    pose proof (skip_spaces_head _ Hsk) as Hbs.
    rewrite (@starts_triple_nonspace A' B' c b _ Hbs).
    rewrite starts_triple_squeeze, Hb. cbn [negb andb].
    apply IH; [|exact Hrest].
    pose proof (skip_spaces_length s) as Hl. rewrite Hsk in Hl.
    simpl in Hl, Hlen. lia.
  - cbn [no_triple]. rewrite starts_triple_squeeze, Hc. cbn [andb].
    apply IH; [simpl in Hlen; lia|exact Hs].
Qed.

(** A spacing replacement on two classes without a common character
    leaves none of its own triples. *)
Lemma squeeze_kills :
  disjoint A B ->
  forall n s, List.length s <= n -> no_triple A B (squeeze A B s) = true.
Proof.
  intros Hdis. induction n as [|n IH]; intros [|c s] Hlen; try reflexivity;
    [simpl in Hlen; lia|].
  rewrite squeeze_cons by assumption.
  destruct (triple_match A B (c :: s)) as [[[a b] rest]|] eqn:Hm.
  - destruct (triple_match_shape _ _ _ Hm) as (t & Hu & Hsk & _ & _ & HBb).
    inversion Hu; subst a t. clear Hu.
    cbn [no_triple].
    pose proof (skip_spaces_head _ Hsk) as Hbs.
    rewrite (@starts_triple_nonspace A B c b _ Hbs).
    assert (HAb : in_class A b = false).
    { destruct (in_class A b) eqn:HAb; [|reflexivity].
      apply Hdis in HAb. congruence. }
    unfold starts_triple at 1. rewrite HAb. cbn [negb andb].
    apply IH.
    pose proof (skip_spaces_length s) as Hl. rewrite Hsk in Hl.
    simpl in Hl, Hlen. lia.
  - cbn [no_triple]. rewrite starts_triple_squeeze, triple_match_starts, Hm.
    cbn [negb andb]. apply IH. simpl in Hlen. lia.
Qed.

End SqueezeFacts.

Lemma digit_not_space c : is_digit c = true -> is_space c = false.
Proof.
  unfold is_digit, is_space. intros H. apply andb_true_iff in H.
  destruct H as (H1 & H2). apply N.leb_le in H1, H2.
  repeat (apply orb_false_iff; split); try (apply andb_false_iff);
    repeat rewrite ?N.leb_gt, ?N.eqb_neq; lia.
Qed.

Lemma alpha_not_space c : is_alpha c = true -> is_space c = false.
Proof.
  unfold is_alpha, is_upper, is_lower, is_space. intros H.
  apply orb_true_iff in H. repeat rewrite andb_true_iff in H.
  repeat rewrite N.leb_le in H.
  repeat (apply orb_false_iff; split); try (apply andb_false_iff);
    repeat rewrite ?N.leb_gt, ?N.eqb_neq; lia.
Qed.

Lemma spaceless_digit : spaceless CDigit.
Proof. intros c. apply digit_not_space. Qed.

Lemma spaceless_alpha : spaceless CAlpha.
Proof. intros c. apply alpha_not_space. Qed.

Lemma spaceless_dot_or_comma : spaceless dot_or_comma.
Proof.
  intros c H. simpl in H. unfold char_eqb in H.
  repeat (apply orb_true_iff in H; destruct H as [H|H]); try discriminate;
    apply N.eqb_eq in H; subst c; reflexivity.
Qed.

Lemma disjoint_digit_alpha : disjoint CDigit CAlpha.
Proof.
  intros c H. simpl in *. unfold is_digit, is_alpha, is_upper, is_lower in *.
  apply andb_true_iff in H. destruct H as (H1 & H2). apply N.leb_le in H1, H2.
  apply orb_false_iff; split; apply andb_false_iff;
    repeat rewrite N.leb_gt; lia.
Qed.

Lemma disjoint_alpha_digit : disjoint CAlpha CDigit.
Proof.
  intros c H. destruct (in_class CDigit c) eqn:Hd; [|reflexivity].
  apply disjoint_digit_alpha in Hd. congruence.
Qed.

Lemma no_triple_suffix A B pre u :
  no_triple A B (pre ++ u) = true -> starts_triple A B u = false.
Proof.
  induction pre as [|x pre IH]; intros H.
  - destruct u as [|c t]; [reflexivity|]. cbn [app no_triple] in H.
    apply andb_true_iff in H. destruct H as (H & _).
    now apply negb_true_iff in H.
  - apply IH. cbn [app no_triple] in H. now apply andb_true_iff in H.
Qed.

Lemma lookahead_run w b r :
  forallb is_space w = true -> w <> [] -> is_space b = false ->
  lookahead (w ++ b :: r) = Some b.
Proof.
  intros Hw Hne Hb.
  assert (H : take_spaces (w ++ b :: r) = w /\ skip_spaces (w ++ b :: r) = b :: r).
  { clear Hne. induction w as [|c w IH]; cbn [app take_spaces skip_spaces].
    - rewrite Hb. split; reflexivity.
    - simpl in Hw. apply andb_true_iff in Hw. destruct Hw as (Hc & Hw).
      rewrite Hc. destruct (IH Hw) as (-> & ->). split; reflexivity. }
  destruct H as (Ht & Hs). unfold lookahead. rewrite Ht, Hs.
  destruct w; [contradiction|reflexivity].
Qed.

(** A text that starts with a run of [A], white space and a run of [B]
    holds a triple. *)
Lemma runs_hold_triple A B p1 w p2 rest :
  spaceless B ->
  forallb (in_class A) p1 = true -> 1 <= List.length p1 ->
  forallb is_space w = true -> 1 <= List.length w ->
  forallb (in_class B) p2 = true -> 1 <= List.length p2 ->
  exists pre u,
    p1 ++ w ++ p2 ++ rest = pre ++ u /\ starts_triple A B u = true.
Proof.
  intros HB H1 L1 Hw Lw H2 L2.
  destruct (exists_last (l := p1)) as (init & a & ->);
    [intros ->; simpl in L1; lia|].
  destruct p2 as [|b p2]; [simpl in L2; lia|].
  rewrite forallb_app in H1. apply andb_true_iff in H1.
  destruct H1 as (_ & Ha). simpl in Ha. rewrite andb_true_r in Ha.
  simpl in H2. apply andb_true_iff in H2. destruct H2 as (Hb & _).
  exists init, (a :: w ++ b :: p2 ++ rest). split.
  - rewrite <- app_assoc. reflexivity.
  - unfold starts_triple. rewrite Ha.
    rewrite lookahead_run; auto.
    intros ->. simpl in Lw. lia.
Qed.

Lemma day_month_year_needs_triple u caps rest :
  match_here re_day_month_year u = Some (caps, rest) ->
  exists pre u', u = pre ++ u' /\ starts_triple CDigit CAlpha u' = true.
Proof.
  intros Hm. apply match_here_sound in Hm.
  destruct Hm as (ps & Hps & -> & _).
  destruct ps as [|p1 [|w [|p2 ps]]]; simpl in Hps; try tauto.
  destruct Hps as ((H1 & L1 & _) & (Hw & Lw & _) & (H2 & L2 & _) & _).
  cbn [List.concat]. rewrite <- !app_assoc.
  apply runs_hold_triple; auto using spaceless_alpha.
Qed.

Lemma month_day_year_needs_triple u caps rest :
  match_here re_month_day_year u = Some (caps, rest) ->
  exists pre u', u = pre ++ u' /\ starts_triple CAlpha CDigit u' = true.
Proof.
  intros Hm. apply match_here_sound in Hm.
  destruct Hm as (ps & Hps & -> & _).
  destruct ps as [|p1 [|w [|p2 ps]]]; simpl in Hps; try tauto.
  destruct Hps as ((H1 & L1 & _) & (Hw & Lw & _) & (H2 & L2 & _) & _).
  cbn [List.concat]. rewrite <- !app_assoc.
  apply runs_hold_triple; auto using spaceless_digit.
Qed.

(** A pattern that matches nowhere leaves the text as it is. *)
Lemma replace_from_no_match r tpl :
  forall s,
    (forall pre u, s = pre ++ u -> match_here r u = None) ->
    replace_from r tpl 0 s = s.
Proof.
  induction s as [|c s IH]; intros H.
  - simpl. now rewrite (H [] [] eq_refl).
  - cbn [replace_from]. rewrite (H [] (c :: s) eq_refl). f_equal.
    apply IH. intros pre u ->. apply (H (c :: pre) u). reflexivity.
Qed.

Lemma fix_spacing_squeezes s :
  fix_spacing s
  = squeeze CDigit CAlpha
      (squeeze CAlpha CDigit
         (squeeze dot_or_comma CDigit (squeeze CDigit CDigit s))).
Proof. reflexivity. Qed.

Lemma fix_spacing_no_triples s :
  no_triple CDigit CAlpha (fix_spacing s) = true
  /\ no_triple CAlpha CDigit (fix_spacing s) = true.
Proof.
  rewrite fix_spacing_squeezes. split.
  - eapply squeeze_kills;
      eauto using spaceless_digit, spaceless_alpha, disjoint_digit_alpha.
  - eapply squeeze_keeps_no_triple;
      eauto using spaceless_digit, spaceless_alpha.
    eapply squeeze_kills;
      eauto using spaceless_digit, spaceless_alpha, disjoint_alpha_digit.
Qed.

(** The two date patterns match nowhere in a text where no digit is
    followed by white space and a letter, and no letter by white space
    and a digit. *)
Lemma fix_dates_no_triples s :
  no_triple CDigit CAlpha s = true -> no_triple CAlpha CDigit s = true ->
  fix_dates s = s.
Proof.
  intros Hdl Hld. unfold fix_dates, replace.
  assert (H1 : replace_from re_day_month_year
                 (parse_template (str "$1 $2, $3")) 0 s = s).
  { apply replace_from_no_match. intros pre u Heq.
    destruct (match_here re_day_month_year u) as [[caps rest]|] eqn:Hm;
      [|reflexivity].
    destruct (day_month_year_needs_triple _ Hm) as (pre' & u' & -> & Ht).
    rewrite Heq, app_assoc in Hdl.
    rewrite (no_triple_suffix _ _ _ _ Hdl) in Ht. discriminate. }
  rewrite H1.
  apply replace_from_no_match. intros pre u Heq.
  destruct (match_here re_month_day_year u) as [[caps rest]|] eqn:Hm;
    [|reflexivity].
  destruct (month_day_year_needs_triple _ Hm) as (pre' & u' & -> & Ht).
  rewrite Heq, app_assoc in Hld.
  rewrite (no_triple_suffix _ _ _ _ Hld) in Ht. discriminate.
Qed.

(** X1: The date-format step changes nothing: after the spacing step no
    place of the text is matched by either date pattern. *)
Theorem date_step_changes_nothing :
  forall text : jsstring, fix_dates (fix_spacing text) = fix_spacing text.
Proof.
  intros text. destruct (fix_spacing_no_triples text) as (Hdl & Hld).
  now apply fix_dates_no_triples.
Qed.

(** *** The spacing steps change white space only *)

Lemma ink_app a b : ink (a ++ b) = ink a ++ ink b.
Proof. apply filter_app. Qed.

Lemma ink_spaces w : forallb is_space w = true -> ink w = [].
Proof.
  induction w as [|c w IH]; [reflexivity|]. simpl. intros H.
  apply andb_true_iff in H. destruct H as (Hc & Hw).
  unfold ink. simpl. rewrite Hc. simpl. now apply IH.
Qed.

Section ReplaceInk.
Variable r : regex.
Variable tpl : list titem.
Hypothesis expand_ink :
  forall s caps rest,
    match_here r s = Some (caps, rest) ->
    exists m, s = m ++ rest /\ ink (expand tpl m caps) = ink m.

Lemma replace_from_ink :
  forall s skip, ink (replace_from r tpl skip s) = ink (skipn skip s).
Proof.
  induction s as [|c s IH]; intros skip.
  - destruct skip; [|reflexivity]. simpl.
    destruct (match_here r []) as [[caps rest]|] eqn:Hm; [|reflexivity].
    destruct (expand_ink _ Hm) as (m & Heq & Hex).
    symmetry in Heq. apply app_eq_nil in Heq. destruct Heq; subst. simpl.
    exact Hex.
  - destruct skip as [|k]; [|simpl; apply IH].
    cbn [replace_from skipn].
    destruct (match_here r (c :: s)) as [[caps rest]|] eqn:Hm.
    + destruct (expand_ink _ Hm) as (m & Heq & Hex).
      assert (Hn : List.length (c :: s) - List.length rest = List.length m).
      { rewrite Heq, length_app. lia. }
      rewrite Hn.
      assert (Hfirst : firstn (List.length m) (c :: s) = m).
      { rewrite Heq. rewrite firstn_app, Nat.sub_diag, firstn_all.
        simpl. apply app_nil_r. }
      rewrite Hfirst.
      destruct m as [|c' m]; cbn [List.length].
      * rewrite ink_app, Hex. cbn [ink List.filter app].
        fold (ink (replace_from r tpl 0 s)). rewrite IH. reflexivity.
      * rewrite ink_app, Hex, IH. simpl in Heq. injection Heq as Hc Hs.
        subst c'. rewrite Hs.
        rewrite skipn_app, skipn_all, Nat.sub_diag. cbn [skipn app].
        rewrite <- ink_app. reflexivity.
    + cbn [ink List.filter]. fold (ink (replace_from r tpl 0 s)).
      rewrite IH. reflexivity.
Qed.

End ReplaceInk.

(** Each pattern of the spacing steps is rewritten to the same
    characters, white space apart. *)
Lemma spacing_patterns_keep_ink r template :
  In (r, template)
     [ (re_digit_digit, "$1$2"); (re_point_digit, "$1$2");
       (re_letter_digit, "$1$2"); (re_digit_letter, "$1$2");
       (re_day_month_year, "$1 $2, $3"); (re_month_day_year, "$1 $2, $3");
       (re_account_433, "$1-$2-$3"); (re_account_344, "$1-$2-$3") ] ->
  forall s, ink (replace r template s) = ink s.
Proof.
  intros Hin s. unfold replace.
  rewrite replace_from_ink; [reflexivity|].
  clear s. intros s caps rest Hm.
  apply match_here_sound in Hm. destruct Hm as (ps & Hps & Heq & Hcaps).
  exists (List.concat ps). split; [exact Heq|]. clear Heq.
  cbn [In] in Hin.
  repeat (destruct Hin as [Hin|Hin]; [inversion Hin; subst r template; clear Hin|]);
    try contradiction.
  all: unfold re_digit_digit, re_point_digit, re_letter_digit, re_digit_letter,
         re_day_month_year, re_month_day_year, re_account_433, re_account_344,
         comma, hyphen in *.
  all: repeat (destruct ps as [|? ps]; simpl in Hps; try tauto).
  all: repeat match goal with
         | H : _ /\ _ |- _ => destruct H
         | H : piece_of _ _ |- _ => destruct H as (? & ? & ?)
         end.
  all: cbn [cls qmin qmax one plus star cap exactly between] in *.
  all: repeat match goal with
         | H : forallb (in_class (CLit ?c)) ?h = true |- _ =>
             rewrite (@literal_piece c h H) in * by assumption; clear H
         end.
  all: subst caps; cbn [captured captures cap one plus star exactly between
                        cls qmin qmax List.concat].
  all: repeat match goal with
         | |- context [parse_template ?t] =>
             let v := eval vm_compute in (parse_template t) in
             change (parse_template t) with v
         end.
  all: cbn [expand flat_map nth_error pred].
  all: rewrite ?app_nil_r; rewrite !ink_app.
  all: repeat match goal with
         | H : forallb (in_class CSpace) ?w = true |- _ =>
             rewrite (@ink_spaces w H); clear H
         end.
  all: change (ink [32%N]) with (@nil char).
  all: cbn [app]; reflexivity.
Qed.

(** X2: The three spacing steps change white space only: the other
    characters of the text come out unchanged and in order. *)
Theorem spacing_steps_keep_ink :
  forall text : jsstring,
    ink (fix_account_numbers (fix_dates (fix_spacing text))) = ink text.
Proof.
  intros text. unfold fix_account_numbers, fix_dates, fix_spacing.
  repeat (rewrite spacing_patterns_keep_ink; [|cbn [In]; tauto]).
  reflexivity.
Qed.

(** *** Account numbers *)

Section GreedyExact.
Variable R : Type.
Variable p : char -> bool.
Variable k : jsstring -> jsstring -> option R.

(** A term [{n}] on a text that starts with [n] characters of its class. *)
Lemma greedy_exact :
  forall g rest taken,
    forallb p g = true ->
    greedy p k (List.length g) (Some (List.length g)) taken (g ++ rest)
    = k (rev taken ++ g) rest.
Proof.
  induction g as [|c g IH]; intros rest taken Hg.
  - cbn [app List.length]. rewrite app_nil_r.
    destruct rest as [|x rest]; cbn [greedy]; [reflexivity|].
    cbn [may_take]. now rewrite andb_false_r.
  - simpl in Hg. apply andb_true_iff in Hg. destruct Hg as (Hc & Hg).
    cbn [app List.length greedy]. rewrite Hc. cbn [may_take andb pred option_map].
    rewrite IH by assumption. cbn [rev]. rewrite <- app_assoc. cbn [app].
    destruct (k (rev taken ++ c :: g) rest); reflexivity.
Qed.

End GreedyExact.

Lemma spaces_run w b r :
  forallb is_space w = true -> is_space b = false ->
  take_spaces (w ++ b :: r) = w /\ skip_spaces (w ++ b :: r) = b :: r.
Proof.
  intros Hw Hb. induction w as [|c w IH]; cbn [app take_spaces skip_spaces].
  - rewrite Hb. split; reflexivity.
  - simpl in Hw. apply andb_true_iff in Hw. destruct Hw as (Hc & Hw).
    rewrite Hc. destruct (IH Hw) as (-> & ->). split; reflexivity.
Qed.

Lemma match_here_account g1 w1 w2 g2 w3 w4 g3 rest :
  forallb is_digit g1 = true -> forallb is_digit g2 = true ->
  forallb is_digit g3 = true ->
  g2 <> [] -> g3 <> [] ->
  forallb is_space w1 = true -> forallb is_space w2 = true ->
  forallb is_space w3 = true -> forallb is_space w4 = true ->
  match_here (account_re (List.length g1) (List.length g2) (List.length g3))
             (spaced_account g1 w1 w2 g2 w3 w4 g3 ++ rest)
  = Some ([g1; g2; g3], rest).
Proof.
  intros D1 D2 D3 N2 N3 W1 W2 W3 W4.
  destruct g2 as [|d2 g2]; [contradiction|].
  destruct g3 as [|d3 g3]; [contradiction|].
  assert (Hd2 : is_space d2 = false)
    by (apply digit_not_space; simpl in D2; now apply andb_true_iff in D2).
  assert (Hd3 : is_space d3 = false)
    by (apply digit_not_space; simpl in D3; now apply andb_true_iff in D3).
  unfold spaced_account, account_re. change (str "-") with [45%N].
  repeat rewrite <- app_assoc. cbn [app].
  cbn [match_here cap exactly star one cls qmin qmax captures hyphen].
  (* first group *)
  rewrite greedy_exact by exact D1. cbn [rev app].
  (* white space, hyphen *)
  rewrite greedy_spaces.
  2:{ intros piece c r Hc. rewrite greedy_one. cbn [in_class hyphen].
      replace (char_eqb c 45%N) with false; [reflexivity|].
      symmetry. unfold char_eqb. apply N.eqb_neq. intros ->. discriminate. }
  match goal with
  | |- context [take_spaces (w1 ++ ?b :: ?r)] =>
      destruct (@spaces_run w1 b r W1 eq_refl) as (E1 & E2); rewrite E1, E2; clear E1 E2
  end.
  cbn [Nat.leb rev app]. rewrite greedy_one. cbn [in_class hyphen].
  change (char_eqb 45%N 45%N) with true. cbv iota.
  (* white space, second group *)
  rewrite greedy_spaces.
  2:{ intros piece c r Hc.
      cbn [greedy List.length in_class].
      replace (is_digit c) with false
        by (symmetry; destruct (is_digit c) eqn:Hd; [|reflexivity];
            apply digit_not_space in Hd; congruence).
      reflexivity. }
  cbn [app].
  match goal with
  | |- context [take_spaces (w2 ++ ?b :: ?r)] =>
      destruct (@spaces_run w2 b r W2 Hd2) as (E1 & E2); rewrite E1, E2; clear E1 E2
  end.
  cbn [Nat.leb rev app].
  match goal with
  | |- context [greedy _ ?k _ _ [] (d2 :: g2 ++ ?r)] =>
      pose proof (@greedy_exact _ (in_class CDigit) k (d2 :: g2) r [] D2) as E;
      cbn [app rev] in E; rewrite E; clear E
  end.
  (* white space, hyphen *)
  rewrite greedy_spaces.
  2:{ intros piece c r Hc. rewrite greedy_one. cbn [in_class hyphen].
      replace (char_eqb c 45%N) with false; [reflexivity|].
      symmetry. unfold char_eqb. apply N.eqb_neq. intros ->. discriminate. }
  match goal with
  | |- context [take_spaces (w3 ++ ?b :: ?r)] =>
      destruct (@spaces_run w3 b r W3 eq_refl) as (E1 & E2); rewrite E1, E2; clear E1 E2
  end.
  cbn [Nat.leb rev app]. rewrite greedy_one. cbn [in_class hyphen].
  change (char_eqb 45%N 45%N) with true. cbv iota.
  (* white space, third group *)
  rewrite greedy_spaces.
  2:{ intros piece c r Hc.
      cbn [greedy List.length in_class].
      replace (is_digit c) with false
        by (symmetry; destruct (is_digit c) eqn:Hd; [|reflexivity];
            apply digit_not_space in Hd; congruence).
      reflexivity. }
  cbn [app].
  match goal with
  | |- context [take_spaces (w4 ++ ?b :: ?r)] =>
      destruct (@spaces_run w4 b r W4 Hd3) as (E1 & E2); rewrite E1, E2; clear E1 E2
  end.
  cbn [Nat.leb rev app].
  match goal with
  | |- context [greedy _ ?k _ _ [] (d3 :: g3 ++ ?r)] =>
      pose proof (@greedy_exact _ (in_class CDigit) k (d3 :: g3) r [] D3) as E;
      cbn [app rev] in E; rewrite E; clear E
  end.
  reflexivity.
Qed.

(** A match at the start of the text is replaced by the expanded
    template, and the replacement goes on after it. *)
Lemma replace_from_match r tpl m rest caps :
  m <> [] ->
  match_here r (m ++ rest) = Some (caps, rest) ->
  replace_from r tpl 0 (m ++ rest)
  = expand tpl m caps ++ replace_from r tpl 0 rest.
Proof.
  intros Hne Hm. destruct m as [|c m]; [contradiction|].
  cbn [app replace_from]. cbn [app] in Hm. rewrite Hm.
  assert (Hn : List.length (c :: m ++ rest) - List.length rest
               = S (List.length m)).
  { cbn [List.length]. rewrite length_app. lia. }
  rewrite Hn.
  assert (Hfirst : firstn (S (List.length m)) (c :: m ++ rest) = c :: m).
  { cbn [firstn]. f_equal. rewrite firstn_app, Nat.sub_diag, firstn_all.
    simpl. apply app_nil_r. }
  rewrite Hfirst. f_equal.
  rewrite replace_from_skip by (rewrite length_app; lia).
  rewrite skipn_app, skipn_all, Nat.sub_diag. reflexivity.
Qed.

Lemma replace_account g1 w1 w2 g2 w3 w4 g3 rest :
  forallb is_digit g1 = true -> forallb is_digit g2 = true ->
  forallb is_digit g3 = true ->
  g2 <> [] -> g3 <> [] ->
  forallb is_space w1 = true -> forallb is_space w2 = true ->
  forallb is_space w3 = true -> forallb is_space w4 = true ->
  replace (account_re (List.length g1) (List.length g2) (List.length g3))
          "$1-$2-$3" (spaced_account g1 w1 w2 g2 w3 w4 g3 ++ rest)
  = account_number g1 g2 g3
    ++ replace (account_re (List.length g1) (List.length g2) (List.length g3))
               "$1-$2-$3" rest.
Proof.
  intros D1 D2 D3 N2 N3 W1 W2 W3 W4. unfold replace.
  rewrite (@replace_from_match _ _ _ _ [g1; g2; g3]).
  - f_equal. change (parse_template (str "$1-$2-$3"))
      with [TGroup 1; TChar 45%N; TGroup 2; TChar 45%N; TGroup 3].
    cbn [expand flat_map nth_error pred]. unfold account_number.
    change (str "-") with [45%N]. now rewrite app_nil_r.
  - unfold spaced_account. destruct g1; discriminate || 
      (change (str "-") with [45%N]; destruct w1; discriminate).
  - now apply match_here_account.
Qed.

Lemma account_number_plain g1 g2 g3 :
  forallb is_digit g1 = true -> forallb is_digit g2 = true ->
  forallb is_digit g3 = true ->
  plain (account_number g1 g2 g3) = true.
Proof.
  intros D1 D2 D3. apply digit_group_text_plain.
  unfold digit_group_text, account_number. change (str "-") with [45%N].
  rewrite !forallb_app. 
  assert (H : forall g, forallb is_digit g = true ->
                        forallb digit_group_char g = true).
  { intros g Hg. rewrite forallb_forall in *. intros c Hc.
    unfold digit_group_char. now rewrite (Hg c Hc). }
  rewrite (H g1), (H g2), (H g3) by assumption. reflexivity.
Qed.

Lemma replace_account_plain r s :
  r = re_account_433 \/ r = re_account_344 ->
  plain s = true -> replace r "$1-$2-$3" s = s.
Proof.
  intros Hr Hs. unfold replace.
  now rewrite (replace_from_identity _ _ (account_match_identity Hr)).
Qed.

Lemma hyphens_app a b : hyphens (a ++ b) = hyphens a + hyphens b.
Proof. apply count_occ_app. Qed.

Lemma hyphens_none (p : char -> bool) g :
  p 45%N = false -> forallb p g = true -> hyphens g = 0.
Proof.
  intros Hp. induction g as [|c g IH]; [reflexivity|]. simpl. intros H.
  apply andb_true_iff in H. destruct H as (Hc & Hg).
  unfold hyphens. rewrite count_occ_cons_neq by (intros ->; congruence).
  now apply IH.
Qed.

Lemma first_hyphen_unique a b a' b' :
  hyphens a = 0 -> hyphens a' = 0 ->
  a ++ 45%N :: b = a' ++ 45%N :: b' -> a = a' /\ b = b'.
Proof.
  revert a'. induction a as [|c a IH]; intros [|c' a'] Ha Ha' Heq.
  - inversion Heq. now split.
  - simpl in Heq. inversion Heq; subst c'.
    unfold hyphens in Ha'. rewrite count_occ_cons_eq in Ha' by reflexivity.
    discriminate.
  - simpl in Heq. inversion Heq; subst c.
    unfold hyphens in Ha. rewrite count_occ_cons_eq in Ha by reflexivity.
    discriminate.
  - simpl in Heq. inversion Heq; subst c'.
    assert (Hc : c <> 45%N).
    { intros ->. unfold hyphens in Ha.
      rewrite count_occ_cons_eq in Ha by reflexivity. discriminate. }
    unfold hyphens in Ha, Ha'.
    rewrite count_occ_cons_neq in Ha, Ha' by assumption.
    destruct (IH a' Ha Ha' H1) as (-> & ->). now split.
Qed.

Lemma ink_digits g : forallb is_digit g = true -> ink g = g.
Proof.
  induction g as [|c g IH]; [reflexivity|]. simpl. intros H.
  apply andb_true_iff in H. destruct H as (Hc & Hg).
  unfold ink. simpl. rewrite (@digit_not_space _ Hc). simpl.
  f_equal. now apply IH.
Qed.

(** A pattern for groups of other sizes matches nowhere in a spaced
    account number whose middle group has a different length. *)
Lemma account_re_misses n1 n2 n3 g1 w1 w2 g2 w3 w4 g3 pre u :
  forallb is_digit g1 = true -> forallb is_digit g2 = true ->
  forallb is_digit g3 = true ->
  forallb is_space w1 = true -> forallb is_space w2 = true ->
  forallb is_space w3 = true -> forallb is_space w4 = true ->
  List.length g2 <> n2 ->
  spaced_account g1 w1 w2 g2 w3 w4 g3 = pre ++ u ->
  match_here (account_re n1 n2 n3) u = None.
Proof.
  intros D1 D2 D3 W1 W2 W3 W4 Hlen Heq.
  destruct (match_here (account_re n1 n2 n3) u) as [[caps rest]|] eqn:Hm;
    [exfalso|reflexivity].
  apply match_here_sound in Hm. destruct Hm as (ps & Hps & Hu & _).
  unfold account_re, hyphen in Hps.
  destruct ps as [|q1 [|v1 [|h1 [|v2 [|q2 [|v3 [|h2 [|v4 [|q3 [|x ps]]]]]]]]]];
    simpl in Hps; try tauto.
  destruct Hps as ((Q1 & _) & (V1 & _) & (H1 & H1lo & H1hi) & (V2 & _)
                   & (Q2 & Q2lo & Q2hi) & (V3 & _) & (H2 & H2lo & H2hi)
                   & (V4 & _) & (Q3 & _) & _).
  rewrite (@literal_piece 45%N h1 H1 H1lo H1hi) in Hu.
  rewrite (@literal_piece 45%N h2 H2 H2lo H2hi) in Hu.
  cbn [List.concat] in Hu. rewrite app_nil_r in Hu.
  assert (HD : is_digit 45%N = false) by reflexivity.
  assert (HS : is_space 45%N = false) by reflexivity.
  pose proof (f_equal hyphens Heq) as Hc. rewrite Hu in Hc.
  unfold spaced_account in Hc. change (str "-") with [45%N] in Hc.
  repeat rewrite hyphens_app in Hc.
  rewrite (@hyphens_none _ _ HD D1), (@hyphens_none _ _ HD D2),
    (@hyphens_none _ _ HD D3), (@hyphens_none _ _ HS W1), (@hyphens_none _ _ HS W2),
    (@hyphens_none _ _ HS W3), (@hyphens_none _ _ HS W4),
    (@hyphens_none _ _ HD Q1), (@hyphens_none _ _ HD Q2),
    (@hyphens_none _ _ HD Q3), (@hyphens_none _ _ HS V1), (@hyphens_none _ _ HS V2),
    (@hyphens_none _ _ HS V3), (@hyphens_none _ _ HS V4) in Hc.
  change (hyphens [45%N]) with 1 in Hc.
  assert (Hpre : hyphens pre = 0) by lia.
  rewrite Hu in Heq. unfold spaced_account in Heq.
  change (str "-") with [45%N] in Heq.
  assert (E1 : (g1 ++ w1) ++ 45%N :: (w2 ++ g2 ++ w3) ++ 45%N :: w4 ++ g3
               = (pre ++ q1 ++ v1) ++ 45%N
                   :: (v2 ++ q2 ++ v3) ++ 45%N :: v4 ++ q3 ++ rest).
  { cbn [List.concat] in Heq.
    repeat (rewrite <- app_assoc in Heq || cbn [app] in Heq).
    repeat (rewrite <- app_assoc || cbn [app]). exact Heq. }
  apply first_hyphen_unique in E1.
  2:{ rewrite hyphens_app, (@hyphens_none _ _ HD D1), (@hyphens_none _ _ HS W1).
      reflexivity. }
  2:{ rewrite !hyphens_app, Hpre, (@hyphens_none _ _ HD Q1),
        (@hyphens_none _ _ HS V1). reflexivity. }
  destruct E1 as (_ & E2).
  apply first_hyphen_unique in E2.
  2:{ rewrite !hyphens_app, (@hyphens_none _ _ HD D2), (@hyphens_none _ _ HS W2),
        (@hyphens_none _ _ HS W3). reflexivity. }
  2:{ rewrite !hyphens_app, (@hyphens_none _ _ HD Q2), (@hyphens_none _ _ HS V2),
        (@hyphens_none _ _ HS V3). reflexivity. }
  destruct E2 as (E2 & _).
  apply (f_equal ink) in E2. rewrite !ink_app in E2.
  rewrite (@ink_spaces _ W2), (@ink_spaces _ W3), (@ink_spaces _ V2),
    (@ink_spaces _ V3), (@ink_digits _ D2), (@ink_digits _ Q2) in E2.
  cbn [app] in E2. rewrite !app_nil_r in E2. subst q2.
  cbn [cls qmin qmax cap exactly] in Q2lo, Q2hi. lia.
Qed.

Lemma fix_account_numbers_spaced_account g1 w1 w2 g2 w3 w4 g3 :
  forallb is_digit g1 = true -> forallb is_digit g2 = true ->
  forallb is_digit g3 = true ->
  forallb is_space w1 = true -> forallb is_space w2 = true ->
  forallb is_space w3 = true -> forallb is_space w4 = true ->
  account_shape g1 g2 g3 ->
  fix_account_numbers (spaced_account g1 w1 w2 g2 w3 w4 g3)
  = account_number g1 g2 g3.
Proof.
  intros D1 D2 D3 W1 W2 W3 W4 Hshape. unfold fix_account_numbers.
  assert (N2 : g2 <> []) by (destruct Hshape as [(_ & L & _)|(_ & L & _)];
                             intros ->; discriminate).
  assert (N3 : g3 <> []) by (destruct Hshape as [(_ & _ & L)|(_ & _ & L)];
                             intros ->; discriminate).
  pose proof (@replace_account g1 w1 w2 g2 w3 w4 g3 []
                D1 D2 D3 N2 N3 W1 W2 W3 W4) as R.
  rewrite app_nil_r in R.
  destruct Hshape as [(L1 & L2 & L3)|(L1 & L2 & L3)];
    rewrite L1, L2, L3 in R.
  - change (account_re 4 3 3) with re_account_433 in R.
    rewrite R. change (replace re_account_433 "$1-$2-$3" []) with (@nil char).
    rewrite app_nil_r.
    apply replace_account_plain; [now right|].
    now apply account_number_plain.
  - change (account_re 3 4 4) with re_account_344 in R.
    replace (replace re_account_433 "$1-$2-$3"
               (spaced_account g1 w1 w2 g2 w3 w4 g3))
      with (spaced_account g1 w1 w2 g2 w3 w4 g3).
    + rewrite R. change (replace re_account_344 "$1-$2-$3" []) with (@nil char).
      now rewrite app_nil_r.
    + symmetry. unfold replace. apply replace_from_no_match.
      intros pre u Heq. change re_account_433 with (account_re 4 3 3).
      apply (@account_re_misses 4 3 3 g1 w1 w2 g2 w3 w4 g3 pre u); trivial.
      lia.
Qed.


(** *** Texts without letters, and the spacing step on account numbers *)

Lemma squeeze_id A B s :
  spaceless B -> no_triple A B s = true -> squeeze A B s = s.
Proof.
  intros HB. induction s as [|c s IH]; intros H; [reflexivity|].
  rewrite squeeze_cons by assumption.
  cbn [no_triple] in H. apply andb_true_iff in H. destruct H as (Hc & Hs).
  rewrite triple_match_starts in Hc.
  destruct (triple_match A B (c :: s)) as [[[a b] rest]|]; [discriminate|].
  f_equal. now apply IH.
Qed.

Lemma lookahead_in t b : lookahead t = Some b -> In b t.
Proof.
  unfold lookahead. intros H. rewrite <- (take_skip_spaces t).
  apply in_or_app. right.
  destruct (take_spaces t); [discriminate|].
  destruct (skip_spaces t) as [|b0 r]; [discriminate|].
  inversion H; subst. now left.
Qed.

Lemma no_triple_without_first A B s :
  without A s = true -> no_triple A B s = true.
Proof.
  induction s as [|c s IH]; [reflexivity|]. cbn [without forallb no_triple].
  intros H. apply andb_true_iff in H. destruct H as (Hc & Hs).
  rewrite (IH Hs), andb_true_r. unfold starts_triple.
  apply negb_true_iff in Hc. now rewrite Hc.
Qed.

Lemma no_triple_without_second A B s :
  without B s = true -> no_triple A B s = true.
Proof.
  induction s as [|c s IH]; [reflexivity|]. cbn [without forallb no_triple].
  intros H. apply andb_true_iff in H. destruct H as (Hc & Hs).
  rewrite (IH Hs), andb_true_r. unfold starts_triple.
  destruct (lookahead s) as [b|] eqn:Hl; [|now rewrite andb_false_r].
  apply lookahead_in in Hl. unfold without in Hs.
  rewrite forallb_forall in Hs. specialize (Hs b Hl).
  apply negb_true_iff in Hs. now rewrite Hs, andb_false_r.
Qed.

Lemma no_triple_spaces_front A B w t :
  spaceless A -> forallb is_space w = true ->
  no_triple A B (w ++ t) = no_triple A B t.
Proof.
  intros HA. induction w as [|c w IH]; [reflexivity|]. cbn [forallb].
  intros H. apply andb_true_iff in H. destruct H as (Hc & Hw).
  cbn [app no_triple]. rewrite (IH Hw). unfold starts_triple.
  destruct (in_class A c) eqn:Hin; [|reflexivity].
  apply HA in Hin. congruence.
Qed.

Lemma no_triple_run A B g t :
  forallb (fun c => negb (is_space c)) g = true ->
  (forall a, starts_triple A B (a :: t) = false) ->
  no_triple A B t = true -> no_triple A B (g ++ t) = true.
Proof.
  intros Hg Hstart Ht. induction g as [|c g IH]; [exact Ht|].
  cbn [forallb] in Hg. apply andb_true_iff in Hg. destruct Hg as (_ & Hg).
  cbn [app no_triple]. rewrite (IH Hg), andb_true_r.
  destruct g as [|c' g].
  - cbn [app]. now rewrite Hstart.
  - cbn [forallb] in Hg. apply andb_true_iff in Hg. destruct Hg as (Hc' & _).
    apply negb_true_iff in Hc'. cbn [app].
    now rewrite (@starts_triple_nonspace A B c c' (g ++ t) Hc').
Qed.

Lemma starts_triple_before_hyphen A B a w t :
  forallb is_space w = true -> in_class B 45%N = false ->
  starts_triple A B (a :: w ++ 45%N :: t) = false.
Proof.
  intros Hw HB. unfold starts_triple. destruct w as [|c w].
  - cbn [app]. unfold lookahead. cbn [take_spaces].
    change (is_space 45%N) with false. cbn iota. apply andb_false_r.
  - assert (E : lookahead ((c :: w) ++ 45%N :: t) = Some 45%N)
      by (apply lookahead_run; [exact Hw|discriminate|reflexivity]).
    cbn [app] in E |- *. rewrite E. now rewrite HB, andb_false_r.
Qed.

Lemma digits_not_spaces g :
  forallb is_digit g = true -> forallb (fun c => negb (is_space c)) g = true.
Proof.
  intros H. rewrite forallb_forall in *. intros c Hc.
  now rewrite (@digit_not_space c (H c Hc)).
Qed.

Lemma spaced_account_no_digit_triple g1 w1 w2 g2 w3 w4 g3 :
  forallb is_digit g1 = true -> forallb is_digit g2 = true ->
  forallb is_digit g3 = true ->
  forallb is_space w1 = true -> forallb is_space w2 = true ->
  forallb is_space w3 = true -> forallb is_space w4 = true ->
  no_triple CDigit CDigit (spaced_account g1 w1 w2 g2 w3 w4 g3) = true.
Proof.
  intros D1 D2 D3 W1 W2 W3 W4. unfold spaced_account.
  change (str "-") with [45%N]. cbn [app].
  assert (Hh : forall t, no_triple CDigit CDigit (45%N :: t)
                         = no_triple CDigit CDigit t) by reflexivity.
  apply no_triple_run; [now apply digits_not_spaces| |].
  { intros a. now apply starts_triple_before_hyphen. }
  rewrite (@no_triple_spaces_front CDigit CDigit _ _ spaceless_digit W1), Hh.
  rewrite (@no_triple_spaces_front CDigit CDigit _ _ spaceless_digit W2).
  apply no_triple_run; [now apply digits_not_spaces| |].
  { intros a. now apply starts_triple_before_hyphen. }
  rewrite (@no_triple_spaces_front CDigit CDigit _ _ spaceless_digit W3), Hh.
  rewrite (@no_triple_spaces_front CDigit CDigit _ _ spaceless_digit W4).
  rewrite <- (app_nil_r g3).
  apply no_triple_run; [now apply digits_not_spaces| |reflexivity].
  intros a. unfold starts_triple, lookahead. cbn. apply andb_false_r.
Qed.

Lemma without_of (p : char -> bool) cl g :
  (forall c, p c = true -> in_class cl c = false) ->
  forallb p g = true -> without cl g = true.
Proof.
  intros Hp H. unfold without. rewrite forallb_forall in *. intros c Hc.
  now rewrite (Hp c (H c Hc)).
Qed.

Lemma spaced_account_without cl g1 w1 w2 g2 w3 w4 g3 :
  (forall c, is_digit c = true -> in_class cl c = false) ->
  (forall c, is_space c = true -> in_class cl c = false) ->
  in_class cl 45%N = false ->
  forallb is_digit g1 = true -> forallb is_digit g2 = true ->
  forallb is_digit g3 = true ->
  forallb is_space w1 = true -> forallb is_space w2 = true ->
  forallb is_space w3 = true -> forallb is_space w4 = true ->
  without cl (spaced_account g1 w1 w2 g2 w3 w4 g3) = true.
Proof.
  intros HD HS HH D1 D2 D3 W1 W2 W3 W4. unfold spaced_account, without.
  change (str "-") with [45%N]. rewrite !forallb_app. cbn [forallb].
  rewrite HH. cbn [negb andb].
  fold (without cl g1) (without cl g2) (without cl g3) (without cl w1)
    (without cl w2) (without cl w3) (without cl w4).
  rewrite (@without_of _ _ _ HD D1), (@without_of _ _ _ HD D2), (@without_of _ _ _ HD D3),
    (@without_of _ _ _ HS W1), (@without_of _ _ _ HS W2), (@without_of _ _ _ HS W3),
    (@without_of _ _ _ HS W4).
  reflexivity.
Qed.

Lemma digit_not_alpha c : is_digit c = true -> is_alpha c = false.
Proof.
  intros H. destruct (is_alpha c) eqn:Ha; [|reflexivity].
  pose proof (disjoint_alpha_digit c Ha) as Hd. cbn [in_class] in Hd.
  congruence.
Qed.

Lemma space_not_alpha c : is_space c = true -> is_alpha c = false.
Proof.
  intros H. destruct (is_alpha c) eqn:Ha; [|reflexivity].
  apply alpha_not_space in Ha. congruence.
Qed.

Lemma digit_not_dot_or_comma c :
  is_digit c = true -> in_class dot_or_comma c = false.
Proof.
  intros H. unfold is_digit in H. apply andb_true_iff in H.
  rewrite !N.leb_le in H. unfold dot_or_comma. cbn [in_class existsb].
  unfold char_eqb. rewrite orb_false_r. apply orb_false_iff.
  rewrite !N.eqb_neq. lia.
Qed.

Lemma space_not_dot_or_comma c :
  is_space c = true -> in_class dot_or_comma c = false.
Proof.
  intros H. destruct (in_class dot_or_comma c) eqn:Hin; [|reflexivity].
  apply spaceless_dot_or_comma in Hin. congruence.
Qed.

(** The spacing step leaves a spaced account number as it is. *)
Lemma fix_spacing_spaced_account g1 w1 w2 g2 w3 w4 g3 :
  forallb is_digit g1 = true -> forallb is_digit g2 = true ->
  forallb is_digit g3 = true ->
  forallb is_space w1 = true -> forallb is_space w2 = true ->
  forallb is_space w3 = true -> forallb is_space w4 = true ->
  fix_spacing (spaced_account g1 w1 w2 g2 w3 w4 g3)
  = spaced_account g1 w1 w2 g2 w3 w4 g3.
Proof.
  intros D1 D2 D3 W1 W2 W3 W4. rewrite fix_spacing_squeezes.
  assert (HA : without CAlpha (spaced_account g1 w1 w2 g2 w3 w4 g3) = true).
  { apply spaced_account_without; trivial;
      [exact digit_not_alpha|exact space_not_alpha]. }
  assert (HP : without dot_or_comma (spaced_account g1 w1 w2 g2 w3 w4 g3)
               = true).
  { apply spaced_account_without; trivial;
      [exact digit_not_dot_or_comma|exact space_not_dot_or_comma]. }
  rewrite (@squeeze_id CDigit CDigit _ spaceless_digit)
    by now apply spaced_account_no_digit_triple.
  rewrite (@squeeze_id dot_or_comma CDigit _ spaceless_digit)
    by now apply no_triple_without_first.
  rewrite (@squeeze_id CAlpha CDigit _ spaceless_digit)
    by now apply no_triple_without_first.
  apply (@squeeze_id CDigit CAlpha _ spaceless_alpha).
  now apply no_triple_without_second.
Qed.

Lemma letter_class_sound cl c :
  letter_class cl = true -> in_class cl c = true -> is_alpha c = true.
Proof.
  intros Hx Hin. destruct cl as [d| | | |cs]; simpl in *; try discriminate.
  - unfold char_eqb in Hin. apply N.eqb_eq in Hin. now subst d.
  - exact Hin.
  - apply existsb_exists in Hin. destruct Hin as (d & Hd & Heq).
    unfold char_eqb in Heq. apply N.eqb_eq in Heq. subst d.
    rewrite forallb_forall in Hx. now apply Hx.
Qed.

Lemma letterless_app a b :
  letterless (a ++ b) = letterless a && letterless b.
Proof. apply forallb_app. Qed.

Lemma pieces_letterless r :
  forall ps,
    pieces_of r ps -> letterless (List.concat ps) = true ->
    needs_letter r = false.
Proof.
  induction r as [|a r IH]; intros ps Hps Hl; [reflexivity|].
  destruct ps as [|p ps]; simpl in Hps; [contradiction|].
  destruct Hps as ((Hcls & Hlo & _) & Hps).
  cbn [List.concat] in Hl. rewrite letterless_app in Hl.
  apply andb_true_iff in Hl. destruct Hl as (Hp & Hrest).
  cbn [needs_letter existsb]. fold (needs_letter r).
  rewrite (IH _ Hps Hrest), orb_false_r.
  destruct (letter_class (cls a)) eqn:Hx; [|reflexivity]. cbn [andb].
  destruct (qmin a) as [|n]; [reflexivity|].
  destruct p as [|c p]; [simpl in Hlo; lia|].
  cbn [forallb] in Hcls, Hp.
  apply andb_true_iff in Hcls. apply andb_true_iff in Hp.
  destruct Hcls as (Hc & _). destruct Hp as (Hc' & _).
  rewrite (letter_class_sound _ _ Hx Hc) in Hc'. discriminate.
Qed.

Lemma replace_letterless r template s :
  needs_letter r = true -> letterless s = true -> replace r template s = s.
Proof.
  intros Hr Hs. unfold replace. apply replace_from_no_match.
  intros pre u ->.
  destruct (match_here r u) as [[caps rest]|] eqn:Hm; [|reflexivity].
  apply match_here_sound in Hm. destruct Hm as (ps & Hps & Heq & _).
  subst u. rewrite !letterless_app in Hs.
  apply andb_true_iff in Hs. destruct Hs as (_ & Hs).
  apply andb_true_iff in Hs. destruct Hs as (Hs & _).
  rewrite (pieces_letterless _ _ Hps Hs) in Hr. discriminate.
Qed.

Lemma apply_replacements_letterless entries :
  forall s,
    forallb key_needs_letter entries = true -> letterless s = true ->
    apply_replacements entries s = inr s.
Proof.
  induction entries as [|[wrong correct] entries IH]; intros s Hk Hs;
    [reflexivity|].
  cbn [forallb] in Hk. apply andb_true_iff in Hk. destruct Hk as (Hk & Hks).
  unfold key_needs_letter in Hk. cbn [fst] in Hk. simpl.
  destruct (RegExp (str wrong)) as [re|]; [|discriminate].
  rewrite replace_letterless by assumption. simpl. now apply IH.
Qed.

Lemma replacements_need_a_letter :
  forallb key_needs_letter (Object_entries replacements) = true.
Proof. vm_compute. reflexivity. Qed.

(** X3: The correction table changes only texts with letters. *)
Theorem table_leaves_letterless_text :
  forall s : jsstring,
    letterless s = true ->
    apply_replacements (Object_entries replacements) s = inr s.
Proof.
  intros s Hs. apply apply_replacements_letterless; [|exact Hs].
  exact replacements_need_a_letter.
Qed.

(** X3 on sample data. *)
Lemma table_leaves_letterless_text_witness :
  apply_replacements (Object_entries replacements) (str "10 500.00 - 12/03")
  = inr (str "10 500.00 - 12/03").
Proof. apply table_leaves_letterless_text. reflexivity. Defined.

(** X4: The normalizer writes an account number with spaces around its
    hyphens without them. *)
Theorem cleanText_joins_account_numbers g1 w1 w2 g2 w3 w4 g3 :
  forallb is_digit g1 = true -> forallb is_digit g2 = true ->
  forallb is_digit g3 = true ->
  forallb is_space w1 = true -> forallb is_space w2 = true ->
  forallb is_space w3 = true -> forallb is_space w4 = true ->
  account_shape g1 g2 g3 ->
  cleanText (spaced_account g1 w1 w2 g2 w3 w4 g3)
  = inr (account_number g1 g2 g3).
Proof.
  intros D1 D2 D3 W1 W2 W3 W4 Hshape. unfold cleanText.
  rewrite apply_replacements_letterless.
  - cbn [bind]. rewrite fix_spacing_spaced_account by assumption.
    assert (HA : without CAlpha (spaced_account g1 w1 w2 g2 w3 w4 g3) = true).
    { apply spaced_account_without; trivial;
        [exact digit_not_alpha|exact space_not_alpha]. }
    rewrite fix_dates_no_triples;
      [|now apply no_triple_without_second|now apply no_triple_without_first].
    f_equal. now apply fix_account_numbers_spaced_account.
  - exact replacements_need_a_letter.
  - apply (@spaced_account_without CAlpha); trivial;
      [exact digit_not_alpha|exact space_not_alpha].
Qed.

(** X4 on sample data. *)
Lemma cleanText_joins_account_numbers_witness :
  cleanText (str "123 - 4567 -8901") = inr (str "123-4567-8901").
Proof.
  apply (@cleanText_joins_account_numbers
           (str "123") (str " ") (str " ") (str "4567") (str " ") []
           (str "8901")); try reflexivity.
  right. repeat split; reflexivity.
Defined.

(** ** Further properties of the validator *)

Section AfterFilter.
Variable E : host.
Hypothesis Hclock : clock_in_range E.

Lemma parses_today n :
  parses_as_date E (VString (today_string (clock E n))) = true.
Proof.
  unfold parses_as_date. cbn [new_Date]. unfold Date_parse.
  now rewrite (@parse_today_string _ (Hclock n)).
Qed.

Lemma parses_fix_date v n : parses_as_date E (fix_date E v n) = true.
Proof.
  unfold fix_date. destruct (parses_as_date E v) eqn:Hp; [exact Hp|].
  apply parses_today.
Qed.

Lemma parses_fixed_from lo hi tx tx' :
  parses_as_date E (Candidate.date tx) = true ->
  fixed_from E lo hi tx tx' ->
  parses_as_date E (Candidate.date tx') = true.
Proof.
  intros Hp (_ & _ & _ & Hd & _).
  destruct Hd as [->|(Hn & _)]; congruence.
Qed.

Lemma parses_fixed_to lo hi tx tx' :
  fixed_to E lo hi tx tx' ->
  parses_as_date E (Candidate.date tx') = true.
Proof.
  intros (_ & _ & _ & _ & Hd).
  destruct (parses_as_date E (Candidate.date tx)) eqn:Hp.
  - now rewrite Hd.
  - destruct Hd as (k & _ & ->). apply parses_today.
Qed.

(** After [filter], every candidate kept is an object with nothing left
    to fix. *)
Lemma filter_settles txs st kept st1 :
  filter E txs st = (Returns kept, st1) ->
  forall v, In v kept ->
            exists r, ref_of v = Some r /\ settled E (objects st1 r).
Proof.
  intros Hf v Hv.
  destruct (filter_spec E txs st Hf) as (_ & _ & Hsan & _).
  destruct (Hsan v Hv) as (r & Hr & Hs & Hto).
  exists r. split; [exact Hr|]. split; [exact Hs|].
  now apply parses_fixed_to with (ticks st) (ticks st1) (objects st r).
Qed.

Section MapStep.
Variables cat user : jsstring.

Lemma map_callback_parsed tx r st :
  ref_of tx = Some r ->
  settled E (objects st r) ->
  map_callback E cat user tx st
  = (Returns (transaction_of E cat user (ticks st) (objects st r)), st).
Proof.
  intros Href ((Ha & _ & Hs) & Hp).
  apply invalid_amount_false in Ha. destruct Ha as (x & Hx & _).
  destruct (bad_description_false _ Hs) as (ch & s & Hd).
  unfold map_callback, transaction_of, parses_as_date in *.
  destruct (objects st r) as [d ds a ty c] eqn:Hobj.
  cbn [Candidate.date Candidate.description Candidate.amount Candidate.type] in *.
  subst a ds.
  destruct (new_Date E d) as [[t|]|] eqn:Hdate; try discriminate Hp.
  destruct tx; try discriminate Href; injection Href as ->;
    repeat first [ rewrite Hobj | rewrite Hdate
                 | progress cbn [String_ number_of returned]
                 | progress callback_norm Hobj ];
    reflexivity.
Qed.

Lemma map_parsed kept :
  forall st,
    (forall v, In v kept ->
               exists r, ref_of v = Some r /\ settled E (objects st r)) ->
    map E cat user kept st
    = (Returns (List.map (fun v => transaction_of E cat user (ticks st)
                                                  (properties st v))
                         kept), st).
Proof.
  induction kept as [|tx kept IH]; intros st H; [reflexivity|].
  destruct (H tx (or_introl eq_refl)) as (r & Href & Hset).
  cbn [map]. unfold next.
  rewrite (@map_callback_parsed tx r st Href Hset).
  rewrite IH by (intros v Hv; apply H; now right).
  unfold finish. cbn [List.map]. now rewrite (@properties_object st tx r Href).
Qed.

End MapStep.
End AfterFilter.

Lemma Forall2_map_right (A B : Type) (P : A -> B -> Prop) (f : A -> B) l :
  (forall a, In a l -> P a (f a)) -> Forall2 P l (List.map f l).
Proof.
  induction l as [|a l IH]; intros H; constructor.
  - apply H. now left.
  - apply IH. intros a' Ha'. apply H. now right.
Qed.

(** X5: After the [filter] step the [map] step finds a valid date in every
    candidate: it returns, reads no clock and writes no warning. *)
Theorem map_step_never_falls_back :
  forall (E : host) (cat user : jsstring),
    clock_in_range E ->
    forall (txs : list value) (st : state) (kept : list value) (st1 : state),
      filter E txs st = (Returns kept, st1) ->
      exists valid : list Transaction.t,
        map E cat user kept st1 = (Returns valid, st1)
        /\ Forall2 (fun v t =>
                      new_Date E (Candidate.date (properties st1 v))
                      = Returns (Transaction.date t)
                      /\ is_invalid (Transaction.date t) = false)
                   kept valid.
Proof.
  intros E cat user Hclock txs st kept st1 Hf.
  pose proof (@filter_settles E Hclock txs st kept st1 Hf) as Hset.
  eexists. split; [apply (@map_parsed E cat user kept st1 Hset)|].
  apply Forall2_map_right.
  intros v Hv. destruct (Hset v Hv) as (r & Hr & _ & Hp).
  rewrite (@properties_object st1 v r Hr).
  unfold parses_as_date in Hp.
  unfold transaction_of. cbn [Transaction.date].
  destruct (new_Date E (Candidate.date (objects st1 r))) as [[t|]|];
    try discriminate.
  split; reflexivity.
Qed.

(** X5 on sample data. *)
Lemma map_step_never_falls_back_witness :
  exists kept st1 valid,
    filter example_host example_batch example_state = (Returns kept, st1)
    /\ map example_host (str "cat") (str "usr") kept st1 = (Returns valid, st1).
Proof.
  destruct (filter example_host example_batch example_state)
    as [[kept|] st1] eqn:Hf; [|vm_compute in Hf; discriminate].
  destruct (@map_step_never_falls_back example_host (str "cat") (str "usr")
              example_clock_in_range example_batch example_state kept st1 Hf)
    as (valid & Hm & _).
  now exists kept, st1, valid.
Defined.

Section SameDates.
Variables E E' : host.
Hypothesis Hsame : same_dates E E'.

Lemma new_Date_same v : new_Date E v = new_Date E' v.
Proof.
  destruct Hsame as (_ & Hp & Ho).
  destruct v; cbn [new_Date]; auto.
  unfold Date_parse. now rewrite Hp.
Qed.

Lemma filter_callback_same tx st :
  filter_callback E tx st = filter_callback E' tx st.
Proof.
  unfold filter_callback.
  destruct tx as [| | | | |r|r]; try reflexivity;
    destruct (objects st r) as [d ds a ty c] eqn:Hobj;
    destruct (invalid_amount a) eqn:Ha;
    destruct (is_literal ty "INCOME") eqn:Hi, (is_literal ty "EXPENSE") eqn:He;
    destruct ds;
    repeat first [ rewrite Hobj | rewrite Ha | rewrite Hi | rewrite He
                 | progress callback_norm Hobj ];
    try reflexivity;
    rewrite ?new_Date_same;
    destruct (new_Date E' d) as [[t|]|] eqn:Hd;
    repeat first [ rewrite Hobj | rewrite Hd | progress callback_norm Hobj ];
    rewrite ?(proj1 Hsame); reflexivity.
Qed.

Lemma filter_same txs : forall st, filter E txs st = filter E' txs st.
Proof.
  induction txs as [|tx txs IH]; intros st; [reflexivity|].
  cbn [filter]. unfold next. rewrite filter_callback_same.
  destruct (filter_callback E' tx st) as [[keep|] st1]; [|reflexivity].
  now rewrite IH.
Qed.

Section SameMap.
Variables cat user : jsstring.

Lemma map_callback_same tx r st :
  ref_of tx = Some r ->
  sanitized (objects st r) ->
  map_callback E cat user tx st = map_callback E' cat user tx st.
Proof.
  intros Href (Ha & _ & Hs).
  apply invalid_amount_false in Ha. destruct Ha as (x & Hx & _).
  destruct (bad_description_false _ Hs) as (ch & s & Hd).
  unfold map_callback.
  destruct (objects st r) as [d ds a ty c] eqn:Hobj.
  cbn [Candidate.date Candidate.description Candidate.amount Candidate.type] in *.
  subst a ds.
  destruct tx; try discriminate Href; injection Href as ->;
    repeat first [ rewrite Hobj | progress callback_norm Hobj ];
    rewrite ?new_Date_same;
    destruct (new_Date E' d) as [[t|]|] eqn:Hdate;
    repeat first [ rewrite Hobj | rewrite Hdate
                 | progress cbn [String_ number_of returned]
                 | progress callback_norm Hobj ];
    rewrite ?(proj1 Hsame); reflexivity.
Qed.

Lemma map_same kept :
  forall st,
    (forall v, In v kept ->
               exists r, ref_of v = Some r /\ sanitized (objects st r)) ->
    map E cat user kept st = map E' cat user kept st.
Proof.
  induction kept as [|tx kept IH]; intros st H; [reflexivity|].
  destruct (H tx (or_introl eq_refl)) as (r & Href & Hsan).
  cbn [map]. unfold next. rewrite (@map_callback_same tx r st Href Hsan).
  destruct (@map_callback_spec E' cat user tx r st Href Hsan)
    as (st1 & -> & Hobj & _).
  rewrite IH; [reflexivity|].
  intros v Hv. rewrite Hobj. apply H. now right.
Qed.

End SameMap.
End SameDates.



Section Revalidation.
Variable E : host.
Hypothesis Hclock : clock_in_range E.

Lemma filter_callback_settled tx r st :
  ref_of tx = Some r ->
  settled E (objects st r) -> filter_callback E tx st = (Returns true, st).
Proof.
  intros Href ((Ha & Ht & Hs) & Hp).
  destruct (bad_description_false _ Hs) as (ch & s & Hd).
  unfold valid_type, parses_as_date, filter_callback in *.
  destruct (objects st r) as [d ds a ty c] eqn:Hobj.
  cbn [Candidate.date Candidate.description Candidate.amount Candidate.type] in *.
  subst ds.
  destruct (new_Date E d) as [[t|]|] eqn:Hdate; try discriminate Hp.
  destruct tx; try discriminate Href; injection Href as ->;
    destruct (is_literal ty "INCOME") eqn:Hi, (is_literal ty "EXPENSE") eqn:He;
    try discriminate Ht;
    repeat first [ rewrite Hobj | rewrite Ha | rewrite Hi | rewrite He
                 | rewrite Hdate | progress cbn [typeof_string truthy]
                 | progress callback_norm Hobj ];
    reflexivity.
Qed.

Lemma hazardous_same_objects st s v :
  objects s = objects st -> hazardous E s v = hazardous E st v.
Proof. intros H. unfold hazardous, properties. now rewrite H. Qed.

Lemma settled_fixed_from lo hi tx tx' :
  settled E tx -> fixed_from E lo hi tx tx' -> settled E tx'.
Proof.
  intros (Hs & Hp) Hf. split.
  - now apply sanitized_fixed_from with E lo hi tx.
  - now apply parses_fixed_from with lo hi tx.
Qed.

(** A second run of [filter], started where a first run has ended, goes
    the way of the first, changes no candidate and reads no clock. *)
Lemma filter_again txs :
  forall st s,
    objects s = objects (snd (filter E txs st)) ->
    ticks s = ticks (snd (filter E txs st)) ->
    fst (filter E txs s) = fst (filter E txs st)
    /\ objects (snd (filter E txs s)) = objects s
    /\ ticks (snd (filter E txs s)) = ticks s.
Proof.
  induction txs as [|tx txs IH]; intros st s Ho Ht; [now repeat split|].
  cbn [filter] in *. unfold next in *.
  pose proof (filter_frame E txs) as Hframe.
  destruct (filter_callback_cases E tx st)
    as [(Hz & Hcb)|[(Hz & Hn & Hcb)
                   |(Hz & Hn & r & st1 & Href & Hcb & Hobj & Htick & _)]];
    rewrite Hcb in *; cbn [fst snd] in Ho, Ht.
  - rewrite <- (@hazardous_same_objects st s tx Ho) in Hz.
    destruct (filter_callback_cases E tx s)
      as [(_ & ->)|[(Hz2 & _)|(Hz2 & _)]]; try congruence.
    now repeat split.
  - set (st1 := warn _ st) in *.
    specialize (Hframe st1). specialize (IH st1).
    destruct (filter E txs st1) as [c st'] eqn:Hf. cbn [fst snd] in Hframe.
    destruct Hframe as (_ & Hfix & _).
    assert (Hst' : snd (match c with
                        | Returns a => finish a st'
                        | Throws => (Throws, st')
                        end) = st') by (destruct c; reflexivity).
    rewrite Hst' in Ho, Ht.
    assert (Hdrop : exists w, filter_callback E tx s = (Returns false, warn w s)).
    { destruct (ref_of tx) as [r|] eqn:Href.
      - destruct (Hfix r) as (Ha & _ & _ & _ & Hd).
        unfold numeric_amount in Hn.
        rewrite (@hazardous_object E st tx r Href) in Hz.
        rewrite (@properties_object st tx r Href) in Hn.
        apply negb_false_iff in Hn.
        eexists. apply filter_callback_drop with (r := r); [exact Href| |].
        + rewrite Ho. change (objects st1 r) with (objects st r) in Ha.
          now rewrite Ha.
        + rewrite Ho. change (objects st1 r) with (objects st r) in Hd.
          destruct Hd as [->|(_ & ->)]; [|reflexivity].
          unfold hazard in Hz. rewrite Hn in Hz. cbn [orb] in Hz.
          rewrite andb_true_r in Hz. now apply negb_false_iff in Hz.
      - destruct tx; try discriminate Href; try discriminate Hz;
          eexists; reflexivity. }
    destruct Hdrop as (w & ->).
    destruct (IH (warn w s) Ho Ht) as (Hc & Ho2 & Ht2).
    destruct (filter E txs (warn w s)) as [c2 s2]. cbn [fst snd] in *.
    subst c2. destruct c; now repeat split.
  - specialize (Hframe st1). specialize (IH st1).
    destruct (filter E txs st1) as [c st'] eqn:Hf. cbn [fst snd] in Hframe.
    destruct Hframe as (_ & Hfix & _).
    assert (Hst' : snd (match c with
                        | Returns a => finish (tx :: a) st'
                        | Throws => (Throws, st')
                        end) = st') by (destruct c; reflexivity).
    rewrite Hst' in Ho, Ht.
    assert (Ha : invalid_amount (Candidate.amount (objects st r)) = false).
    { unfold numeric_amount in Hn. rewrite (@properties_object st tx r Href) in Hn.
      now apply negb_true_iff in Hn. }
    assert (Hset : settled E (objects s r)).
    { rewrite Ho. apply settled_fixed_from with (ticks st1) (ticks st') (objects st1 r);
        [|apply Hfix].
      rewrite Hobj, update_same. split.
      - now apply sanitized_fix_candidate.
      - cbn [fix_candidate Candidate.date]. now apply parses_fix_date. }
    rewrite (@filter_callback_settled tx r s Href Hset).
    destruct (IH s Ho Ht) as (Hc & Ho2 & Ht2).
    destruct (filter E txs s) as [c2 s2]. cbn [fst snd] in *.
    subst c2. destruct c; now repeat split.
Qed.

End Revalidation.

(** X7: Validating a batch a second time, when the first run has kept a
    candidate, gives the same transactions and changes no candidate and
    reads no clock. *)
Theorem validator_is_idempotent :
  forall (E : host) (cat user : jsstring) (txs : list value) (st : state),
    clock_in_range E ->
    List.filter (numeric_amount st) txs <> [] ->
    let st' := snd (validTransactions E cat user txs st) in
    fst (validTransactions E cat user txs st')
    = fst (validTransactions E cat user txs st)
    /\ objects (snd (validTransactions E cat user txs st')) = objects st'
    /\ ticks (snd (validTransactions E cat user txs st')) = ticks st'.
Proof.
  intros E cat user txs st Hclock Hne.
  assert (Hrun : forall s c s1,
             filter E txs s = (c, s1) ->
             match c with
             | Returns kept =>
                 kept <> [] ->
                 validTransactions E cat user txs s
                 = (Returns (List.map
                               (fun v => transaction_of E cat user (ticks s1)
                                                        (properties s1 v))
                               kept), s1)
             | Throws => validTransactions E cat user txs s = (Throws, s1)
             end).
  { intros s c s1 Hf. unfold validTransactions, next. rewrite Hf.
    destruct c as [kept|]; [|reflexivity]. intros Hk.
    rewrite (@map_parsed E cat user kept s1
               (@filter_settles E Hclock txs s kept s1 Hf)).
    destruct kept; [congruence|reflexivity]. }
  destruct (filter E txs st) as [c st1] eqn:Hf.
  pose proof (@filter_again E Hclock txs st st1) as Hagain.
  rewrite Hf in Hagain. destruct (Hagain eq_refl eq_refl) as (Hc & Ho & Ht).
  destruct (filter E txs st1) as [c2 s2] eqn:Hf2. cbn [fst snd] in Hc, Ho, Ht.
  subst c2.
  pose proof (Hrun st c st1 Hf) as H1. pose proof (Hrun st1 c s2 Hf2) as H2.
  destruct c as [kept|].
  - assert (Hk : kept <> []).
    { destruct (filter_spec E txs st Hf) as (Hk & _). now rewrite Hk. }
    cbv zeta. rewrite (H1 Hk). cbn [fst snd]. rewrite (H2 Hk). cbn [fst snd].
    split; [|split; assumption].
    f_equal. apply map_ext. intros v. unfold properties. now rewrite Ho, Ht.
  - cbv zeta. rewrite H1. cbn [fst snd]. rewrite H2. cbn [fst snd].
    now repeat split.
Qed.

(** X7 on sample data. *)
Lemma validator_is_idempotent_witness :
  fst (validTransactions example_host (str "cat") (str "usr") example_batch
         (snd (validTransactions example_host (str "cat") (str "usr")
                                 example_batch example_state)))
  = fst (validTransactions example_host (str "cat") (str "usr") example_batch
                           example_state).
Proof.
  refine (proj1 (@validator_is_idempotent example_host (str "cat") (str "usr")
                   example_batch example_state example_clock_in_range _)).
  vm_compute. discriminate.
Defined.

Lemma hazardous_spelled E st v :
  hazardous E st v = true
  <-> v = VNull \/ v = VUndefined
      \/ exists r,
          ref_of v = Some r
          /\ printable (Candidate.description (objects st r)) = false
          /\ (invalid_amount (Candidate.amount (objects st r)) = true
              \/ valid_type (Candidate.type (objects st r)) = false
              \/ parses_as_date E (Candidate.date (objects st r)) = false).
Proof.
  assert (Hobject : forall tx,
             hazard E tx = true
             <-> printable (Candidate.description tx) = false
                 /\ (invalid_amount (Candidate.amount tx) = true
                     \/ valid_type (Candidate.type tx) = false
                     \/ parses_as_date E (Candidate.date tx) = false)).
  { intros tx. unfold hazard.
    rewrite andb_true_iff, !orb_true_iff, !negb_true_iff. tauto. }
  destruct v as [| | | | |r|r]; cbn [hazardous].
  - split; auto.
  - split; auto.
  - split; [discriminate|].
    intros [H|[H|(r & H & _)]]; discriminate.
  - split; [discriminate|].
    intros [H|[H|(r & H & _)]]; discriminate.
  - split; [discriminate|].
    intros [H|[H|(r & H & _)]]; discriminate.
  - change (properties st (VObject r)) with (objects st r). rewrite Hobject.
    split.
    + intros H. right. right. exists r. now split.
    + intros [H|[H|(r' & Hr & H)]]; try discriminate.
      injection Hr as <-. exact H.
  - change (properties st (VInconvertible r)) with (objects st r).
    rewrite Hobject. split.
    + intros H. right. right. exists r. now split.
    + intros [H|[H|(r' & Hr & H)]]; try discriminate.
      injection Hr as <-. exact H.
Qed.

(** X22: The validation throws exactly when the batch holds an element that
    is [null] or [undefined], or a candidate whose description has no
    string and that needs a warning naming it: one with an amount that
    is not a number, a type other than INCOME and EXPENSE, or a date that
    does not parse.  The throw comes from the [filter] step, and every
    candidate is then as it was or partly fixed. *)
Theorem validation_throws_on_unprintable_warnings :
  forall (E : host) (cat user : jsstring) (txs : list value) (st : state),
    ((exists st', validTransactions E cat user txs st = (Throws, st'))
     <-> exists v, In v txs /\ hazardous E st v = true)
    /\ (forall v,
          hazardous E st v = true
          <-> v = VNull \/ v = VUndefined
              \/ exists r,
                  ref_of v = Some r
                  /\ printable (Candidate.description (objects st r)) = false
                  /\ (invalid_amount (Candidate.amount (objects st r)) = true
                      \/ valid_type (Candidate.type (objects st r)) = false
                      \/ parses_as_date E (Candidate.date (objects st r)) = false))
    /\ (forall st',
          validTransactions E cat user txs st = (Throws, st') ->
          filter E txs st = (Throws, st')
          /\ forall r, fixed_from E (ticks st) (ticks st')
                                  (objects st r) (objects st' r)).
Proof.
  intros E cat user txs st. split; [|split].
  - rewrite validTransactions_throws_iff, existsb_exists. reflexivity.
  - intros v. apply hazardous_spelled.
  - intros st' Hrun.
    pose proof (validTransactions_after_filter E cat user txs st) as H.
    pose proof (filter_frame E txs st) as Hframe.
    destruct (filter E txs st) as [[kept|] st1].
    + destruct H as (out & s & H & _). congruence.
    + assert (st1 = st') by congruence. subst st1.
      split; [reflexivity|]. cbn [snd] in Hframe. apply Hframe.
Qed.

(** X22 on the batch of the three candidates with an unprintable
    description: the first makes the validation throw. *)
Lemma validation_throws_on_unprintable_warnings_witness :
  exists st',
    validTransactions example_host (str "cat") (str "usr")
                      [VObject 2; VObject 0; VObject 1] unprintable_state
    = (Throws, st').
Proof.
  apply (proj1 (@validation_throws_on_unprintable_warnings
                  example_host (str "cat") (str "usr")
                  [VObject 2; VObject 0; VObject 1] unprintable_state)).
  exists (VObject 0). split; [right; left; reflexivity|reflexivity].
Defined.

(** X23: On a batch the validation gets through, the accepted list is not
    empty; when the batch is empty or every candidate is dropped for its
    amount, it is exactly the default transaction (fixed description,
    amount 100, type EXPENSE, the date read from the clock at that
    moment); and the empty batch rejects nothing. *)
Theorem accepted_list_never_empty :
  forall (E : host) (cat user : jsstring) (txs : list value) (st : state),
    (existsb (hazardous E st) txs = false ->
     exists valid st',
       validTransactions E cat user txs st = (Returns valid, st')
       /\ valid <> []
       /\ (forallb (fun v => negb (numeric_amount st v)) txs = true ->
           valid
           = [Transaction.Make
                (Some (clock E (ticks st)))
                (str "Default transaction (no valid transactions detected)")
                100%float (str "EXPENSE") cat user]))
    /\ fst (validTransactions E cat user [] st)
       = Returns [Transaction.Make
                    (Some (clock E (ticks st)))
                    (str "Default transaction (no valid transactions detected)")
                    100%float (str "EXPENSE") cat user]
    /\ rejected_by E cat user [] st = 0.
Proof.
  intros E cat user txs st. split; [|split].
  - intros Hz.
    destruct (validTransactions_spec E cat user txs st Hz)
      as (valid & st' & Hrun & _ & _ & _ & Hnil & Hcons).
    exists valid, st'. split; [exact Hrun|]. split.
    + destruct (List.filter (numeric_amount st) txs) as [|v0 kept] eqn:Hk.
      * rewrite (Hnil eq_refl). discriminate.
      * destruct (Hcons ltac:(discriminate))
          as (st1 & _ & _ & _ & _ & _ & _ & Hall).
        intros Hout. rewrite Hout in Hall. inversion Hall.
    + intros Hall. apply Hnil.
      clear Hnil Hcons Hrun Hz. induction txs as [|v txs IH]; [reflexivity|].
      simpl in Hall. apply andb_true_iff in Hall. destruct Hall as (Hv & Hall).
      cbn [List.filter]. apply negb_true_iff in Hv. rewrite Hv.
      now apply IH.
  - reflexivity.
  - unfold rejected_by.
    change (rejectedCount (snd (validTransactions E cat user [] st)))
      with (rejectedCount st).
    apply Nat.sub_diag.
Qed.

(** X23 on a batch whose two candidates are both dropped. *)
Lemma accepted_list_never_empty_witness :
  exists valid st',
    validTransactions example_host (str "cat") (str "usr")
                      [VObject 2; VObject 3] example_state
    = (Returns valid, st')
    /\ valid
       = [Transaction.Make
            (Some 1793534400123%Z)
            (str "Default transaction (no valid transactions detected)")
            100%float (str "EXPENSE") (str "cat") (str "usr")].
Proof.
  destruct (accepted_list_never_empty
              example_host (str "cat") (str "usr") [VObject 2; VObject 3]
              example_state) as (H & _).
  destruct (H eq_refl) as (valid & st' & Hrun & _ & Hall).
  exists valid, st'. split; [exact Hrun|]. apply Hall. reflexivity.
Defined.

(** X24: On a batch the validation gets through, every candidate whose
    amount is a number other than NaN survives, whatever its other
    fields: the accepted list holds one transaction for each such
    candidate, in order, with the candidate's amount, the type EXPENSE
    unless the type is INCOME, the placeholder description unless the
    description is a non-empty string, and, when the date does not
    parse, a date on the day of a clock reading made during the run.
    The candidate {date: "not-a-date", description: "", amount: 42.5,
    type: "XYZ"} alone yields exactly one transaction: EXPENSE,
    "Unnamed transaction", 42.5, dated the current day. *)
Theorem numeric_candidates_survive :
  forall (E : host) (cat user : jsstring),
    clock_in_range E ->
    (forall (txs : list value) (st : state),
        existsb (hazardous E st) txs = false ->
        List.filter (numeric_amount st) txs <> [] ->
        exists valid st',
          validTransactions E cat user txs st = (Returns valid, st')
          /\ Forall2 (fun v t =>
                        survives_as E cat user (ticks st) (ticks st')
                                    (properties st v) t)
                     (List.filter (numeric_amount st) txs) valid)
    /\ (forall (st : state) (r : ref),
          objects st r = scenario_candidate ->
          Date_parse_other E (str "not-a-date") = None ->
          fst (validTransactions E cat user [VObject r] st)
          = Returns [Transaction.Make
                       (Some (msPerDay * Day (clock E (ticks st)))%Z)
                       (str "Unnamed transaction") 42.5%float (str "EXPENSE")
                       cat user]).
Proof.
  intros E cat user Hclock. split.
  - intros txs st Hz Hne.
    destruct (validTransactions_spec E cat user txs st Hz)
      as (valid & st' & Hrun & _ & _ & _ & _ & Hcons).
    exists valid, st'. split; [exact Hrun|].
    destruct (Hcons Hne) as (st1 & _ & Hlo & Hhi & _ & Hfix & Hsan & Hall).
    eapply Forall2_impl_in; [|exact Hall].
    intros v t Hin (n & Hn & Hlt & ->).
    destruct (Hsan v Hin) as (r & Hr & Hs & _).
    rewrite (@properties_object st v r Hr).
    rewrite (@properties_object st1 v r Hr) in *.
    eapply transaction_of_survives; eauto.
  - intros st r Hobj Hparse.
    assert (Ha : invalid_amount (Candidate.amount (objects st r)) = false)
      by (rewrite Hobj; reflexivity).
    assert (Hz : hazard E (objects st r) = false)
      by (rewrite Hobj; reflexivity).
    destruct (@filter_callback_keep E (VObject r) r st eq_refl Ha Hz)
      as (st1 & Hcb & Hobj1 & Htick & _).
    assert (Hsan : sanitized (objects st1 r))
      by (rewrite Hobj1, update_same; now apply sanitized_fix_candidate).
    destruct (@map_callback_spec E cat user (VObject r) r st1 eq_refl Hsan)
      as (st2 & Hm & _).
    unfold validTransactions, next. cbn [filter]. unfold next.
    rewrite Hcb. cbn [finish map]. unfold next. rewrite Hm. cbn [finish fst].
    rewrite Hobj1, update_same, Hobj.
    unfold fix_candidate, scenario_candidate, transaction_of.
    cbn [Candidate.date Candidate.description Candidate.amount Candidate.type
         Candidate.category].
    unfold fix_date. rewrite (scenario_does_not_parse E Hparse).
    cbn [new_Date]. unfold Date_parse.
    rewrite (@parse_today_string _ (Hclock (ticks st))).
    reflexivity.
Qed.

(** X24 on the scenario, the clock reading 2026-11-01T12:00:00.123Z. *)
Lemma numeric_candidates_survive_witness :
  fst (validTransactions example_host (str "cat") (str "usr") [VObject 0]
                         example_state)
  = Returns [Transaction.Make
               (Some 1793491200000%Z)
               (str "Unnamed transaction") 42.5%float (str "EXPENSE")
               (str "cat") (str "usr")].
Proof.
  destruct (numeric_candidates_survive (str "cat") (str "usr")
              example_clock_in_range) as (_ & H).
  exact (H example_state 0 eq_refl eq_refl).
Defined.

(** ** The upload pipeline: properties *)

Section UploadFacts.
Variable W : Type.
Variable V : Upload.services W.
Variable E : host.
Variable R : Upload.runtime.

Lemma process_received o form file name data o' tr st :
  received V R o form file name data o' ->
  Upload.process V E R (Upload.World o tr st)
  = analyse_and_store V R E
      {| Upload.validated_file := file;
         Upload.validated_fileName := name;
         Upload.validated_documentType := Upload.documentType_input form |}
      file
      (Upload.World o' (receiving R file data ++ tr) st).
Proof.
  intros (o1 & o2 & o3 & Hform & Hfile & Hname & Htype & Hmk & Hrd & Hwr).
  unfold Upload.process, Upload.bind at 1, Upload.call at 1.
  cbn [Upload.outside Upload.trace Upload.js]. rewrite Hform.
  destruct (Upload.files_file form) as [[|file0 rest]|]; try discriminate.
  cbn [hd_error] in Hfile. inversion Hfile; subst file0. clear Hfile.
  unfold Upload.uploadSchema_parse. rewrite Hname, Htype.
  unfold Upload.bind at 1, Upload.ret at 1.
  unfold Upload.bind at 1, Upload.stage at 1, Upload.try_catch at 1,
    Upload.call at 1.
  cbn [Upload.outside Upload.trace Upload.js].
  fold (uploadDir R). rewrite Hmk.
  unfold Upload.bind at 1, Upload.stage at 1, Upload.try_catch at 1,
    Upload.bind at 1, Upload.call at 1.
  cbn [Upload.outside Upload.trace Upload.js]. rewrite Hrd.
  unfold Upload.call at 1. cbn [Upload.outside Upload.trace Upload.js].
  fold (filePath R file). rewrite Hwr.
  reflexivity.
Qed.

Lemma cleanText_returns text : exists cleaned, cleanText text = inr cleaned.
Proof.
  unfold cleanText.
  destruct (apply_replacements_total (Object_entries replacements)
              replacements_parse text) as (out & ->).
  cbn [Normalizer.bind]. eauto.
Qed.

End UploadFacts.

(** X8: An upload of a type that is neither an image nor a PDF is refused
    only once it has been written to the uploads directory, and the
    answer does not say why. *)
Theorem unsupported_type_is_refused_after_saving :
  forall (W : Type) (V : Upload.services W) (E : host) (R : Upload.runtime)
         (o o' : W) (form : Upload.Form) (file : Upload.File)
         (name mimeType : jsstring) (data : Upload.Buffer)
         (tr : list Upload.event) (st : state),
    received V R o form file name data o' ->
    Upload.mimetype file = Some mimeType ->
    starts_with (str "image/") mimeType = false ->
    jsstring_eqb mimeType (str "application/pdf") = false ->
    Upload.handler V E R (Some (str "POST")) (Upload.World o tr st)
    = (failed "Failed to extract text from document",
       Upload.World o' (receiving R file data ++ tr) st).
Proof.
  intros W V E R o o' form file name mimeType data tr st Hrec Hmt Himg Hpdf.
  unfold Upload.handler.
  change (jsstring_eqb (str "POST") (str "POST")) with true. cbv iota.
  rewrite (process_received E tr st Hrec).
  unfold analyse_and_store, Upload.bind at 1, Upload.stage at 1,
    Upload.try_catch, Upload.extractTextFromFile.
  rewrite Hmt, Himg, Hpdf. reflexivity.
Qed.

(** X8 on sample data. *)
Lemma unsupported_type_is_refused_after_saving_witness :
  Upload.handler (example_services (str "text/csv") false) example_host
                 example_runtime (Some (str "POST")) example_world
  = (failed "Failed to extract text from document",
     Upload.World 4
       [Upload.WriteFile (str "/app/uploads/upload_1.png") [137; 80; 78; 71]%N;
        Upload.ReadStream (str "/tmp/upload_1");
        Upload.Mkdir (str "/app/uploads");
        Upload.FormParse]
       example_state).
Proof.
  apply (@unsupported_type_is_refused_after_saving
           nat (example_services (str "text/csv") false) example_host
           example_runtime 0 4 (example_form (str "text/csv"))
           (example_file (str "text/csv")) (str "statement.png")
           (str "text/csv") [137; 80; 78; 71]%N [] example_state).
  - exists 1, 2, 3. repeat split; reflexivity.
  - reflexivity.
  - reflexivity.
  - reflexivity.
Defined.

(** X9: Whatever makes the extraction fail, the answer is the same, and
    nothing runs after the extraction. *)
Theorem extraction_failures_are_reported_alike :
  forall (W : Type) (V : Upload.services W) (E : host) (R : Upload.runtime)
         (o o' : W) (form : Upload.Form) (file : Upload.File)
         (name : jsstring) (data : Upload.Buffer)
         (tr : list Upload.event) (st : state) (error : Upload.exception),
    received V R o form file name data o' ->
    fst (Upload.extractTextFromFile V R (filePath R file) (Upload.mimetype file)
           (Upload.World o' (receiving R file data ++ tr) st))
    = inl error ->
    Upload.handler V E R (Some (str "POST")) (Upload.World o tr st)
    = (failed "Failed to extract text from document",
       snd (Upload.extractTextFromFile V R (filePath R file)
              (Upload.mimetype file)
              (Upload.World o' (receiving R file data ++ tr) st))).
Proof.
  intros W V E R o o' form file name data tr st error Hrec Hfail.
  unfold Upload.handler.
  change (jsstring_eqb (str "POST") (str "POST")) with true. cbv iota.
  rewrite (process_received E tr st Hrec).
  unfold analyse_and_store, Upload.bind at 1, Upload.stage at 1,
    Upload.try_catch.
  destruct (Upload.extractTextFromFile _ _ _ _ _) as [[e|text] w'];
    cbn [fst snd] in *; [reflexivity|discriminate].
Qed.

(** X9 on sample data. *)
Lemma extraction_failures_are_reported_alike_witness :
  Upload.handler (example_services (str "text/csv") false) example_host
                 example_runtime (Some (str "POST")) example_world
  = (failed "Failed to extract text from document",
     snd (Upload.extractTextFromFile
            (example_services (str "text/csv") false) example_runtime
            (filePath example_runtime (example_file (str "text/csv")))
            (Some (str "text/csv"))
            (Upload.World 4
               (receiving example_runtime (example_file (str "text/csv"))
                          [137; 80; 78; 71]%N ++ [])
               example_state))).
Proof.
  apply (@extraction_failures_are_reported_alike
           nat (example_services (str "text/csv") false) example_host
           example_runtime 0 4 (example_form (str "text/csv"))
           (example_file (str "text/csv")) (str "statement.png")
           [137; 80; 78; 71]%N [] example_state
           (Upload.JsError (str "Unsupported file type"))).
  - exists 1, 2, 3. repeat split; reflexivity.
  - reflexivity.
Defined.

(** X10: A failed analysis is answered as such, and the database is not
    called. *)
Theorem failed_analysis_touches_no_database :
  forall (W : Type) (V : Upload.services W) (E : host) (R : Upload.runtime)
         (o o' o'' : W) (form : Upload.Form) (file : Upload.File)
         (name text : jsstring) (data : Upload.Buffer)
         (tr : list Upload.event) (st : state) (w : Upload.world W)
         (error : Upload.exception),
    received V R o form file name data o' ->
    Upload.extractTextFromFile V R (filePath R file) (Upload.mimetype file)
      (Upload.World o' (receiving R file data ++ tr) st)
    = (inr text, w) ->
    Upload.analyzeFinancialDocument V text (Upload.outside w)
    = (inl error, o'') ->
    Upload.handler V E R (Some (str "POST")) (Upload.World o tr st)
    = (failed "Failed to analyze document",
       Upload.World o'' (Upload.Analyze text :: Upload.trace w) (Upload.js w)).
Proof.
  intros W V E R o o' o'' form file name text data tr st w error
         Hrec Htext Hfail.
  unfold Upload.handler.
  change (jsstring_eqb (str "POST") (str "POST")) with true. cbv iota.
  rewrite (process_received E tr st Hrec).
  unfold analyse_and_store, Upload.bind at 1, Upload.stage at 1,
    Upload.try_catch at 1.
  rewrite Htext.
  unfold Upload.bind at 1, Upload.stage at 1, Upload.try_catch at 1,
    Upload.call at 1.
  rewrite Hfail. reflexivity.
Qed.

(** X10 on sample data. *)
Lemma failed_analysis_touches_no_database_witness :
  Upload.handler (without_analysis (example_services (str "application/pdf") false))
                 example_host example_runtime (Some (str "POST")) example_world
  = (failed "Failed to analyze document",
     Upload.World 5
       [Upload.Analyze []; Upload.WarnPdf;
        Upload.WriteFile (str "/app/uploads/upload_1.png") [137; 80; 78; 71]%N;
        Upload.ReadStream (str "/tmp/upload_1");
        Upload.Mkdir (str "/app/uploads");
        Upload.FormParse]
       example_state).
Proof.
  apply (@failed_analysis_touches_no_database
           nat (without_analysis (example_services (str "application/pdf") false))
           example_host example_runtime 0 4 5
           (example_form (str "application/pdf"))
           (example_file (str "application/pdf")) (str "statement.png") []
           [137; 80; 78; 71]%N [] example_state
           (Upload.World 4
              (Upload.WarnPdf
               :: receiving example_runtime
                    (example_file (str "application/pdf"))
                    [137; 80; 78; 71]%N)
              example_state)
           (Upload.JsError (str "quota exceeded"))).
  - exists 1, 2, 3. repeat split; reflexivity.
  - reflexivity.
  - reflexivity.
Defined.

(** X11: Once the OCR worker is created it is terminated, whatever happens
    in between, and that is the last thing the extraction does. *)
Theorem worker_is_always_terminated :
  forall (W : Type) (V : Upload.services W) (R : Upload.runtime)
         (path mimeType : jsstring) (w : Upload.world W)
         (worker : Upload.worker) (o : W),
    starts_with (str "image/") mimeType = true ->
    Upload.createWorker V (Upload.outside w) = (inr worker, o) ->
    exists evs,
      Upload.trace (snd (Upload.extractTextFromFile V R path (Some mimeType) w))
      = Upload.Terminate worker :: evs ++ Upload.CreateWorker :: Upload.trace w
      /\ Forall (fun ev => ev <> Upload.Terminate worker) evs.
Proof.
  intros W V R path mimeType w worker o Himg Hcreate.
  unfold Upload.extractTextFromFile. rewrite Himg.
  unfold Upload.bind at 1, Upload.call at 1. rewrite Hcreate.
  unfold Upload.finally, Upload.try_catch, Upload.bind, Upload.call,
    Upload.throw, Upload.note, Upload.ret.
  cbn [Upload.outside Upload.trace Upload.js].
  destruct (Upload.reinitialize V worker o) as [[e1|[]] o1];
    cbn [Upload.outside Upload.trace Upload.js].
  { destruct (Upload.terminate V worker o1) as [[e|[]] o'];
      exists [Upload.Reinitialize worker]; (split; [reflexivity|]);
      repeat constructor; discriminate. }
  destruct (Upload.setParameters V worker o1) as [[e2|[]] o2];
    cbn [Upload.outside Upload.trace Upload.js].
  { destruct (Upload.terminate V worker o2) as [[e|[]] o'];
      exists [Upload.SetParameters worker; Upload.Reinitialize worker];
      (split; [reflexivity|]); repeat constructor; discriminate. }
  destruct (Upload.recognize V worker path o2) as [[e3|[text confidence]] o3];
    cbn [fst snd Upload.outside Upload.trace Upload.js].
  { destruct (Upload.terminate V worker o3) as [[e|[]] o'];
      exists [Upload.Recognize worker path; Upload.SetParameters worker;
              Upload.Reinitialize worker];
      (split; [reflexivity|]); repeat constructor; discriminate. }
  destruct (PrimFloat.ltb confidence 50) eqn:Hlow;
    cbn [Upload.outside Upload.trace Upload.js];
    destruct (cleanText text) as [[source]|cleaned];
    cbn [Upload.outside Upload.trace Upload.js];
    destruct (Upload.terminate V worker o3) as [[e|[]] o'];
    cbn [snd Upload.trace];
    first
      [ exists [Upload.WarnLowConfidence confidence;
                Upload.Recognize worker path; Upload.SetParameters worker;
                Upload.Reinitialize worker]; split; [reflexivity|]
      | exists [Upload.Recognize worker path; Upload.SetParameters worker;
                Upload.Reinitialize worker]; split; [reflexivity|] ];
    repeat constructor; discriminate.
Qed.

(** X11 on sample data. *)
Lemma worker_is_always_terminated_witness :
  exists evs,
    Upload.trace (snd (Upload.extractTextFromFile
                         (example_services (str "image/png") false)
                         example_runtime (str "/app/uploads/upload_1.png")
                         (Some (str "image/png")) example_world))
    = Upload.Terminate 7 :: evs ++ [Upload.CreateWorker]
    /\ Forall (fun ev => ev <> Upload.Terminate 7) evs.
Proof.
  apply (@worker_is_always_terminated
           nat (example_services (str "image/png") false) example_runtime
           (str "/app/uploads/upload_1.png") (str "image/png") example_world
           7 1); reflexivity.
Defined.

(** X12: The text of an image is the recognised text, normalised, whatever
    the confidence: a confidence under 50 adds a warning and nothing
    else. *)
Theorem image_text_is_normalised :
  forall (W : Type) (V : Upload.services W) (R : Upload.runtime)
         (path mimeType text : jsstring) (confidence : float)
         (w : Upload.world W) (worker : Upload.worker) (o1 o2 o3 o4 o5 : W),
    starts_with (str "image/") mimeType = true ->
    Upload.createWorker V (Upload.outside w) = (inr worker, o1) ->
    Upload.reinitialize V worker o1 = (inr tt, o2) ->
    Upload.setParameters V worker o2 = (inr tt, o3) ->
    Upload.recognize V worker path o3 = (inr (text, confidence), o4) ->
    Upload.terminate V worker o4 = (inr tt, o5) ->
    exists cleaned,
      cleanText text = inr cleaned
      /\ Upload.extractTextFromFile V R path (Some mimeType) w
         = (inr cleaned,
            Upload.World o5
              (Upload.Terminate worker
               :: (if PrimFloat.ltb confidence 50
                   then [Upload.WarnLowConfidence confidence] else [])
               ++ Upload.Recognize worker path :: Upload.SetParameters worker
               :: Upload.Reinitialize worker :: Upload.CreateWorker
               :: Upload.trace w)
              (Upload.js w)).
Proof.
  intros W V R path mimeType text confidence w worker o1 o2 o3 o4 o5
         Himg Hcreate Hinit Hset Hrec Hterm.
  destruct (cleanText_returns text) as (cleaned & Hclean).
  exists cleaned. split; [exact Hclean|].
  unfold Upload.extractTextFromFile. rewrite Himg.
  unfold Upload.finally, Upload.try_catch, Upload.bind, Upload.call,
    Upload.throw, Upload.note, Upload.ret.
  cbn [Upload.outside Upload.trace Upload.js].
  rewrite Hcreate. cbn [Upload.outside Upload.trace Upload.js].
  rewrite Hinit. cbn [Upload.outside Upload.trace Upload.js].
  rewrite Hset. cbn [Upload.outside Upload.trace Upload.js].
  rewrite Hrec. cbn [fst snd Upload.outside Upload.trace Upload.js].
  rewrite Hclean.
  destruct (PrimFloat.ltb confidence 50);
    cbn [Upload.outside Upload.trace Upload.js]; rewrite Hterm; reflexivity.
Qed.

(** X12 on sample data. *)
Lemma image_text_is_normalised_witness :
  exists cleaned,
    cleanText (str "Acc0un7 1234 - 567 - 890") = inr cleaned
    /\ Upload.extractTextFromFile (example_services (str "image/png") false)
         example_runtime (str "/app/uploads/upload_1.png")
         (Some (str "image/png")) example_world
       = (inr cleaned,
          Upload.World 5
            [Upload.Terminate 7; Upload.WarnLowConfidence 42%float;
             Upload.Recognize 7 (str "/app/uploads/upload_1.png");
             Upload.SetParameters 7; Upload.Reinitialize 7;
             Upload.CreateWorker]
            example_state).
Proof.
  apply (@image_text_is_normalised
           nat (example_services (str "image/png") false) example_runtime
           (str "/app/uploads/upload_1.png") (str "image/png")
           (str "Acc0un7 1234 - 567 - 890") 42%float example_world
           7 1 2 3 4 5); reflexivity.
Defined.

(** X13: When the default category is created by someone else between the
    look-up and the creation, the handler takes that category; when the
    second look-up finds nothing either, it gives up. *)
Theorem category_race_is_survived :
  forall (W : Type) (V : Upload.services W) (R : Upload.runtime)
         (userId message : jsstring) (error : Upload.exception)
         (found : option Upload.Category)
         (o o1 o2 o3 : W) (tr : list Upload.event) (st : state),
    Upload.category_findFirst V userId o = (inr None, o1) ->
    Upload.category_create V userId o1 = (inl error, o2) ->
    Upload.error_message R error = Some message ->
    includes message (str "Unique constraint") = true ->
    Upload.category_findFirst V userId o2 = (inr found, o3) ->
    Upload.default_category V R userId (Upload.World o tr st)
    = (match found with
       | Some category => inr category
       | None =>
           inl (Upload.JsError
                  (str "Failed to create default category: Failed to get or create default category"))
       end,
       Upload.World o3
         (Upload.CategoryFindFirst userId :: Upload.CategoryCreate userId
          :: Upload.CategoryFindFirst userId :: tr) st).
Proof.
  intros W V R userId message error found o o1 o2 o3 tr st
         Hfind Hcreate Hmsg Hunique Hagain.
  unfold Upload.default_category, Upload.stage_with_message, Upload.try_catch,
    Upload.bind, Upload.call, Upload.throw, Upload.ret.
  cbn [Upload.outside Upload.trace Upload.js].
  rewrite Hfind. cbn [Upload.outside Upload.trace Upload.js].
  rewrite Hcreate, Hmsg, Hunique. cbn [Upload.outside Upload.trace Upload.js].
  rewrite Hagain. destruct found as [category|]; reflexivity.
Qed.

(** X13 on sample data. *)
Lemma category_race_is_survived_witness :
  Upload.default_category (example_services (str "image/png") true)
                          example_runtime (str "usr") example_world
  = (inr {| Upload.category_id := str "cat" |},
     Upload.World 3
       [Upload.CategoryFindFirst (str "usr"); Upload.CategoryCreate (str "usr");
        Upload.CategoryFindFirst (str "usr")] example_state).
Proof.
  apply (@category_race_is_survived
           nat (example_services (str "image/png") true) example_runtime
           (str "usr")
           (str "Unique constraint failed on the fields: (`name`)")
           (Upload.JsError
              (str "Unique constraint failed on the fields: (`name`)"))
           (Some {| Upload.category_id := str "cat" |}) 0 1 2 3 []
           example_state); reflexivity.
Defined.

Lemma jsstring_eqb_true a : forall b, jsstring_eqb a b = true -> a = b.
Proof.
  induction a as [|x a IH]; intros [|y b] H; try discriminate; [reflexivity|].
  cbn [jsstring_eqb] in H. apply andb_true_iff in H. destruct H as (Hx & Hab).
  unfold char_eqb in Hx. apply N.eqb_eq in Hx. subst y.
  now rewrite (IH b Hab).
Qed.

Section UploadRuns.
Variable W : Type.
Variable V : Upload.services W.
Variable E : host.
Variable R : Upload.runtime.

Section Adds.
Variable P : Upload.event -> Prop.

Lemma adds_ret (A : Type) (a : A) : adds P (Upload.ret (W := W) a).
Proof. intros w. exists []. split; [reflexivity|constructor]. Qed.

Lemma adds_throw (A : Type) e : adds P (Upload.throw (W := W) (A := A) e).
Proof. intros w. exists []. split; [reflexivity|constructor]. Qed.

Lemma adds_call (A : Type) ev (service : W -> (Upload.exception + A) * W) :
  P ev -> adds P (Upload.call ev service).
Proof.
  intros Hev w. unfold Upload.call.
  destruct (service (Upload.outside w)) as [r o]. exists [ev].
  split; [reflexivity|]. now repeat constructor.
Qed.

Lemma adds_note ev : P ev -> adds P (Upload.note (W := W) ev).
Proof.
  intros Hev w. exists [ev]. split; [reflexivity|]. now repeat constructor.
Qed.

Lemma adds_bind (A B : Type) (m : Upload.M W A) (f : A -> Upload.M W B) :
  adds P m -> (forall a, adds P (f a)) -> adds P (Upload.bind m f).
Proof.
  intros Hm Hf w. unfold Upload.bind. specialize (Hm w).
  destruct (m w) as [[e|a] w1]; cbn [snd] in *; [exact Hm|].
  destruct Hm as (evs & Hevs & HP). destruct (Hf a w1) as (evs' & Hevs' & HP').
  exists (evs' ++ evs). split; [now rewrite Hevs', Hevs, app_assoc|].
  apply Forall_app. now split.
Qed.

Lemma adds_try_catch (A : Type) (m : Upload.M W A) h :
  adds P m -> (forall e, adds P (h e)) -> adds P (Upload.try_catch m h).
Proof.
  intros Hm Hh w. unfold Upload.try_catch. specialize (Hm w).
  destruct (m w) as [[e|a] w1]; cbn [snd] in *; [|exact Hm].
  destruct Hm as (evs & Hevs & HP). destruct (Hh e w1) as (evs' & Hevs' & HP').
  exists (evs' ++ evs). split; [now rewrite Hevs', Hevs, app_assoc|].
  apply Forall_app. now split.
Qed.

Lemma adds_finally (A : Type) (m : Upload.M W A) f :
  adds P m -> adds P f -> adds P (Upload.finally m f).
Proof.
  intros Hm Hf w. unfold Upload.finally. specialize (Hm w).
  destruct (m w) as [r w1]. cbn [snd] in Hm.
  destruct Hm as (evs & Hevs & HP). destruct (Hf w1) as (evs' & Hevs' & HP').
  exists (evs' ++ evs).
  destruct (f w1) as [[e|u] w2]; cbn [snd] in *;
    (split; [now rewrite Hevs', Hevs, app_assoc|apply Forall_app; now split]).
Qed.

Lemma adds_stage (A : Type) message (m : Upload.M W A) :
  adds P m -> adds P (Upload.stage message m).
Proof.
  intros Hm. apply adds_try_catch; [exact Hm|intros e; apply adds_throw].
Qed.

Hypothesis calls_only :
  forall ev, (forall c, ev <> Upload.Store c) -> P ev.

Lemma adds_default_user : adds P (Upload.default_user V R).
Proof.
  unfold Upload.default_user, Upload.stage_with_message.
  apply adds_try_catch; [|intros e; apply adds_throw].
  apply adds_bind; [apply adds_call; apply calls_only; discriminate|].
  intros [user|];
    [apply adds_ret|apply adds_call; apply calls_only; discriminate].
Qed.

Lemma adds_default_category userId :
  adds P (Upload.default_category V R userId).
Proof.
  unfold Upload.default_category, Upload.stage_with_message.
  apply adds_try_catch; [|intros e; apply adds_throw].
  apply adds_bind; [apply adds_call; apply calls_only; discriminate|].
  intros found. apply adds_bind.
  - destruct found as [category|]; [apply adds_ret|].
    apply adds_try_catch.
    + apply adds_bind; [apply adds_call; apply calls_only; discriminate|].
      intros c. apply adds_ret.
    + intros e. destruct (Upload.error_message R e) as [message|];
        [|apply adds_throw].
      destruct (includes message (str "Unique constraint"));
        [apply adds_call; apply calls_only; discriminate|apply adds_throw].
  - intros [category|]; [apply adds_ret|apply adds_throw].
Qed.

Lemma adds_extractTextFromFile path mimeType :
  adds P (Upload.extractTextFromFile V R path mimeType).
Proof.
  unfold Upload.extractTextFromFile.
  destruct mimeType as [mimeType|]; [|apply adds_throw].
  destruct (starts_with (str "image/") mimeType).
  - apply adds_bind; [apply adds_call; apply calls_only; discriminate|].
    intros worker. apply adds_finally;
      [|apply adds_call; apply calls_only; discriminate].
    apply adds_try_catch; [|intros e; apply adds_throw].
    apply adds_bind; [apply adds_call; apply calls_only; discriminate|].
    intros _.
    apply adds_bind; [apply adds_call; apply calls_only; discriminate|].
    intros _.
    apply adds_bind; [apply adds_call; apply calls_only; discriminate|].
    intros r. apply adds_bind.
    + destruct (PrimFloat.ltb (snd r) 50);
        [apply adds_note; apply calls_only; discriminate|apply adds_ret].
    + intros _. destruct (cleanText (fst r)) as [[source]|text];
        [apply adds_throw|apply adds_ret].
  - destruct (jsstring_eqb mimeType (str "application/pdf"));
      [|apply adds_throw].
    apply adds_bind; [apply adds_note; apply calls_only; discriminate|].
    intros _. apply adds_ret.
Qed.

End Adds.

(** Saving makes a call to the store, and throws errors of its own
    only. *)
Lemma save_document_calls validated file user category analysis w :
  (exists c evs,
      Upload.trace (snd (Upload.save_document V E validated file user category
                                              analysis w))
      = Upload.Store c :: evs)
  /\ forall e,
      fst (Upload.save_document V E validated file user category analysis w)
      = inl e -> exists message, e = Upload.JsError message.
Proof.
  unfold Upload.save_document, save, save_document_only.
  destruct (validTransactions _ _ _ _ _) as [[valid|] st].
  - destruct (create_with_transactions _ _ _ _) as [[e1|[d rows]] db1].
    + destruct (create_document _ _ _) as [[e2|d] db2];
        cbn [fst snd Upload.trace];
        (split; [eexists; eexists; reflexivity|]); intros e He;
        [inversion He; eauto|discriminate].
    + cbn [fst snd Upload.trace].
      split; [eexists; eexists; reflexivity|]. intros e He. discriminate.
  - destruct (create_document _ _ _) as [[e2|d] db2];
      cbn [fst snd Upload.trace];
      (split; [eexists; eexists; reflexivity|]); intros e He;
      [inversion He; eauto|discriminate].
Qed.

Lemma plain_stage (A : Type) message (m : Upload.M W A) :
  plain_failures (Upload.stage message m).
Proof.
  intros w e. unfold Upload.stage, Upload.try_catch, Upload.throw.
  destruct (m w) as [[e0|a] w1]; cbn [fst]; [|discriminate].
  intros H. inversion H. eauto.
Qed.

Lemma plain_stage_with_message (A : Type) prefix (m : Upload.M W A) :
  plain_failures (Upload.stage_with_message R prefix m).
Proof.
  intros w e. unfold Upload.stage_with_message, Upload.try_catch, Upload.throw.
  destruct (m w) as [[e0|a] w1]; cbn [fst]; [|discriminate].
  intros H. inversion H. eauto.
Qed.

Lemma settles_bind (A : Type) (m : Upload.M W A) f :
  plain_failures m -> (forall a, settles (f a)) -> settles (Upload.bind m f).
Proof.
  intros Hm Hf w. unfold Upload.bind. specialize (Hm w).
  destruct (m w) as [[e|a] w1]; cbn [fst] in Hm; [now apply Hm|].
  apply Hf.
Qed.

Lemma settles_analyse_and_store validated file :
  settles (analyse_and_store V R E validated file).
Proof.
  unfold analyse_and_store.
  apply settles_bind; [apply plain_stage|]. intros text.
  apply settles_bind; [apply plain_stage|]. intros analysis.
  apply settles_bind; [apply plain_stage_with_message|]. intros user.
  apply settles_bind; [apply plain_stage_with_message|]. intros category.
  intros w. unfold Upload.bind, Upload.ret.
  destruct (save_document_calls validated file user category analysis w)
    as (Hcall & Hplain).
  destruct (Upload.save_document _ _ _ _ _ _ _ _) as [[e|doc] w1];
    cbn [fst snd] in *; [now apply Hplain|].
  split; [reflexivity|]. split; [|exact Hcall].
  exists doc, (Upload.analysis_summary analysis). reflexivity.
Qed.

End UploadRuns.

(** X14: Every request gets one of five answers: 405 for a method other than
    POST, the world left as it was; 400 when the form has no file, the
    form parser alone having been called; 400 with the issues of the
    input; 500 with the message of a failure; and 200 with the document,
    after a call to the store. *)
Theorem every_request_is_answered :
  forall (W : Type) (V : Upload.services W) (E : host) (R : Upload.runtime)
         (method : option jsstring) (w : Upload.world W),
    let a := fst (Upload.handler V E R method w) in
    let w' := snd (Upload.handler V E R method w) in
    (method <> Some (str "POST") /\ a = method_not_allowed /\ w' = w)
    \/ (method = Some (str "POST")
        /\ ((a = no_file_uploaded
             /\ Upload.trace w' = Upload.FormParse :: Upload.trace w)
            \/ (exists issues, a = invalid_input issues)
            \/ (exists details, a = failed_with details)
            \/ document_stored a w')).
Proof.
  intros W V E R method w. cbv zeta.
  destruct (Upload.handler V E R method w) as [a w'] eqn:Hrun.
  cbn [fst snd]. unfold Upload.handler in Hrun.
  destruct method as [m|];
    [|inversion Hrun; left; repeat split; discriminate].
  destruct (jsstring_eqb m (str "POST")) eqn:Hm.
  2:{ inversion Hrun. left. repeat split. intros H. inversion H; subst m.
      vm_compute in Hm. discriminate. }
  apply jsstring_eqb_true in Hm. subst m. right. split; [reflexivity|].
  assert (Herr : forall e,
             (exists issues, Upload.on_error R e = invalid_input issues)
             \/ (exists details, Upload.on_error R e = failed_with details)).
  { intros [issues|message|]; cbn [Upload.on_error];
      [left|right|right]; eexists; reflexivity. }
  assert (Hplain : forall message,
             exists details,
               Upload.on_error R (Upload.JsError message) = failed_with details).
  { intros message. eexists. reflexivity. }
  destruct (Upload.process V E R w) as [[e|a0] w1] eqn:Hp;
    inversion Hrun; subst; clear Hrun.
  - (* the body of [try] has thrown *)
    right. destruct (Herr e) as [H|H]; auto.
  - unfold Upload.process, Upload.bind at 1, Upload.call at 1 in Hp.
    destruct (Upload.form_parse V (Upload.outside w)) as [[e|form] o1];
      [discriminate|].
    destruct (Upload.files_file form) as [[|file rest]|];
      try (inversion Hp; left; split; reflexivity).
    unfold Upload.uploadSchema_parse in Hp.
    destruct (Upload.fileName_input form file) as [name|];
      destruct (existsb _ Upload.documentTypes);
      try discriminate.
    unfold Upload.bind at 1, Upload.ret at 1 in Hp.
    unfold Upload.bind at 1 in Hp.
    destruct (Upload.stage "Failed to create uploads directory" _ _)
      as [[e|[]] w2]; [discriminate|].
    unfold Upload.bind at 1 in Hp.
    destruct (Upload.stage "Failed to save file" _ _) as [[e|[]] w3];
      [discriminate|].
    right. right. right.
    match type of Hp with
    | ?m w3 = _ =>
        change m
          with (analyse_and_store V R E
                  {| Upload.validated_file := file;
                     Upload.validated_fileName := name;
                     Upload.validated_documentType :=
                       Upload.documentType_input form |} file) in Hp
    end.
    match type of Hp with
    | analyse_and_store V R E ?v file w3 = _ =>
        pose proof (@settles_analyse_and_store W V E R v file w3) as H3
    end.
    rewrite Hp in H3. exact H3.
Qed.

(** X15: A PDF is not read: whatever it holds, the analysis is called on the
    empty text, right after the file is written, no OCR worker being
    created. *)
Theorem pdf_is_analysed_as_empty_text :
  forall (W : Type) (V : Upload.services W) (E : host) (R : Upload.runtime)
         (o o' : W) (form : Upload.Form) (file : Upload.File)
         (name : jsstring) (data : Upload.Buffer)
         (tr : list Upload.event) (st : state),
    received V R o form file name data o' ->
    Upload.mimetype file = Some (str "application/pdf") ->
    exists later,
      Upload.trace (snd (Upload.handler V E R (Some (str "POST"))
                                        (Upload.World o tr st)))
      = later ++ Upload.Analyze [] :: Upload.WarnPdf
              :: receiving R file data ++ tr.
Proof.
  intros W V E R o o' form file name data tr st Hrec Hmt.
  unfold Upload.handler.
  change (jsstring_eqb (str "POST") (str "POST")) with true. cbv iota.
  rewrite (process_received E tr st Hrec).
  unfold analyse_and_store, Upload.bind at 1, Upload.stage at 1,
    Upload.try_catch at 1, Upload.extractTextFromFile.
  rewrite Hmt.
  change (starts_with (str "image/") (str "application/pdf")) with false.
  change (jsstring_eqb (str "application/pdf") (str "application/pdf"))
    with true.
  cbv iota. unfold Upload.bind at 1, Upload.note at 1, Upload.ret at 1.
  cbn [Upload.outside Upload.trace Upload.js].
  unfold Upload.bind at 1, Upload.stage at 1, Upload.try_catch at 1,
    Upload.call at 1.
  cbn [Upload.outside Upload.trace Upload.js].
  destruct (Upload.analyzeFinancialDocument V [] o') as [[e|analysis] o''].
  - exists []. reflexivity.
  - match goal with
    | |- context [Upload.bind ?m ?f ?w] =>
        assert (Hg : adds (fun _ => True) (Upload.bind m f));
        [|destruct (Hg w) as (later & Hlater & _);
          destruct (Upload.bind m f w) as [[e|a] w'];
          cbn [snd Upload.trace] in *; exists later; exact Hlater]
    end.
    apply adds_bind; [now apply adds_default_user|]. intros user.
    apply adds_bind; [now apply adds_default_category|]. intros category.
    apply adds_bind; [|intros doc; apply adds_ret].
    intros w0. unfold Upload.save_document.
    destruct (save _ _ _ _ _ _ _ _ _ _) as [[[outcome calls] st0] db].
    exists (rev (List.map Upload.Store calls)). split; [reflexivity|].
    apply Forall_forall. trivial.
Qed.

(** X15 on sample data. *)
Lemma pdf_is_analysed_as_empty_text_witness :
  exists later,
    Upload.trace (snd (Upload.handler
                         (example_services (str "application/pdf") false)
                         example_host example_runtime (Some (str "POST"))
                         example_world))
    = later ++ Upload.Analyze [] :: Upload.WarnPdf
            :: receiving example_runtime (example_file (str "application/pdf"))
                         [137; 80; 78; 71]%N ++ [].
Proof.
  apply (@pdf_is_analysed_as_empty_text
           nat (example_services (str "application/pdf") false) example_host
           example_runtime 0 4 (example_form (str "application/pdf"))
           (example_file (str "application/pdf")) (str "statement.png")
           [137; 80; 78; 71]%N [] example_state).
  - exists 1, 2, 3. repeat split; reflexivity.
  - reflexivity.
Defined.

Lemma validTransactions_sound E cat user txs st valid st' :
  validTransactions E cat user txs st = (Returns valid, st') ->
  valid <> []
  /\ Forall well_formed valid
  /\ Forall (assigned_defaults cat user) valid.
Proof.
  intros Hrun.
  assert (Hz : existsb (hazardous E st) txs = false).
  { destruct (existsb (hazardous E st) txs) eqn:Hz; [|reflexivity].
    apply validTransactions_throws_iff with (cat := cat) (user := user) in Hz.
    destruct Hz as (s & Hs). congruence. }
  destruct (validTransactions_spec E cat user txs st Hz)
    as (valid0 & st0 & Hrun0 & _ & _ & _ & Hnil & Hcons).
  rewrite Hrun in Hrun0. injection Hrun0 as <- <-.
  destruct (List.filter (numeric_amount st) txs) as [|v0 kept] eqn:Hk.
  - rewrite (Hnil eq_refl). split; [discriminate|].
    split; repeat constructor; apply well_formed_default.
  - destruct (Hcons ltac:(discriminate))
      as (st1 & _ & _ & _ & _ & _ & Hsan & Hall).
    split; [intros Hout; rewrite Hout in Hall; inversion Hall|]. split.
    + apply (@Forall2_right value Transaction.t well_formed (v0 :: kept)).
      eapply Forall2_impl_in; [|exact Hall].
      intros v t Hin (n & _ & _ & ->).
      destruct (Hsan v Hin) as (r & Hr & Hs & _).
      rewrite (@properties_object _ v r Hr).
      now apply well_formed_transaction_of.
    + apply (@Forall2_right value Transaction.t (assigned_defaults cat user)
               (v0 :: kept)).
      eapply Forall2_impl; [|exact Hall].
      intros v t (n & _ & _ & ->). split; reflexivity.
Qed.

Section SoundCalls.
Variable W : Type.
Variable V : Upload.services W.
Variable E : host.
Variable R : Upload.runtime.

Lemma sound_other ev : (forall c, ev <> Upload.Store c) -> sound_event ev.
Proof. destruct ev; try exact (fun _ => I). intros H. now elim (H c). Qed.

Lemma adds_save_document validated file user category analysis :
  adds sound_event
       (Upload.save_document V E validated file user category analysis).
Proof.
  intros w. unfold Upload.save_document, save, save_document_only.
  pose proof (@validTransactions_sound E (Upload.category_id category)
                (Upload.user_id user) (Upload.analysis_transactions analysis)
                (State (Upload.analysis_objects analysis)
                       (ticks (Upload.js w)) (console (Upload.js w))))
    as Hsound.
  destruct (validTransactions _ _ _ _ _) as [[valid|] st].
  - destruct (Hsound valid st eq_refl) as (Hne & Hwf & Hids).
    assert (Hcall : sound_call
                      (CreateWithTransactions
                         (document_data (Upload.validated_fileName validated)
                                        (Upload.fileType file) (Upload.size file)
                                        (Upload.user_id user)) valid)).
    { split; [reflexivity|]. split; [exact Hne|]. split; [exact Hwf|].
      eapply Forall_impl; [|exact Hids]. intros t (_ & Hu). exact Hu. }
    destruct (create_with_transactions _ _ _ _) as [[e1|[d rows]] db1].
    + destruct (create_document _ _ _) as [[e2|d] db2]; cbn [snd Upload.trace];
        eexists; (split; [reflexivity|]); cbn [List.map rev app];
        (constructor; [reflexivity|constructor; [exact Hcall|constructor]]).
    + cbn [snd Upload.trace]. eexists. split; [reflexivity|].
      cbn [List.map rev app]. constructor; [exact Hcall|constructor].
  - destruct (create_document _ _ _) as [[e2|d] db2]; cbn [snd Upload.trace];
      eexists; (split; [reflexivity|]); cbn [List.map rev app];
      (constructor; [reflexivity|constructor]).
Qed.

Lemma adds_process : adds sound_event (Upload.process V E R).
Proof.
  unfold Upload.process.
  apply adds_bind; [apply adds_call; exact I|]. intros form.
  destruct (Upload.files_file form) as [[|file rest]|]; try apply adds_ret.
  apply adds_bind.
  { unfold Upload.uploadSchema_parse.
    destruct (Upload.fileName_input form file);
      destruct (existsb _ Upload.documentTypes);
      apply adds_ret || apply adds_throw. }
  intros validated.
  apply adds_bind; [apply adds_stage, adds_call; exact I|]. intros _.
  apply adds_bind.
  { apply adds_stage, adds_bind; [apply adds_call; exact I|].
    intros data. apply adds_call. exact I. }
  intros _.
  apply adds_bind;
    [apply adds_stage, adds_extractTextFromFile; exact sound_other|].
  intros text.
  apply adds_bind; [apply adds_stage, adds_call; exact I|]. intros analysis.
  apply adds_bind; [apply adds_default_user; exact sound_other|]. intros user.
  apply adds_bind; [apply adds_default_category; exact sound_other|].
  intros category.
  apply adds_bind; [apply adds_save_document|]. intros doc. apply adds_ret.
Qed.

End SoundCalls.

(** X16: Whatever the services do, the handler keeps the record of calls and
    asks the store for complete documents only, and never for an empty
    or a malformed list of transactions, or for a transaction of another
    user than the document's. *)
Theorem store_calls_are_sound :
  forall (W : Type) (V : Upload.services W) (E : host) (R : Upload.runtime)
         (method : option jsstring) (w : Upload.world W),
    exists evs,
      Upload.trace (snd (Upload.handler V E R method w))
      = evs ++ Upload.trace w
      /\ Forall sound_event evs.
Proof.
  intros W V E R method w. unfold Upload.handler.
  destruct method as [m|]; [|exists []; split; [reflexivity|constructor]].
  destruct (jsstring_eqb m (str "POST"));
    [|exists []; split; [reflexivity|constructor]].
  destruct (adds_process V E R w) as (evs & Hevs & Hsound).
  destruct (Upload.process V E R w) as [[e|a] w']; cbn [snd] in *;
    exists evs; split; assumption.
Qed.

(** X17: Input that fails validation is answered 400 with its issues, each on
    the file name or on the document type, before anything is written:
    the form parser is the only service called. *)
Theorem invalid_input_is_refused_before_any_write :
  forall (W : Type) (V : Upload.services W) (E : host) (R : Upload.runtime)
         (o o1 : W) (form : Upload.Form) (file : Upload.File)
         (rest : list Upload.File) (tr : list Upload.event) (st : state),
    Upload.form_parse V o = (inr form, o1) ->
    Upload.files_file form = Some (file :: rest) ->
    Upload.fileName_input form file = None
    \/ existsb (jsstring_eqb (Upload.documentType_input form))
               Upload.documentTypes = false ->
    exists issues,
      Upload.handler V E R (Some (str "POST")) (Upload.World o tr st)
      = (invalid_input issues, Upload.World o1 (Upload.FormParse :: tr) st)
      /\ issues <> []
      /\ Forall (fun i => Upload.path i = str "fileName"
                         \/ Upload.path i = str "documentType") issues.
Proof.
  intros W V E R o o1 form file rest tr st Hform Hfile Hbad.
  unfold Upload.handler.
  change (jsstring_eqb (str "POST") (str "POST")) with true. cbv iota.
  unfold Upload.process, Upload.bind at 1, Upload.call at 1.
  cbn [Upload.outside Upload.trace Upload.js]. rewrite Hform, Hfile.
  unfold Upload.bind at 1, Upload.uploadSchema_parse.
  destruct (Upload.fileName_input form file) as [name|];
    destruct (existsb _ Upload.documentTypes);
    try (destruct Hbad; discriminate);
    cbn [Upload.throw Upload.on_error app];
    eexists; (split; [reflexivity|]); (split; [discriminate|]);
    repeat (apply Forall_cons;
            [first [left; reflexivity|right; reflexivity]|]);
    apply Forall_nil.
Qed.

(** X17 on sample data. *)
Lemma invalid_input_is_refused_before_any_write_witness :
  exists issues,
    Upload.handler (with_form example_bad_form
                      (example_services (str "image/png") false))
                   example_host example_runtime (Some (str "POST"))
                   example_world
    = (invalid_input issues, Upload.World 1 [Upload.FormParse] example_state)
    /\ issues <> []
    /\ Forall (fun i => Upload.path i = str "fileName"
                       \/ Upload.path i = str "documentType") issues.
Proof.
  apply (@invalid_input_is_refused_before_any_write
           nat (with_form example_bad_form
                  (example_services (str "image/png") false))
           example_host example_runtime 0 1 example_bad_form
           (example_file (str "image/png")) [] [] example_state).
  - reflexivity.
  - reflexivity.
  - right. reflexivity.
Defined.

(** ** The document page: properties *)

Lemma iso_some d : (exists s, Page.iso d = Some s) <-> is_invalid d = false.
Proof.
  destruct d as [t|]; cbn; split; try discriminate; eauto.
  intros (s & H). discriminate.
Qed.

Lemma transaction_props_some tx :
  (exists p, Page.transaction_props tx = Some p) <-> showable tx.
Proof.
  unfold Page.transaction_props, showable.
  destruct (Page.tx_date tx) as [t1|], (Page.tx_category tx) as [c|],
    (Page.tx_createdAt tx) as [t2|], (Page.tx_updatedAt tx) as [t3|];
    cbn; split;
    try (intros (p & H); discriminate);
    try (intros (H1 & H2 & H3 & H4); congruence).
  - intros _. repeat split. discriminate.
  - intros _. eauto.
Qed.

Lemma map_props_some txs :
  (exists ps, Page.map_props txs = Some ps) <-> Forall showable txs.
Proof.
  induction txs as [|tx txs IH]; cbn [Page.map_props].
  - split; [constructor|eauto].
  - split.
    + intros (ps & H).
      destruct (Page.transaction_props tx) as [p|] eqn:Hp; [|discriminate].
      destruct (Page.map_props txs) as [ps'|]; [|discriminate].
      constructor; [apply transaction_props_some; eauto|apply IH; eauto].
    + intros H. inversion H as [|? ? Htx Htxs]; subst.
      apply transaction_props_some in Htx. destruct Htx as (p & ->).
      apply IH in Htxs. destruct Htxs as (ps & ->). eauto.
Qed.

Lemma map_props_length txs :
  forall ps, Page.map_props txs = Some ps ->
             List.map Page.transaction_id ps = List.map Page.tx_id txs.
Proof.
  induction txs as [|tx txs IH]; intros ps H; cbn [Page.map_props] in H.
  - inversion H. reflexivity.
  - unfold Page.transaction_props in H.
    destruct (Page.iso (Page.tx_date tx)), (Page.tx_category tx),
      (Page.iso (Page.tx_createdAt tx)), (Page.iso (Page.tx_updatedAt tx));
      try discriminate.
    destruct (Page.map_props txs) as [ps'|]; [|discriminate].
    inversion H; subst. cbn [List.map Page.transaction_id]. f_equal.
    now apply IH.
Qed.

(** X18: The page shows a document exactly when the document is found and
    every date in it is valid and every transaction has its category: one
    transaction with an invalid date makes the whole document "not
    found".  The transactions shown are those of the document, in
    order. *)
Theorem page_shows_presentable_documents_only :
  forall (W : Type)
         (findUnique : jsstring -> W -> option (option Page.DocumentRecord) * W)
         (id_ : jsstring) (w : W),
    ((exists document transactions,
         fst (Page.getServerSideProps findUnique id_ w)
         = Page.Props document transactions)
     <-> (exists found,
            fst (findUnique id_ w) = Some (Some found) /\ presentable found))
    /\ (forall document transactions found,
          fst (Page.getServerSideProps findUnique id_ w)
          = Page.Props document transactions ->
          fst (findUnique id_ w) = Some (Some found) ->
          Page.id document = Page.doc_id found
          /\ List.map Page.transaction_id transactions
             = List.map Page.tx_id (Page.doc_transactions found)).
Proof.
  intros W findUnique id_ w. unfold Page.getServerSideProps.
  destruct (findUnique id_ w) as [[[found|]|] w']; cbn [fst].
  - split.
    + split.
      * intros (document & transactions & H). exists found.
        split; [reflexivity|].
        destruct (Page.iso (Page.doc_createdAt found)) as [c|] eqn:Hc;
          [|discriminate].
        destruct (Page.iso (Page.doc_updatedAt found)) as [u|] eqn:Hu;
          [|discriminate].
        destruct (Page.map_props (Page.doc_transactions found)) as [ps|] eqn:Hps;
          [|discriminate].
        split; [apply iso_some; eauto|].
        split; [apply iso_some; eauto|].
        apply map_props_some. eauto.
      * intros (found' & Heq & Hc & Hu & Htxs). inversion Heq; subst found'.
        apply iso_some in Hc. destruct Hc as (c & ->).
        apply iso_some in Hu. destruct Hu as (u & ->).
        apply map_props_some in Htxs. destruct Htxs as (ps & ->). eauto.
    + intros document transactions found' H Heq. inversion Heq; subst found'.
      destruct (Page.iso (Page.doc_createdAt found)) as [c|]; [|discriminate].
      destruct (Page.iso (Page.doc_updatedAt found)) as [u|]; [|discriminate].
      destruct (Page.map_props (Page.doc_transactions found)) as [ps|] eqn:Hps;
        [|discriminate].
      inversion H; subst. split; [reflexivity|].
      now apply map_props_length.
  - split.
    + split; [intros (? & ? & H); discriminate|].
      intros (found & H & _). discriminate.
    + intros ? ? ? H. discriminate.
  - split.
    + split; [intros (? & ? & H); discriminate|].
      intros (found & H & _). discriminate.
    + intros ? ? ? H. discriminate.
Qed.

(** X18 on sample data. *)
Lemma page_shows_presentable_documents_only_witness :
  fst (Page.getServerSideProps
         (fun _ (n : nat) => (Some (Some (example_document None)), S n))
         (str "doc-1") 0)
  = Page.NotFound.
Proof.
  destruct (@page_shows_presentable_documents_only
              nat (fun _ n => (Some (Some (example_document None)), S n))
              (str "doc-1") 0) as ((Hshown & _) & _).
  destruct (fst (Page.getServerSideProps _ _ _)) as [|document transactions];
    [reflexivity|].
  destruct Hshown as (found & Heq & _ & _ & Htxs);
    [exists document, transactions; reflexivity|].
  inversion Heq; subst found. inversion Htxs as [|? ? (Hdate & _) _]; subst.
  discriminate.
Defined.

(** ** The uploader: properties *)

(** X19: [handleSubmit] without a file asks for one and sends nothing; with
    a file it ends with the uploader idle, and either one address given
    to the router and no error, or no address and an error. *)
Theorem uploader_navigates_or_reports :
  forall (W : Type)
         (fetch : Uploader.FormData -> W -> (Uploader.thrown + Upload.answer) * W)
         (type_error_message : jsstring) (st : Uploader.state) (w : W),
    let st' := fst (fst (Uploader.handleSubmit fetch type_error_message st w)) in
    let replaced := snd (fst (Uploader.handleSubmit fetch type_error_message st w)) in
    let w' := snd (Uploader.handleSubmit fetch type_error_message st w) in
    match Uploader.file st with
    | None =>
        st' = Uploader.setError (Some (str "Please select a file to upload")) st
        /\ replaced = [] /\ w' = w
    | Some f =>
        Uploader.isUploading st' = false
        /\ Uploader.file st' = Some f
        /\ ((exists address, replaced = [address])
            /\ Uploader.error st' = None
            \/ replaced = [] /\ exists message, Uploader.error st' = Some message)
    end.
Proof.
  intros W fetch type_error_message st w. cbv zeta.
  unfold Uploader.handleSubmit.
  destruct (Uploader.file st) as [f|] eqn:Hfile; [|repeat split].
  unfold Uploader.submit.
  destruct (fetch _ w) as [[[message|]|response] w1]; cbn [fst snd].
  - split; [reflexivity|]. split; [exact Hfile|]. right.
    split; [reflexivity|eexists; reflexivity].
  - split; [reflexivity|]. split; [exact Hfile|]. right.
    split; [reflexivity|eexists; reflexivity].
  - destruct (negb (Uploader.ok response)).
    + split; [reflexivity|]. split; [exact Hfile|]. right.
      split; [reflexivity|eexists; reflexivity].
    + destruct (Upload.body_of response) as [e|e details|[doc summary txs|e d]];
        cbn [fst snd];
        (split; [reflexivity|]); (split; [exact Hfile|]);
        try (right; split; [reflexivity|eexists; reflexivity]).
      left. split; [eexists; reflexivity|reflexivity].
Qed.

Lemma handler_answers (W : Type) (V : Upload.services W) (E : host)
      (R : Upload.runtime) (w : Upload.world W) :
  let a := fst (Upload.handler V E R (Some (str "POST")) w) in
  a = no_file_uploaded
  \/ (exists issues, a = invalid_input issues)
  \/ (exists details, a = failed_with details)
  \/ exists doc summary,
      a = {| Upload.status := 200;
             Upload.body_of :=
               Upload.Body (Saved doc summary (transactions_or_empty doc)) |}.
Proof.
  cbv zeta. unfold Upload.handler.
  change (jsstring_eqb (str "POST") (str "POST")) with true. cbv iota.
  destruct (Upload.process V E R w) as [[e|a] w1] eqn:Hp; cbn [fst].
  - right. destruct e as [issues|message|]; cbn [Upload.on_error];
      [left|right; left|right; left]; eexists; reflexivity.
  - unfold Upload.process, Upload.bind at 1, Upload.call at 1 in Hp.
    destruct (Upload.form_parse V (Upload.outside w)) as [[e|form] o1];
      [discriminate|].
    destruct (Upload.files_file form) as [[|file rest]|];
      try (inversion Hp; left; reflexivity).
    unfold Upload.uploadSchema_parse in Hp.
    destruct (Upload.fileName_input form file) as [name|];
      destruct (existsb _ Upload.documentTypes);
      try discriminate.
    unfold Upload.bind at 1, Upload.ret at 1 in Hp.
    unfold Upload.bind at 1 in Hp.
    destruct (Upload.stage "Failed to create uploads directory" _ _)
      as [[e|[]] w2]; [discriminate|].
    unfold Upload.bind at 1 in Hp.
    destruct (Upload.stage "Failed to save file" _ _) as [[e|[]] w3];
      [discriminate|].
    right. right. right.
    match type of Hp with
    | ?m w3 = _ =>
        change m
          with (analyse_and_store V R E
                  {| Upload.validated_file := file;
                     Upload.validated_fileName := name;
                     Upload.validated_documentType :=
                       Upload.documentType_input form |} file) in Hp
    end.
    match type of Hp with
    | analyse_and_store V R E ?v file w3 = _ =>
        pose proof (@settles_analyse_and_store W V E R v file w3) as H3
    end.
    rewrite Hp in H3. destruct H3 as (Hst & (doc & summary & Hbody) & _).
    exists doc, summary. destruct a as [s b]. cbn in Hst, Hbody. now subst.
Qed.

(** X20: With the upload handler at the other end, the uploader goes to the
    page of the stored document exactly when the handler answers 200,
    and otherwise shows: the handler's message when there is no file;
    the details of a failure, when they are not empty; and, for invalid
    input, the text "[object Object]" once for each issue, not the
    issues. *)
Theorem uploader_shows_the_handler_answer :
  forall (W : Type) (V : Upload.services W) (E : host) (R : Upload.runtime)
         (type_error_message : jsstring) (st : Uploader.state)
         (f : Uploader.BrowserFile) (w : Upload.world W),
    Uploader.file st = Some f ->
    let a := fst (Upload.handler V E R (Some (str "POST")) w) in
    let run := Uploader.handleSubmit (served V E R) type_error_message st w in
    (a = no_file_uploaded ->
     Uploader.error (fst (fst run)) = Some (str "No file uploaded"))
    /\ (forall issues,
          a = invalid_input issues ->
          Uploader.error (fst (fst run))
          = Some (Uploader.join_commas
                    (List.map (fun _ => str "[object Object]") issues)))
    /\ (forall details,
          a = failed_with details -> details <> [] ->
          Uploader.error (fst (fst run)) = Some details)
    /\ (Upload.status a = 200 <->
        exists doc summary txs,
          Upload.body_of a = Upload.Body (Saved doc summary txs)
          /\ snd (fst run) = [str "/documents/" ++ id (fields doc)]
          /\ Uploader.error (fst (fst run)) = None)
    /\ snd run = snd (Upload.handler V E R (Some (str "POST")) w).
Proof.
  intros W V E R type_error_message st f w Hfile. cbv zeta.
  pose proof (handler_answers V E R w) as Hans. cbv zeta in Hans.
  unfold Uploader.handleSubmit, Uploader.submit, served. rewrite Hfile.
  destruct (Upload.handler V E R (Some (str "POST")) w) as [a w1].
  cbn [fst snd] in *.
  destruct Hans as [->|[(issues & ->)|[(details & ->)|(doc & summary & ->)]]];
    cbn [Uploader.ok Upload.status Upload.body_of no_file_uploaded invalid_input
         failed_with Nat.leb andb negb fst snd Uploader.error_text
         Uploader.setError Uploader.setIsUploading Uploader.error
         Uploader.or_else].
  - change (Uploader.or_else (str "No file uploaded")
                             (str "Failed to upload document"))
      with (str "No file uploaded").
    split; [reflexivity|]. split; [intros ? H; discriminate|].
    split; [intros ? H; discriminate|].
    split; [|reflexivity].
    split; [discriminate|]. intros (? & ? & ? & H & _). discriminate.
  - split; [intros H; discriminate|].
    split; [intros issues' H; inversion H; reflexivity|].
    split; [intros ? H; discriminate|].
    split; [|reflexivity].
    split; [discriminate|]. intros (? & ? & ? & H & _). discriminate.
  - split; [intros H; discriminate|].
    split; [intros ? H; discriminate|].
    split.
    { intros details' H Hne. inversion H; subst details'.
      destruct details; [congruence|reflexivity]. }
    split; [|reflexivity].
    split; [discriminate|]. intros (? & ? & ? & H & _). discriminate.
  - split; [intros H; discriminate|].
    split; [intros ? H; discriminate|].
    split; [intros ? H; discriminate|].
    split; [|reflexivity].
    split; [|reflexivity]. intros _.
    exists doc, summary, (transactions_or_empty doc). repeat split.
Qed.

(** X20 on sample data. *)
Lemma uploader_shows_the_handler_answer_witness :
  Uploader.error
    (fst (fst (Uploader.handleSubmit
                 (served (with_form example_bad_form
                            (example_services (str "image/png") false))
                         example_host example_runtime)
                 (str "Cannot read properties of undefined (reading 'id')")
                 example_uploader example_world)))
  = Some (str "[object Object]").
Proof.
  destruct (@uploader_shows_the_handler_answer
              nat (with_form example_bad_form
                     (example_services (str "image/png") false))
              example_host example_runtime
              (str "Cannot read properties of undefined (reading 'id')")
              example_uploader
              {| Uploader.name := str "statement.png";
                 Uploader.bytes := [137; 80; 78; 71]%N |}
              example_world eq_refl) as (_ & H & _).
  exact (H [Upload.Issue (str "documentType") (str "Invalid enum value")]
           eq_refl).
Defined.

(** ** The test upload: properties *)

Lemma removelast_cons (A : Type) (P : A -> bool) (a : A) (l : list A) :
  P a = true -> forallb P (removelast l) = true ->
  forallb P (removelast (a :: l)) = true.
Proof.
  intros Ha Hl. destruct l as [|b l]; [reflexivity|].
  change (removelast (a :: b :: l)) with (a :: removelast (b :: l)).
  cbn [forallb]. now rewrite Ha, Hl.
Qed.

Section TestUploadFacts.
Variables File More W : Type.
Variable fetch :
  TestUpload.CreateRequest -> W
  -> (TestUpload.thrown + TestUpload.Response) * W.
Variable userId : jsstring.

(** The loop sends the requests of a prefix of the transactions, in
    order; it goes on after an answer that is accepted, and after no
    other. *)
Lemma create_each_log txs :
  forall sent w,
    let run := TestUpload.create_each fetch userId txs sent w in
    exists log k,
      snd (fst run) = rev log ++ sent
      /\ k <= List.length txs
      /\ List.map fst log
         = List.map (TestUpload.request_of userId) (firstn k txs)
      /\ forallb accepted (removelast log) = true
      /\ (fst (fst run) = inr tt <-> forallb accepted log = true)
      /\ (fst (fst run) = inr tt -> k = List.length txs)
      /\ Forall (fun x => exists w0, fst (fetch (fst x) w0) = snd x) log.
Proof.
  induction txs as [|tx txs IH]; intros sent w; cbn [TestUpload.create_each].
  - exists [], 0. cbn. repeat split; auto.
  - destruct (fetch (TestUpload.request_of userId tx) w) as [[e|response] w1]
      eqn:Hfetch.
    + exists [(TestUpload.request_of userId tx, inl e)], 1. cbn.
      split; [reflexivity|]. split; [lia|]. split; [reflexivity|].
      split; [reflexivity|].
      split; [split; intros H; discriminate|].
      split; [intros H; discriminate|].
      constructor; [|constructor]. exists w. cbn. now rewrite Hfetch.
    + cbv zeta. destruct (TestUpload.ok response) eqn:Hok; cbn [negb].
      * destruct (IH ((TestUpload.request_of userId tx, inr response) :: sent) w1)
          as (log & k & Hsent & Hk & Hreq & Hinit & Hall & Hlen & Htrue).
        exists ((TestUpload.request_of userId tx, inr response) :: log), (S k).
        cbn [List.length firstn List.map rev fst].
        split; [rewrite Hsent, <- app_assoc; reflexivity|].
        split; [lia|]. split; [now rewrite Hreq|].
        split; [apply removelast_cons; [exact Hok|exact Hinit]|].
        split; [rewrite Hall; cbn [forallb]; unfold accepted at 2; cbn [snd];
                rewrite Hok; reflexivity|].
        split; [intros H; f_equal; now apply Hlen|].
        constructor; [|exact Htrue]. exists w. cbn. now rewrite Hfetch.
      * exists [(TestUpload.request_of userId tx, inr response)], 1.
        assert (Hno : accepted (TestUpload.request_of userId tx, inr response)
                      = false) by exact Hok.
        destruct (TestUpload.json_error response) as [e|errorData_error];
          cbn [fst snd rev app List.length firstn List.map removelast forallb];
          rewrite Hno;
          (split; [reflexivity|]); (split; [lia|]); (split; [reflexivity|]);
          (split; [reflexivity|]);
          (split; [split; intros H; discriminate|]);
          (split; [intros H; discriminate|]);
          (constructor; [|constructor]); exists w; cbn; now rewrite Hfetch.
Qed.

End TestUploadFacts.

(** X21: Once the text is extracted and analysed, [handleUpload] sends the
    requests of the first transactions of the analysis, in order, and
    stops at the first request that fails (a rejected [fetch], or a
    response that is not ok): every request but the last one sent has
    been accepted, so that none is sent after a failure; an error is
    shown exactly when the last request has failed; and when none has
    failed, every transaction has been sent.  Each answer recorded is the
    answer of [fetch] to that request.  The component is left idle, with
    the text and the analysis. *)
Theorem test_upload_stops_at_first_failure :
  forall (File More W : Type)
         (extract : File -> W -> (TestUpload.thrown + jsstring) * W)
         (analyze : jsstring -> W
                    -> (TestUpload.thrown + TestUpload.AnalysisResult More) * W)
         (fetch : TestUpload.CreateRequest -> W
                  -> (TestUpload.thrown + TestUpload.Response) * W)
         (userId : jsstring) (st : TestUpload.state File More) (f : File)
         (w w1 w2 : W) (extracted : jsstring)
         (result : TestUpload.AnalysisResult More),
    TestUpload.file st = Some f ->
    extract f w = (inr extracted, w1) ->
    analyze extracted w1 = (inr result, w2) ->
    let run := TestUpload.handleUpload extract analyze fetch userId st w in
    let st' := fst (fst run) in
    let log := rev (snd (fst run)) in
    TestUpload.loading st' = false
    /\ TestUpload.text st' = extracted
    /\ TestUpload.analysis st' = Some result
    /\ (exists k,
          k <= List.length (TestUpload.transactions result)
          /\ List.map fst log
             = List.map (TestUpload.request_of userId)
                        (firstn k (TestUpload.transactions result))
          /\ (TestUpload.error st' = None ->
              k = List.length (TestUpload.transactions result)))
    /\ forallb accepted (removelast log) = true
    /\ (TestUpload.error st' = None <-> forallb accepted log = true)
    /\ Forall (fun x => exists w0, fst (fetch (fst x) w0) = snd x) log.
Proof.
  intros File More W extract analyze fetch userId st f w w1 w2 extracted result
         Hfile Hextract Hanalyze. cbv zeta.
  unfold TestUpload.handleUpload, TestUpload.upload.
  rewrite Hfile, Hextract, Hanalyze.
  pose proof (create_each_log fetch userId (TestUpload.transactions result)
                              [] w2) as Hloop.
  cbv zeta in Hloop.
  destruct (TestUpload.create_each fetch userId
              (TestUpload.transactions result) [] w2) as [[outcome sent] w3].
  cbn [fst snd] in *.
  destruct Hloop as (log & k & Hsent & Hk & Hreq & Hinit & Hall & Hlen & Htrue).
  assert (Hrev : rev sent = log)
    by (rewrite Hsent, app_nil_r; apply rev_involutive).
  rewrite Hrev.
  destruct outcome as [[message|]|[]]; cbn;
    (split; [reflexivity|]); (split; [reflexivity|]); (split; [reflexivity|]).
  - split; [exists k; split; [exact Hk|]; split; [exact Hreq|]; discriminate|].
    split; [exact Hinit|]. split; [|exact Htrue].
    split; [discriminate|]. intros H. apply Hall in H. discriminate.
  - split; [exists k; split; [exact Hk|]; split; [exact Hreq|]; discriminate|].
    split; [exact Hinit|]. split; [|exact Htrue].
    split; [discriminate|]. intros H. apply Hall in H. discriminate.
  - split; [exists k; split; [exact Hk|]; split; [exact Hreq|];
            intros _; now apply Hlen|].
    split; [exact Hinit|]. split; [|exact Htrue].
    split; [intros _; now apply Hall|reflexivity].
Qed.

(** X21 on sample data: the server refuses the second of three requests;
    two requests are sent, the first accepted, and the error of the
    second is shown. *)
Lemma test_upload_stops_at_first_failure_witness :
  let run := TestUpload.handleUpload
               (fun (_ : unit) (n : nat) => (inr (str "Rent 900"), S n))
               (fun _ n =>
                  (inr {| TestUpload.transactions := example_transactions;
                          TestUpload.more := tt |}, S n))
               refusing_second (str "usr") example_test_upload 0 in
  List.map fst (rev (snd (fst run)))
  = List.map (TestUpload.request_of (str "usr")) (firstn 2 example_transactions)
  /\ TestUpload.error (fst (fst run))
     = Some (str "Failed to create transaction: Invalid category")
  /\ forallb accepted (removelast (rev (snd (fst run)))) = true
  /\ forallb accepted (rev (snd (fst run))) = false.
Proof.
  destruct (@test_upload_stops_at_first_failure
              unit unit nat
              (fun _ n => (inr (str "Rent 900"), S n))
              (fun _ n =>
                 (inr {| TestUpload.transactions := example_transactions;
                         TestUpload.more := tt |}, S n))
              refusing_second (str "usr") example_test_upload tt 0 1 2
              (str "Rent 900")
              {| TestUpload.transactions := example_transactions;
                 TestUpload.more := tt |}
              eq_refl eq_refl eq_refl) as (_ & _ & _ & _ & Hinit & Herr & _).
  cbv zeta. split; [vm_compute; reflexivity|]. split; [vm_compute; reflexivity|].
  split; [exact Hinit|].
  apply not_true_is_false. intros Hall.
  apply Herr in Hall. vm_compute in Hall. discriminate.
Defined.
